(** * The DLC aggregation pipeline: classifiers, per-bank-pincode analysis
      and the state rollups served by the API.

    The development embeds the following source functions:
    - [dlc_bank_analysis_fixed.py]: [get_age_group], [get_state_from_pincode],
      [analyze_dlc_by_bank_pincode], [generate_dlc_analysis_report],
      [save_dlc_analysis_data];
    - [dlc_api_endpoint.py]: [get_dlc_bank_pincode_data] (bank-location
      rollup), [get_district_from_pincode];
    - [app.py]: [get_dlc_bank_pincode_data] (residence rollup),
      [get_excel_pensioners], [get_excel_age_group_summary], the loop of
      [get_authentication_methods] and the classifiers;
    - [excel_data_processor.py]: [get_state_from_pincode],
      [process_excel_data].

    Python [int] is [Z]; [str] is [string] (ASCII text); a [dict] is an
    insertion-ordered association list; a [float] is a binary64 value
    [m * 2^e]. *)

From Stdlib Require Import ZArith List String Ascii Bool Lia Permutation Sorted.
From Stdlib Require Import DecimalString.
From Stdlib Require OrderedTypeEx.
Import ListNotations.

Open Scope string_scope.
Open Scope Z_scope.

(* ================================================================== *)
(** * Part I. The embedding                                            *)
(* ================================================================== *)

(** ** Python built-ins used by the scripts *)

Module Py.

(** [s.replace('.0', '')]: every non-overlapping occurrence of the two
    characters is dropped, scanning from the left. *)
Fixpoint replace_dot0 (s : string) : string :=
  match s with
  | String "." (String "0" rest) => replace_dot0 rest
  | String c rest => String c (replace_dot0 rest)
  | EmptyString => EmptyString
  end.

(** [s.endswith(suf)]. *)
Definition endswith (s suf : string) : bool :=
  (String.length suf <=? String.length s)%nat &&
  String.eqb (substring (String.length s - String.length suf)
                        (String.length suf) s) suf.

(** [s[:-2]]. *)
Definition drop_last2 (s : string) : string :=
  substring 0 (String.length s - 2) s.

(** [s[:3]]. *)
Definition first3 (s : string) : string := substring 0 3 s.

(** [len(s)] as a Python int. *)
Definition len (s : string) : Z := Z.of_nat (String.length s).

(** Truth value of a string: [not s] holds for the empty string only. *)
Definition truthy (s : string) : bool :=
  match s with EmptyString => false | _ => true end.

(** *** [int(s)] for a decimal literal

    Surrounding white space is stripped, one sign is allowed, and the
    digits may be separated by single underscores.  [None] stands for
    [ValueError]. *)

Definition is_space (c : ascii) : bool :=
  let n := nat_of_ascii c in
  ((9 <=? n) && (n <=? 13) || (n =? 32))%nat.

Definition digit_of (c : ascii) : option Z :=
  let n := Z.of_nat (nat_of_ascii c) in
  if (48 <=? n) && (n <=? 57) then Some (n - 48) else None.

Fixpoint lstrip (l : list ascii) : list ascii :=
  match l with
  | c :: r => if is_space c then lstrip r else l
  | [] => []
  end.

Definition strip (l : list ascii) : list ascii :=
  rev (lstrip (rev (lstrip l))).

(** [seen] tells whether the previous character was a digit: an
    underscore is accepted only between two digits. *)
Fixpoint digits (acc : Z) (seen : bool) (l : list ascii) : option Z :=
  match l with
  | [] => if seen then Some acc else None
  | c :: r =>
      if Ascii.eqb c "_"
      then (if seen then digits acc false r else None)
      else match digit_of c with
           | Some d => digits (10 * acc + d) true r
           | None => None
           end
  end.

Definition int_of_str (s : string) : option Z :=
  match strip (list_ascii_of_string s) with
  | "+"%char :: r => digits 0 false r
  | "-"%char :: r => option_map Z.opp (digits 0 false r)
  | l => digits 0 false l
  end.

(** *** Values that reach [int(...)]

    The classifiers call [int] on their argument inside a [try]; the
    argument is an integer at every call site of the pipeline, a string
    or [None] make the other arms of the handler visible. *)
Inductive value : Type :=
| Int (n : Z)
| Str (s : string)
| NoneValue.

Definition int_of_value (v : value) : option Z :=
  match v with
  | Int n => Some n
  | Str s => int_of_str s
  | NoneValue => None
  end.

(** *** [a / b] on integers and [int(x)] on the resulting float

    A finite binary64 number is [mant * 2 ^ expo] with
    [|mant| <= 2^53] and [-1074 <= expo].  True division of two
    integers returns the double nearest to the exact quotient, ties
    going to the even significand; [None] stands for
    [ZeroDivisionError] and for [OverflowError]. *)
Record float : Type := { mant : Z; expo : Z }.

Definition round_half_even (n d : Z) : Z :=
  let q := n / d in
  let r := n mod d in
  if 2 * r <? d then q
  else if d <? 2 * r then q + 1
  else if Z.even q then q else q + 1.

(** Exponent of the last bit of a 53-bit significand for [a / b], with
    [a, b > 0]: the one that puts [a / (b * 2^e)] in [[2^52, 2^53)]. *)
Definition free_exponent (a b : Z) : Z :=
  let la := Z.log2 a in
  let lb := Z.log2 b in
  if a * 2 ^ lb <? b * 2 ^ la then la - lb - 53 else la - lb - 52.

(** It is not allowed below the exponent of the subnormal numbers. *)
Definition ulp_exponent (a b : Z) : Z :=
  Z.max (free_exponent a b) (-1074).

Definition nearest_significand (a b e : Z) : Z :=
  if 0 <=? e then round_half_even a (b * 2 ^ e)
  else round_half_even (a * 2 ^ (- e)) b.

Definition true_divide (a b : Z) : option float :=
  if b =? 0 then None
  else if a =? 0 then Some {| mant := 0; expo := 0 |}
  else
    let e := ulp_exponent (Z.abs a) (Z.abs b) in
    let m := nearest_significand (Z.abs a) (Z.abs b) e in
    if (0 <=? e) && (2 ^ 1024 <=? m * 2 ^ e) then None
    else Some {| mant := Z.sgn a * Z.sgn b * m; expo := e |}.

(** [int(x)]: the fractional part is discarded, towards zero. *)
Definition int_of_float (x : float) : Z :=
  if 0 <=? expo x then mant x * 2 ^ expo x
  else Z.quot (mant x) (2 ^ (- expo x)).

(** *** [sorted(l, key=key, reverse=True)]

    The sort is stable, also when reversed: items with equal keys keep
    the order they have in [l].  An item is placed in front of the
    first item whose key is not larger than its own. *)
Section Sorting.
Context {A : Type} (key : A -> Z).

Fixpoint insert_desc (x : A) (l : list A) : list A :=
  match l with
  | [] => [x]
  | y :: r => if key x <? key y then y :: insert_desc x r else x :: l
  end.

Definition sorted_reverse (l : list A) : list A :=
  fold_right insert_desc [] l.
End Sorting.

End Py.

(** ** Insertion-ordered dictionaries with string keys

    [dict] and [defaultdict] keep their keys in the order of first
    insertion; [items()] is the list itself. *)

Module Dict.

Section Defs.
Context {V : Type}.

Definition t : Type := list (string * V).

Fixpoint get (k : string) (d : t) : option V :=
  match d with
  | [] => None
  | (k', v) :: r => if String.eqb k' k then Some v else get k r
  end.

(** [d[k] = v]: an existing key keeps its place, a new one goes last. *)
Fixpoint set (k : string) (v : V) (d : t) : t :=
  match d with
  | [] => [(k, v)]
  | (k', v') :: r =>
      if String.eqb k' k then (k', v) :: r else (k', v') :: set k v r
  end.

(** [d[k]] on a [defaultdict] whose factory returns [dflt]. *)
Definition get_default (dflt : V) (k : string) (d : t) : V :=
  match get k d with Some v => v | None => dflt end.

(** [d[k] = f(d[k])] on a [defaultdict]: the shape of every [+=]. *)
Definition update (dflt : V) (k : string) (f : V -> V) (d : t) : t :=
  set k (f (get_default dflt k d)) d.

Definition keys (d : t) : list string := map fst d.
Definition values (d : t) : list V := map snd d.
End Defs.

Arguments t : clear implicits.

(** [d[k] += n] on a [defaultdict(int)]. *)
Definition incr (k : string) (n : Z) (d : t Z) : t Z :=
  update 0 k (fun v => v + n) d.

(** [sum(d.values())]. *)
Definition total (d : t Z) : Z := fold_right Z.add 0 (values d).

End Dict.

Definition bind {A B : Type} (o : option A) (k : A -> option B) : option B :=
  match o with Some a => k a | None => None end.

Notation "x <- o ;; k" := (bind o (fun x => k))
  (at level 61, o at next level, right associativity).

(** A [for] loop whose body may raise: the first exception ends it. *)
Fixpoint fold_opt {A B : Type} (f : A -> B -> option A) (l : list B) (a : A)
    : option A :=
  match l with
  | [] => Some a
  | x :: r => a' <- f a x ;; fold_opt f r a'
  end.

(** What an endpoint answers: a JSON body, 404 or 500. *)
Inductive response (A : Type) : Type :=
| Ok (body : A)
| NotFound
| ServerError.

Arguments Ok {A} body.
Arguments NotFound {A}.
Arguments ServerError {A}.

(** ** Spreadsheet rows

    A pincode cell is [None] when [pd.notna] rejects it and [Some s]
    when [str(cell)] is [s].  For the year of birth only the outcome of
    the numeric conversions matters: [Blank] is a cell [pd.notna]
    rejects; [Number y] a number of integer part [y], or a text that
    [int] reads as [y]; [Decimal_text y] a text such as ["1960.0"],
    which [float] reads and [int] does not; [Garbage] a cell on which
    both raise. *)

Module Excel.

Inductive number_cell : Type :=
| Blank
| Number (y : Z)
| Decimal_text (y : Z)
| Garbage.

Record row : Type :=
  { BRANCH_PINCODE : option string;
    PENSIONER_PINCODE : option string;
    YOB : number_cell }.

(** A file is [None] when [pd.read_excel] raises on it. *)
Definition file : Type := option (list row).

(** A cell read with [row[name]], which raises [KeyError] on a sheet
    without that column ([row.get(name)] reads an absent column as a
    blank cell, which [row] above covers). *)
Inductive column (A : Type) : Type :=
| Absent
| Present (cell : A).

Arguments Absent {A}.
Arguments Present {A} cell.

(** A row as seen by the code that indexes it with [row[name]]. *)
Record indexed_row : Type :=
  { PENSIONER_PINCODE_at : column (option string);
    BRANCH_PINCODE_at : column (option string);
    YOB_at : column number_cell }.

Definition indexed_file : Type := option (list indexed_row).

End Excel.

(** ** Static range tables

    Every classifier is an [if]/[elif] chain of closed ranges; the chain
    is kept as the ordered list of its arms and read first match first. *)

Definition range_table := list (Z * Z * string).

Fixpoint first_match (tbl : range_table) (other : string) (n : Z) : string :=
  match tbl with
  | [] => other
  | (lo, hi, label) :: rest =>
      if (lo <=? n) && (n <=? hi) then label else first_match rest other n
  end.

(** ** [dlc_bank_analysis_fixed.py]: classifiers *)

Module DlcBankAnalysis.

(** [get_age_group(birth_year)] with [datetime.now().year] passed in as
    [current_year]; the handler returns ['Unknown'] when [int] raises. *)
Definition get_age_group (current_year : Z) (birth_year : Py.value) : string :=
  match Py.int_of_value birth_year with
  | Some y =>
      let age := current_year - y in
      if age <? 60 then "Below 60"
      else if (60 <=? age) && (age <=? 65) then "60-65"
      else if (66 <=? age) && (age <=? 70) then "66-70"
      else if (71 <=? age) && (age <=? 75) then "71-75"
      else if (76 <=? age) && (age <=? 80) then "76-80"
      else "80+"
  | None => "Unknown"
  end.

Definition state_ranges : range_table :=
  [ (110, 140, "Delhi");
    (201, 285, "Uttar Pradesh");
    (301, 345, "Rajasthan");
    (360, 396, "Gujarat");
    (400, 445, "Maharashtra");
    (500, 509, "Telangana");
    (510, 518, "Andhra Pradesh");
    (560, 591, "Karnataka");
    (600, 643, "Tamil Nadu");
    (682, 695, "Kerala");
    (700, 743, "West Bengal");
    (751, 770, "Odisha");
    (800, 855, "Bihar");
    (781, 788, "Assam");
    (160, 165, "Punjab");
    (171, 177, "Himachal Pradesh");
    (180, 194, "Jammu and Kashmir") ].

(** [get_state_from_pincode(pincode)] on a string argument. *)
Definition get_state_from_pincode (pincode : string) : string :=
  let pin_str := Py.replace_dot0 pincode in
  if 3 <=? Py.len pin_str then
    match Py.int_of_str (Py.first3 pin_str) with
    | Some pin_num => first_match state_ranges "Other State" pin_num
    | None => "Invalid Pincode"
    end
  else "Invalid Pincode".

(** *** [analyze_dlc_by_bank_pincode] *)

Record bucket : Type :=
  { total_dlc_completed : Z;
    age_groups : Dict.t Z;
    state : string;
    pensioner_states : Dict.t Z }.

(** The factory of [bank_pincode_data]. *)
Definition new_bucket : bucket :=
  {| total_dlc_completed := 0;
     age_groups := [];
     state := "";
     pensioner_states := [] |}.

(** [str(cell).replace('.0', '') if pd.notna(cell) else '']. *)
Definition pincode_text (cell : option string) : string :=
  match cell with
  | Some s => Py.replace_dot0 s
  | None => ""
  end.

(** [int(float(row.get('YOB', 1960))) if pd.notna(row.get('YOB')) else 1960];
    [None] is the exception caught by the per-row handler. *)
Definition birth_year_of (c : Excel.number_cell) : option Z :=
  match c with
  | Excel.Blank => Some 1960
  | Excel.Number y => Some y
  | Excel.Decimal_text y => Some y
  | Excel.Garbage => None
  end.

(** The inclusion test of this view: [continue] is taken when
    [not branch_pincode or len(branch_pincode) < 6]. *)
Definition skip_branch (branch_pincode : string) : bool :=
  negb (Py.truthy branch_pincode) || (Py.len branch_pincode <? 6).

(** The four updates made to the bucket of an accepted row. *)
Definition count_record (age_group bank_state pensioner_state : string)
                        (b : bucket) : bucket :=
  {| total_dlc_completed := total_dlc_completed b + 1;
     age_groups := Dict.incr age_group 1 (age_groups b);
     state := if Py.truthy (state b) then state b else bank_state;
     pensioner_states := Dict.incr pensioner_state 1 (pensioner_states b) |}.

(** The accumulator of the run: [bank_pincode_data] and
    [total_processed]. *)
Definition run : Type := (Dict.t bucket * Z)%type.

(** Body of the row loop.  A row whose year of birth cannot be
    converted raises before the pincode test and is dropped by
    [except Exception: continue]. *)
Definition process_row (current_year : Z) (acc : run) (r : Excel.row) : run :=
  let branch_pincode := pincode_text (Excel.BRANCH_PINCODE r) in
  let pensioner_pincode := pincode_text (Excel.PENSIONER_PINCODE r) in
  match birth_year_of (Excel.YOB r) with
  | None => acc
  | Some birth_year =>
      if skip_branch branch_pincode then acc
      else
        let age_group := get_age_group current_year (Py.Int birth_year) in
        let bank_state := get_state_from_pincode branch_pincode in
        let pensioner_state := get_state_from_pincode pensioner_pincode in
        (Dict.update new_bucket branch_pincode
           (count_record age_group bank_state pensioner_state) (fst acc),
         snd acc + 1)
  end.

(** Body of the file loop: an unreadable file is skipped. *)
Definition process_file (current_year : Z) (acc : run) (f : Excel.file) : run :=
  match f with
  | Some rows => fold_left (process_row current_year) rows acc
  | None => acc
  end.

Definition accumulate (current_year : Z) (files : list Excel.file) : run :=
  fold_left (process_file current_year) files ([], 0).

(** [final_data]: only pincodes with completions are kept. *)
Definition final_data (bank_pincode_data : Dict.t bucket) : Dict.t bucket :=
  filter (fun kv => 0 <? total_dlc_completed (snd kv)) bank_pincode_data.

Definition analyze_dlc_by_bank_pincode (current_year : Z)
    (files : list Excel.file) : Dict.t bucket :=
  final_data (fst (accumulate current_year files)).

(** *** [generate_dlc_analysis_report] *)

Definition count_of (kv : string * bucket) : Z := total_dlc_completed (snd kv).

(** [sorted(bank_data.items(), key=..., reverse=True)[:15]]. *)
Definition top_pincodes (bank_data : Dict.t bucket) : list (string * bucket) :=
  firstn 15 (Py.sorted_reverse count_of bank_data).

(** The loop filling [state_totals] and [state_pincodes]. *)
Definition state_totals (bank_data : Dict.t bucket) : Dict.t Z :=
  fold_left (fun acc kv => Dict.incr (state (snd kv)) (count_of kv) acc)
            bank_data [].

Definition state_pincodes (bank_data : Dict.t bucket) : Dict.t Z :=
  fold_left (fun acc kv => Dict.incr (state (snd kv)) 1 acc) bank_data [].

(** [sorted(state_totals.items(), key=..., reverse=True)[:10]]. *)
Definition state_sorted (bank_data : Dict.t bucket) : list (string * Z) :=
  firstn 10 (Py.sorted_reverse snd (state_totals bank_data)).

(** *** [save_dlc_analysis_data]: the persisted document *)

Record document : Type :=
  { analysis_timestamp : string;
    total_records_processed : Z;
    total_bank_pincodes : Z;
    total_dlc : Z;
    bank_pincode_data : Dict.t bucket }.

Definition complete_data (timestamp : string) (bank_data : Dict.t bucket)
    (total_processed : Z) : document :=
  {| analysis_timestamp := timestamp;
     total_records_processed := total_processed;
     total_bank_pincodes := Z.of_nat (List.length bank_data);
     total_dlc := fold_right Z.add 0 (map count_of bank_data);
     bank_pincode_data := bank_data |}.

Definition top_50_bank_pincodes (bank_data : Dict.t bucket)
    : list (string * bucket) :=
  firstn 50 (Py.sorted_reverse count_of bank_data).

(** The document written by one run of the script. *)
Definition persisted (current_year : Z) (timestamp : string)
    (files : list Excel.file) : document :=
  complete_data timestamp (analyze_dlc_by_bank_pincode current_year files)
                (snd (accumulate current_year files)).

End DlcBankAnalysis.

(** ** [dlc_api_endpoint.py]: district classifier *)

Module DlcApiEndpoint.

Definition district_ranges : range_table :=
  [ (380, 382, "Ahmedabad");
    (390, 396, "Vadodara");
    (360, 370, "Rajkot");
    (370, 375, "Jamnagar");
    (383, 389, "Gandhinagar");
    (362, 365, "Bhavnagar");
    (302, 303, "Jaipur");
    (342, 344, "Jodhpur");
    (313, 314, "Udaipur");
    (334, 335, "Bikaner");
    (301, 302, "Alwar");
    (321, 322, "Bharatpur");
    (400, 421, "Mumbai");
    (411, 414, "Pune");
    (440, 445, "Nagpur");
    (422, 425, "Nashik");
    (431, 432, "Aurangabad");
    (560, 562, "Bangalore");
    (570, 571, "Mysore");
    (580, 582, "Hubli");
    (575, 576, "Mangalore");
    (800, 803, "Patna");
    (834, 835, "Ranchi");
    (831, 832, "Dhanbad");
    (110, 140, "Delhi") ].

(** [get_district_from_pincode(pincode)] on a string argument. *)
Definition get_district_from_pincode (pincode : string) : string :=
  match Py.int_of_str (Py.first3 pincode) with
  | Some pin_num => first_match district_ranges "Other District" pin_num
  | None => "Unknown District"
  end.

(** *** [get_dlc_bank_pincode_data]: rollup by the state of the bank *)

Module StateWise.
Record pincode_entry : Type :=
  { pincode : string; dlc_count : Z; district : string }.

Record t : Type :=
  { total_dlc_completed : Z;
    age_groups : Dict.t Z;
    bank_pincodes : list pincode_entry;
    pincode_counts : Dict.t Z }.

Definition empty : t :=
  {| total_dlc_completed := 0; age_groups := [];
     bank_pincodes := []; pincode_counts := [] |}.
End StateWise.

Module DistrictWise.
Record pincode_entry : Type :=
  { pincode : string; dlc_count : Z }.

Record t : Type :=
  { total_dlc_completed : Z;
    age_groups : Dict.t Z;
    bank_pincodes : list pincode_entry;
    state : string }.

Definition empty : t :=
  {| total_dlc_completed := 0; age_groups := [];
     bank_pincodes := []; state := "" |}.
End DistrictWise.

Module StateFinal.
Record t : Type :=
  { total_pensioners : Z;
    age_groups : Dict.t Z;
    bank_locations : Dict.t Z;
    pincode_counts : Dict.t Z;
    bank_pincodes : list StateWise.pincode_entry }.
End StateFinal.

Module DistrictFinal.
Record t : Type :=
  { total_dlc_completed : Z;
    age_groups : Dict.t Z;
    state : string;
    bank_pincodes : list DistrictWise.pincode_entry }.
End DistrictFinal.

(** [for age_group, count in data['age_groups'].items():
       acc[age_group] += count]. *)
Definition merge_age_groups (src acc : Dict.t Z) : Dict.t Z :=
  fold_left (fun a gc => Dict.incr (fst gc) (snd gc) a) src acc.

Definition add_to_state (pin district : string)
    (data : DlcBankAnalysis.bucket) (e : StateWise.t) : StateWise.t :=
  let n := DlcBankAnalysis.total_dlc_completed data in
  {| StateWise.total_dlc_completed := StateWise.total_dlc_completed e + n;
     StateWise.age_groups :=
       merge_age_groups (DlcBankAnalysis.age_groups data)
                        (StateWise.age_groups e);
     StateWise.bank_pincodes :=
       StateWise.bank_pincodes e ++
       [ {| StateWise.pincode := pin; StateWise.dlc_count := n;
            StateWise.district := district |} ];
     StateWise.pincode_counts := Dict.set pin n (StateWise.pincode_counts e) |}.

Definition add_to_district (pin st : string)
    (data : DlcBankAnalysis.bucket) (e : DistrictWise.t) : DistrictWise.t :=
  let n := DlcBankAnalysis.total_dlc_completed data in
  {| DistrictWise.total_dlc_completed := DistrictWise.total_dlc_completed e + n;
     DistrictWise.age_groups :=
       merge_age_groups (DlcBankAnalysis.age_groups data)
                        (DistrictWise.age_groups e);
     DistrictWise.bank_pincodes :=
       DistrictWise.bank_pincodes e ++
       [ {| DistrictWise.pincode := pin; DistrictWise.dlc_count := n |} ];
     DistrictWise.state := st |}.

(** Body of the loop over [bank_pincode_data.items()]. *)
Definition rollup_step
    (acc : Dict.t StateWise.t * Dict.t DistrictWise.t)
    (kv : string * DlcBankAnalysis.bucket)
    : Dict.t StateWise.t * Dict.t DistrictWise.t :=
  let pin := fst kv in
  let data := snd kv in
  let st := DlcBankAnalysis.state data in
  let district := get_district_from_pincode pin in
  let district_key := district ++ "_" ++ st in
  (Dict.update StateWise.empty st (add_to_state pin district data) (fst acc),
   Dict.update DistrictWise.empty district_key (add_to_district pin st data)
               (snd acc)).

Definition rollup (bank_pincode_data : Dict.t DlcBankAnalysis.bucket)
    : Dict.t StateWise.t * Dict.t DistrictWise.t :=
  fold_left rollup_step bank_pincode_data ([], []).

Definition finish_state (e : StateWise.t) : StateFinal.t :=
  {| StateFinal.total_pensioners := StateWise.total_dlc_completed e;
     StateFinal.age_groups := StateWise.age_groups e;
     StateFinal.bank_locations := [];
     StateFinal.pincode_counts := StateWise.pincode_counts e;
     StateFinal.bank_pincodes :=
       firstn 20 (Py.sorted_reverse StateWise.dlc_count
                                    (StateWise.bank_pincodes e)) |}.

Definition finish_district (e : DistrictWise.t) : DistrictFinal.t :=
  {| DistrictFinal.total_dlc_completed := DistrictWise.total_dlc_completed e;
     DistrictFinal.age_groups := DistrictWise.age_groups e;
     DistrictFinal.state := DistrictWise.state e;
     DistrictFinal.bank_pincodes :=
       firstn 10 (Py.sorted_reverse DistrictWise.dlc_count
                                    (DistrictWise.bank_pincodes e)) |}.

Definition state_final (bank_pincode_data : Dict.t DlcBankAnalysis.bucket)
    : Dict.t StateFinal.t :=
  map (fun kv => (fst kv, finish_state (snd kv)))
      (fst (rollup bank_pincode_data)).

Definition district_final (bank_pincode_data : Dict.t DlcBankAnalysis.bucket)
    : Dict.t DistrictFinal.t :=
  map (fun kv => (fst kv, finish_district (snd kv)))
      (snd (rollup bank_pincode_data)).

Record body : Type :=
  { state_wise_data : Dict.t StateFinal.t;
    district_wise_data : Dict.t DistrictFinal.t;
    bank_pincode_data : Dict.t DlcBankAnalysis.bucket;
    total_records : Z;
    total_bank_pincodes : Z;
    analysis_timestamp : string }.

(** [analysis_data] is [None] when no analysis file is found. *)
Definition get_dlc_bank_pincode_data
    (analysis_data : option DlcBankAnalysis.document) : response body :=
  match analysis_data with
  | None => NotFound
  | Some doc =>
      let data := DlcBankAnalysis.bank_pincode_data doc in
      Ok {| state_wise_data := state_final data;
            district_wise_data := district_final data;
            bank_pincode_data := data;
            total_records := DlcBankAnalysis.total_records_processed doc;
            total_bank_pincodes := DlcBankAnalysis.total_bank_pincodes doc;
            analysis_timestamp := DlcBankAnalysis.analysis_timestamp doc |}
  end.

End DlcApiEndpoint.

(** ** [app.py]: rollup by the state where the pensioners live *)

Module App.

(** Same text as in [dlc_bank_analysis_fixed.py]. *)
Definition get_age_group := DlcBankAnalysis.get_age_group.

(** The pincode cleaning of [get_excel_pensioners]:
    [str(cell) if pd.notna(cell) else ''], then the last two
    characters are cut when the text ends with ['.0']. *)
Definition clean_pincode (cell : option string) : string :=
  let s := match cell with Some s => s | None => "" end in
  if Py.endswith s ".0" then Py.drop_last2 s else s.

Record state_entry : Type :=
  { total_pensioners : Z;
    age_groups : Dict.t Z;
    bank_locations : Dict.t Z;
    pincode_counts : Dict.t Z;
    pensioner_pincodes : Dict.t Z }.

(** The factory of [state_wise_data]. *)
Definition new_entry : state_entry :=
  {| total_pensioners := 0; age_groups := []; bank_locations := [];
     pincode_counts := []; pensioner_pincodes := [] |}.

(** [pensioner_state and pensioner_state != 'Invalid Pincode'
     and pensioner_state != 'Other State']. *)
Definition is_residence (pensioner_state : string) : bool :=
  Py.truthy pensioner_state &&
  negb (String.eqb pensioner_state "Invalid Pincode") &&
  negb (String.eqb pensioner_state "Other State").

(** [int((age_count * pensioner_count) / total_bank_dlc)]. *)
Definition proportional_count (age_count pensioner_count total_bank_dlc : Z)
    : option Z :=
  x <- Py.true_divide (age_count * pensioner_count) total_bank_dlc ;;
  Some (Py.int_of_float x).

Definition add_age (age_group : string) (n : Z) (e : state_entry)
    : state_entry :=
  {| total_pensioners := total_pensioners e;
     age_groups := Dict.incr age_group n (age_groups e);
     bank_locations := bank_locations e;
     pincode_counts := pincode_counts e;
     pensioner_pincodes := pensioner_pincodes e |}.

(** Body of the loop over [data['age_groups'].items()]. *)
Definition distribute_step (pensioner_count total_bank_dlc : Z)
    (e : state_entry) (gc : string * Z) : option state_entry :=
  n <- proportional_count (snd gc) pensioner_count total_bank_dlc ;;
  Some (add_age (fst gc) n e).

Definition add_pensioners (bank_state : string) (pensioner_count : Z)
    (e : state_entry) : state_entry :=
  {| total_pensioners := total_pensioners e + pensioner_count;
     age_groups := age_groups e;
     bank_locations := Dict.incr bank_state pensioner_count (bank_locations e);
     pincode_counts := pincode_counts e;
     pensioner_pincodes := pensioner_pincodes e |}.

(** Body of the loop over [data.get('pensioner_states', {}).items()]. *)
Definition credit_state (data : DlcBankAnalysis.bucket)
    (state_wise_data : Dict.t state_entry) (sc : string * Z)
    : option (Dict.t state_entry) :=
  let pensioner_state := fst sc in
  let pensioner_count := snd sc in
  if is_residence pensioner_state then
    let e := add_pensioners (DlcBankAnalysis.state data) pensioner_count
               (Dict.get_default new_entry pensioner_state state_wise_data) in
    let total_bank_dlc := DlcBankAnalysis.total_dlc_completed data in
    e' <- (if 0 <? total_bank_dlc
           then fold_opt (distribute_step pensioner_count total_bank_dlc)
                         (DlcBankAnalysis.age_groups data) e
           else Some e) ;;
    Some (Dict.set pensioner_state e' state_wise_data)
  else Some state_wise_data.

(** Body of the loop over [bank_pincode_data.items()]. *)
Definition process_bucket (state_wise_data : Dict.t state_entry)
    (kv : string * DlcBankAnalysis.bucket) : option (Dict.t state_entry) :=
  fold_opt (credit_state (snd kv))
           (DlcBankAnalysis.pensioner_states (snd kv)) state_wise_data.

Definition rollup (bank_pincode_data : Dict.t DlcBankAnalysis.bucket)
    : option (Dict.t state_entry) :=
  fold_opt process_bucket bank_pincode_data [].

Module StateFinal.
Record t : Type :=
  { total_pensioners : Z;
    age_groups : Dict.t Z;
    bank_locations : Dict.t Z;
    pincode_counts : Dict.t Z }.
End StateFinal.

Definition finish_state (e : state_entry) : StateFinal.t :=
  {| StateFinal.total_pensioners := total_pensioners e;
     StateFinal.age_groups := age_groups e;
     StateFinal.bank_locations := bank_locations e;
     StateFinal.pincode_counts := pincode_counts e |}.

Record body : Type :=
  { state_wise_data : Dict.t StateFinal.t;
    bank_pincode_data : Dict.t DlcBankAnalysis.bucket;
    total_records : Z;
    total_states : Z;
    processed_at : string }.

(** [analysis_data] is [None] when no analysis file is found; an
    exception raised while rolling up is answered with 500. *)
Definition get_dlc_bank_pincode_data
    (analysis_data : option DlcBankAnalysis.document) : response body :=
  match analysis_data with
  | None => NotFound
  | Some doc =>
      let data := DlcBankAnalysis.bank_pincode_data doc in
      match rollup data with
      | None => ServerError
      | Some swd =>
          let state_final :=
            map (fun kv => (fst kv, finish_state (snd kv))) swd in
          Ok {| state_wise_data := state_final;
                bank_pincode_data := data;
                total_records := Z.of_nat (List.length data);
                total_states := Z.of_nat (List.length state_final);
                processed_at := DlcBankAnalysis.analysis_timestamp doc |}
      end
  end.

End App.

(** ** [excel_data_processor.py]: the state-level view *)

Module ExcelDataProcessor.

Definition state_ranges : range_table :=
  [ (110, 140, "Delhi");
    (121, 136, "Haryana");
    (140, 160, "Punjab");
    (301, 345, "Rajasthan");
    (201, 285, "Uttar Pradesh");
    (800, 855, "Bihar");
    (700, 743, "West Bengal");
    (400, 445, "Maharashtra");
    (380, 396, "Gujarat");
    (560, 591, "Karnataka");
    (600, 643, "Tamil Nadu");
    (500, 509, "Telangana");
    (515, 535, "Andhra Pradesh");
    (450, 492, "Madhya Pradesh");
    (751, 770, "Odisha");
    (781, 788, "Assam");
    (682, 695, "Kerala");
    (831, 835, "Jharkhand");
    (248, 263, "Uttarakhand");
    (171, 177, "Himachal Pradesh") ].

Definition get_state_from_pincode (pincode : string) : string :=
  match Py.int_of_str (Py.first3 pincode) with
  | Some pin_num => first_match state_ranges "Other States" pin_num
  | None => "Unknown"
  end.

(** Same text as in [dlc_bank_analysis_fixed.py]. *)
Definition get_age_group := DlcBankAnalysis.get_age_group.

Record state_entry : Type :=
  { total_pensioners : Z;
    age_groups : Dict.t Z;
    bank_locations : Dict.t Z }.

Definition new_entry : state_entry :=
  {| total_pensioners := 0; age_groups := []; bank_locations := [] |}.

(** [int(row['YOB']) if pd.notna(row['YOB']) else 1960]: no detour
    through [float] in this script. *)
Definition birth_year_of (c : Excel.number_cell) : option Z :=
  match c with
  | Excel.Blank => Some 1960
  | Excel.Number y => Some y
  | Excel.Decimal_text _ => None
  | Excel.Garbage => None
  end.

(** [str(cell) if pd.notna(cell) else '']: no cleaning in this script. *)
Definition cell_text (cell : option string) : string :=
  match cell with Some s => s | None => "" end.

Definition count_record (age_group bank_state : string) (e : state_entry)
    : state_entry :=
  {| total_pensioners := total_pensioners e + 1;
     age_groups := Dict.incr age_group 1 (age_groups e);
     bank_locations := Dict.incr bank_state 1 (bank_locations e) |}.

(** Body of the row loop.  The three cells are read with [row[name]]:
    on a sheet without one of the columns the lookup raises [KeyError]
    and the row is dropped by [except Exception: continue], as is a row
    whose year of birth does not convert.  There is no pincode test. *)
Definition process_row (current_year : Z)
    (acc : Dict.t state_entry * Z) (r : Excel.indexed_row)
    : Dict.t state_entry * Z :=
  match Excel.PENSIONER_PINCODE_at r, Excel.BRANCH_PINCODE_at r,
        Excel.YOB_at r with
  | Excel.Present pensioner_cell, Excel.Present branch_cell,
    Excel.Present yob_cell =>
      let pensioner_pincode := cell_text pensioner_cell in
      let branch_pincode := cell_text branch_cell in
      match birth_year_of yob_cell with
      | None => acc
      | Some birth_year =>
          let st := get_state_from_pincode pensioner_pincode in
          let age_group := get_age_group current_year (Py.Int birth_year) in
          let bank_state := get_state_from_pincode branch_pincode in
          (Dict.update new_entry st (count_record age_group bank_state)
                       (fst acc),
           snd acc + 1)
      end
  | _, _, _ => acc
  end.

(** [pd.read_excel(file_path, chunksize=chunk_size)]: [read_excel] has
    no [chunksize] parameter, so the call raises on every file (a
    [TypeError]; [NotImplementedError] in older versions of pandas)
    before any chunk is produced. *)
Definition read_excel_chunks (f : Excel.indexed_file)
    : option (list (list Excel.indexed_row)) :=
  None.

(** One turn of the loop over the files: the exception of the read is
    caught by the [except] around the chunk loop, which goes on with the
    next file. *)
Definition process_file (current_year : Z)
    (acc : Dict.t state_entry * Z) (f : Excel.indexed_file)
    : Dict.t state_entry * Z :=
  match read_excel_chunks f with
  | Some chunks =>
      fold_left (fun a chunk => fold_left (process_row current_year) chunk a)
                chunks acc
  | None => acc
  end.


End ExcelDataProcessor.

(** ** Vocabulary of the statements *)

Section Vocabulary.

Import DlcBankAnalysis.

(** The three quantities of a bucket agree and every entry of its two
    histograms is positive. *)
Definition balanced (b : bucket) : Prop :=
  0 <= total_dlc_completed b /\
  total_dlc_completed b = Dict.total (age_groups b) /\
  total_dlc_completed b = Dict.total (pensioner_states b) /\
  Forall (fun kv => 0 < snd kv) (age_groups b) /\
  Forall (fun kv => 0 < snd kv) (pensioner_states b).

Definition well_formed (b : bucket) : Prop :=
  1 <= total_dlc_completed b /\ balanced b.

Definition all_well_formed (d : Dict.t bucket) : Prop :=
  Forall (fun kv => well_formed (snd kv)) d.

(** The completions of the pincodes stored under state [S]. *)
Definition completions_in_state (S : string) (data : Dict.t bucket) : Z :=
  fold_right Z.add 0
    (map count_of (filter (fun kv => String.eqb (state (snd kv)) S) data)).

(** Total of state [S] in the accumulator of the bank-location rollup. *)
Definition state_wise_total (S : string)
    (d : Dict.t DlcApiEndpoint.StateWise.t) : Z :=
  DlcApiEndpoint.StateWise.total_dlc_completed
    (Dict.get_default DlcApiEndpoint.StateWise.empty S d).


(** The order of a descending sort: larger keys first. *)
Definition descending {A : Type} (key : A -> Z) (x y : A) : Prop :=
  key y <= key x.

(** *** Reading the residence rollup *)

(** Every key of the rollup passed the residence test. *)
Definition residence_keys (swd : Dict.t App.state_entry) : Prop :=
  Forall (fun k => App.is_residence k = true) (Dict.keys swd).

(** Count of age group [g] under residence state [s]. *)
Definition age_count (swd : Dict.t App.state_entry) (s g : string) : Z :=
  Dict.get_default 0 g (App.age_groups (Dict.get_default App.new_entry s swd)).

(** Sum of a quantity over the entries of a dictionary. *)
Definition sum_over {V : Type} (f : V -> Z) (d : Dict.t V) : Z :=
  fold_right Z.add 0 (map (fun kv => f (snd kv)) d).

(** All redistributed age-group counts held by the rollup. *)
Definition histogram_total (swd : Dict.t App.state_entry) : Z :=
  sum_over (fun e => Dict.total (App.age_groups e)) swd.

(** The entries of [pensioner_states] that pass the test of the loop. *)
Definition residence_states (b : bucket) : Dict.t Z :=
  filter (fun sc => App.is_residence (fst sc)) (pensioner_states b).

(** What one residence entry with count [P] receives from a
    histogram, when every share is the integer quotient. *)
Definition shares (ages : Dict.t Z) (P T : Z) : Z :=
  fold_right Z.add 0 (map (fun gc => snd gc * P / T) ages).

(** The part of it that goes to age group [g]. *)
Definition share_of (g : string) (ages : Dict.t Z) (P T : Z) : Z :=
  shares (filter (fun gc => String.eqb (fst gc) g) ages) P T.

(** What a whole bucket hands out. *)
Definition redistributed (b : bucket) : Z :=
  fold_right Z.add 0
    (map (fun sc => shares (age_groups b) (snd sc) (total_dlc_completed b))
         (residence_states b)).

(** Shares whose products stay below [2^53], where the float quotient
    is still exact enough. *)
Definition exact_range (ages : Dict.t Z) (P : Z) : Prop :=
  Forall (fun gc => 0 <= snd gc /\ snd gc * P < 2 ^ 53) ages.

(** Shares whose quotient is far from the largest double, so that the
    division does not raise. *)
Definition no_overflow (ages : Dict.t Z) (P : Z) : Prop :=
  Forall (fun gc => 0 <= snd gc /\ snd gc * P < 2 ^ 1023) ages.

(** The share the code computes for one age-group count. *)
Definition given (A P T : Z) : Z :=
  match App.proportional_count A P T with Some n => n | None => 0 end.

(** What the code adds to age group [g] for one residence entry. *)
Definition given_to (g : string) (ages : Dict.t Z) (P T : Z) : Z :=
  fold_right Z.add 0
    (map (fun gc => given (snd gc) P T)
         (filter (fun gc => String.eqb (fst gc) g) ages)).

(** Pensioners of a bucket whose residence state is known. *)
Definition resident (b : bucket) : Z := Dict.total (residence_states b).

(** The bucket with its sentinel residence entries removed. *)
Definition without_sentinels (kv : string * bucket) : string * bucket :=
  (fst kv,
   {| total_dlc_completed := total_dlc_completed (snd kv);
      age_groups := age_groups (snd kv);
      state := state (snd kv);
      pensioner_states := residence_states (snd kv) |}).

End Vocabulary.

(** ** Worked inputs *)

Section WorkedInputs.

Import DlcBankAnalysis.

Definition row_of (branch pensioner : string) (yob : Z) : Excel.row :=
  {| Excel.BRANCH_PINCODE := Some branch;
     Excel.PENSIONER_PINCODE := Some pensioner;
     Excel.YOB := Excel.Number yob |}.

(** Eight completions at one Mumbai branch, by pensioners living in
    eight different states, half of them born in 1960 and half in
    1955. *)
Definition eight_rows : list Excel.row :=
  [ row_of "400001" "110001" 1960; row_of "400001" "201301" 1960;
    row_of "400001" "302001" 1960; row_of "400001" "380001" 1960;
    row_of "400001" "400001" 1955; row_of "400001" "500001" 1955;
    row_of "400001" "560001" 1955; row_of "400001" "600001" 1955 ].

(** The bucket of the worked example: 100 completions, 40 of them in
    the group 66-70, 25 pensioners living in Gujarat. *)
Definition example_bucket : bucket :=
  {| total_dlc_completed := 100;
     age_groups := [("66-70", 40)];
     state := "Maharashtra";
     pensioner_states := [("Gujarat", 25)] |}.

(** A bucket with more than [2^27] completions. *)
Definition large_bucket : bucket :=
  {| total_dlc_completed := 200000001;
     age_groups := [("66-70", 199999999); ("71-75", 2)];
     state := "Maharashtra";
     pensioner_states := [("Gujarat", 100000001); ("Delhi", 100000000)] |}.

Definition bucket_of_count (n : Z) : bucket :=
  {| total_dlc_completed := n; age_groups := []; state := "";
     pensioner_states := [] |}.

(** Counts 50, 50, 30 for keys first seen in the order A, B, C. *)
Definition tied_buckets : Dict.t bucket :=
  [ ("A", bucket_of_count 50); ("B", bucket_of_count 50);
    ("C", bucket_of_count 30) ].

(** The same counts with B seen before A. *)
Definition tied_buckets_B_first : Dict.t bucket :=
  [ ("B", bucket_of_count 50); ("A", bucket_of_count 50);
    ("C", bucket_of_count 30) ].


(** A row without branch pincode of a pensioner living in Delhi. *)
Definition no_branch_row : Excel.row :=
  {| Excel.BRANCH_PINCODE := None;
     Excel.PENSIONER_PINCODE := Some "110001";
     Excel.YOB := Excel.Number 1955 |}.

End WorkedInputs.

(** ** The six age buckets of the wire contract, as intervals of ages *)

Definition age_buckets : list string :=
  ["Below 60"; "60-65"; "66-70"; "71-75"; "76-80"; "80+"].

Definition in_bucket (label : string) (age : Z) : Prop :=
  (label = "Below 60" /\ age < 60) \/
  (label = "60-65" /\ 60 <= age <= 65) \/
  (label = "66-70" /\ 66 <= age <= 70) \/
  (label = "71-75" /\ 71 <= age <= 75) \/
  (label = "76-80" /\ 76 <= age <= 80) \/
  (label = "80+" /\ 80 < age).

(** ** Further source functions *)

(** *** More built-ins *)

Module PyMore.

(** [sorted(names)] on strings: ascending by code point, stable. *)
Fixpoint insert_asc (x : string) (l : list string) : list string :=
  match l with
  | [] => [x]
  | y :: r => if String.ltb x y then x :: l else y :: insert_asc x r
  end.

Definition sorted_names (l : list string) : list string :=
  fold_right insert_asc [] l.

(** [l[-1]] on a list known to be non-empty; [None] otherwise. *)
Definition last_item {A : Type} (l : list A) : option A :=
  match rev l with
  | [] => None
  | x :: _ => Some x
  end.

(** [s.startswith(p)]. *)
Definition startswith (s p : string) : bool := String.prefix p s.

(** [str(n)] for a non-negative index. *)
Definition str_of_nat (n : nat) : string :=
  NilEmpty.string_of_uint (Nat.to_uint n).

(** [max(items, key=...)]: the first item among those of largest key;
    [None] stands for the [ValueError] on an empty sequence. *)
Fixpoint max_by {A : Type} (key : A -> Z) (l : list A) : option A :=
  match l with
  | [] => None
  | x :: r =>
      match max_by key r with
      | Some y => if key x <? key y then Some y else Some x
      | None => Some x
      end
  end.

(** [a // b] for [b <> 0]. *)
Definition floordiv (a b : Z) : Z := a / b.

(** A set of strings; only membership and size are read from it. *)
Definition set_add (x : string) (l : list string) : list string :=
  if existsb (String.eqb x) l then l else (l ++ [x])%list.

End PyMore.

(** *** [dlc_api_endpoint.py]: [load_dlc_analysis_data], choice of the file *)

Module DlcLoader.

(** The names that pass
    [f.startswith('dlc_bank_analysis_') and f.endswith('.json')]. *)
Definition analysis_files (listing : list string) : list string :=
  filter (fun f => PyMore.startswith f "dlc_bank_analysis_" &&
                   Py.endswith f ".json") listing.

(** [sorted(analysis_files)[-1]], or [None] when there is no such file
    and the function returns [None]. *)
Definition latest_file (listing : list string) : option string :=
  match analysis_files listing with
  | [] => None
  | files => PyMore.last_item (PyMore.sorted_names files)
  end.

End DlcLoader.

(** *** [dlc_bank_analysis_fixed.py]: the names of the files written *)

Module DlcSave.

(** [f'dlc_bank_analysis_{timestamp}.json']. *)
Definition complete_file_name (timestamp : string) : string :=
  "dlc_bank_analysis_" ++ timestamp ++ ".json".

(** [f'top_bank_pincodes_{timestamp}.json']. *)
Definition top_file_name (timestamp : string) : string :=
  "top_bank_pincodes_" ++ timestamp ++ ".json".

End DlcSave.

(** *** [dlc_bank_analysis_fixed.py]: the rest of the report *)

Module DlcReport.

(** [sum(data['total_dlc_completed'] for data in bank_data.values())]. *)
Definition total_dlc_completed (bank_data : Dict.t DlcBankAnalysis.bucket) : Z :=
  fold_right Z.add 0 (map DlcBankAnalysis.count_of bank_data).

(** [total_dlc_completed // total_bank_pincodes if total_bank_pincodes > 0
     else 0]. *)
Definition average_per_bank (bank_data : Dict.t DlcBankAnalysis.bucket) : Z :=
  let n := Z.of_nat (List.length bank_data) in
  if 0 <? n then PyMore.floordiv (total_dlc_completed bank_data) n else 0.

(** [max(data['age_groups'].items(), key=lambda x: x[1])[0]
     if data['age_groups'] else 'Unknown']. *)
Definition top_age_group (data : DlcBankAnalysis.bucket) : string :=
  match PyMore.max_by snd (DlcBankAnalysis.age_groups data) with
  | Some gc => fst gc
  | None => "Unknown"
  end.

(** [max(data['age_groups'].values()) if data['age_groups'] else 0]. *)
Definition top_age_count (data : DlcBankAnalysis.bucket) : Z :=
  match PyMore.max_by (fun v => v) (Dict.values (DlcBankAnalysis.age_groups data)) with
  | Some v => v
  | None => 0
  end.

(** The loop filling [overall_age_groups]. *)
Definition overall_age_groups (bank_data : Dict.t DlcBankAnalysis.bucket)
    : Dict.t Z :=
  fold_left (fun acc kv =>
               fold_left (fun a gc => Dict.incr (fst gc) (snd gc) a)
                         (DlcBankAnalysis.age_groups (snd kv)) acc)
            bank_data [].

(** [avg_per_pincode]:
    [total // state_pincodes[state] if state_pincodes[state] > 0 else 0]. *)
Definition avg_per_pincode (bank_data : Dict.t DlcBankAnalysis.bucket)
    (st : string) (total : Z) : Z :=
  let n := Dict.get_default 0 st (DlcBankAnalysis.state_pincodes bank_data) in
  if 0 <? n then PyMore.floordiv total n else 0.

End DlcReport.

(** *** [app.py]: classifiers *)

Module AppClassifiers.

(** Same text as in [excel_data_processor.py]. *)
Definition get_state_from_pincode := ExcelDataProcessor.get_state_from_pincode.

Definition district_ranges : range_table :=
  [ (360, 370, "Rajkot");
    (380, 382, "Ahmedabad");
    (390, 396, "Vadodara");
    (360, 365, "Rajkot");
    (370, 375, "Jamnagar");
    (383, 389, "Gandhinagar");
    (400, 421, "Mumbai");
    (411, 414, "Pune");
    (440, 445, "Nagpur");
    (422, 425, "Nashik");
    (560, 562, "Bangalore");
    (570, 571, "Mysore");
    (580, 582, "Hubli");
    (575, 576, "Mangalore");
    (600, 603, "Chennai");
    (641, 642, "Coimbatore");
    (625, 626, "Madurai");
    (620, 621, "Tiruchirappalli");
    (226, 227, "Lucknow");
    (208, 209, "Kanpur");
    (282, 283, "Agra");
    (221, 222, "Varanasi");
    (700, 711, "Kolkata");
    (711, 712, "Howrah");
    (713, 714, "Hooghly");
    (302, 303, "Jaipur");
    (342, 344, "Jodhpur");
    (324, 325, "Kota");
    (334, 335, "Bikaner");
    (800, 801, "Patna");
    (823, 824, "Gaya");
    (812, 813, "Bhagalpur");
    (842, 843, "Muzaffarpur") ].

Definition get_district_from_pincode (pincode : string) : string :=
  match Py.int_of_str (Py.first3 pincode) with
  | Some pin_num => first_match district_ranges "Other District" pin_num
  | None => "Unknown District"
  end.

End AppClassifiers.

(** *** [app.py]: [get_excel_age_group_summary] *)

Module AppAgeSummary.

(** Body of the row loop: [int(row['YOB'])], blank cells counting as
    1960; a row on which the lookup or the conversion raises is skipped
    by the bare [except]. *)
Definition count_row (current_year : Z) (age_groups : Dict.t Z)
    (r : Excel.indexed_row) : Dict.t Z :=
  match Excel.YOB_at r with
  | Excel.Present yob_cell =>
      match ExcelDataProcessor.birth_year_of yob_cell with
      | Some birth_year =>
          Dict.incr (App.get_age_group current_year (Py.Int birth_year)) 1
                    age_groups
      | None => age_groups
      end
  | Excel.Absent => age_groups
  end.

(** [excel_folder] is [None] when [os.listdir] raises (no such folder):
    the call is inside the [try], so the endpoint answers 500, as it
    does when the first file cannot be read.  Only the first file is
    read, and only its first 50000 rows. *)
Definition get_excel_age_group_summary (current_year : Z)
    (excel_folder : option (list Excel.indexed_file))
    : response (list (string * Z)) :=
  match excel_folder with
  | None => ServerError
  | Some [] => Ok []
  | Some (None :: _) => ServerError
  | Some (Some rows :: _) =>
      Ok (fold_left (count_row current_year) (firstn (Z.to_nat 50000) rows) [])
  end.

End AppAgeSummary.

(** *** [app.py]: [get_excel_pensioners] *)

Module AppPensioners.

(** The bank name cell: the column may be absent, the cell empty, or
    [str(cell)] be [s]. *)
Inductive bank_cell : Type :=
| NoColumn
| NoValue
| Bank (s : string).

(** The amount cell: [AmountBlank] when [pd.notna] rejects it or the
    column is absent, [Amount x] when [float(cell)] is [x],
    [AmountGarbage] when [float] raises. *)
Inductive amount_cell : Type :=
| AmountBlank
| Amount (x : Py.float)
| AmountGarbage.

(** The two pincodes are read with [row[name]], the bank name and the
    amount with [row.get(name)]. *)
Record row : Type :=
  { PENSIONER_PINCODE : Excel.column (option string);
    BRANCH_PINCODE : Excel.column (option string);
    BANK_NAME : bank_cell;
    PENSION_AMOUNT : amount_cell }.

Definition file : Type := option (list row).

(** The value of ['amount']: the integer 0 or a float. *)
Inductive number : Type :=
| Zero
| Float (x : Py.float).

Record pensioner : Type :=
  { id : string;
    name : string;
    pensioner_pincode : string;
    branch_pincode : string;
    pensioner_state : string;
    branch_state : string;
    pensioner_district : string;
    branch_district : string;
    bank : string;
    amount : number;
    verification_date : string }.

Record summary : Type :=
  { total_pensioners : Z;
    districts : list string;
    pincodes : list string;
    banks : list string }.

Definition new_summary : summary :=
  {| total_pensioners := 0; districts := []; pincodes := []; banks := [] |}.

(** [pd.notna(row.get('BANK_NAME'))]. *)
Definition bank_known (c : bank_cell) : option string :=
  match c with Bank s => Some s | _ => None end.

(** [str(row.get('BANK_NAME', 'Unknown Bank'))]. *)
Definition bank_text (c : bank_cell) : string :=
  match c with
  | NoColumn => "Unknown Bank"
  | NoValue => "nan"
  | Bank s => s
  end.

(** [float(row.get('PENSION_AMOUNT', 0)) if pd.notna(...) else 0]. *)
Definition amount_of (c : amount_cell) : option number :=
  match c with
  | AmountBlank => Some Zero
  | Amount x => Some (Float x)
  | AmountGarbage => None
  end.

(** The update of [state_summary[pensioner_state]]. *)
Definition note (district pincode : string) (b : bank_cell) (e : summary)
    : summary :=
  {| total_pensioners := total_pensioners e + 1;
     districts := PyMore.set_add district (districts e);
     pincodes := PyMore.set_add pincode (pincodes e);
     banks := match bank_known b with
              | Some s => PyMore.set_add s (banks e)
              | None => banks e
              end |}.

Definition store : Type := (list pensioner * Dict.t summary)%type.

(** What the loop does with a row once both pincode cells are read.
    The summary is updated before the record is built, so a row whose
    amount cannot be converted is counted in the summary and missing
    from the list. *)
Definition file_row (today : string) (file_index index : nat)
    (acc : store) (pensioner_cell branch_cell : option string)
    (bank_name : bank_cell) (pension_amount : amount_cell) : store :=
  let pensioner_pincode := App.clean_pincode pensioner_cell in
  let branch_pincode := App.clean_pincode branch_cell in
  if negb (Py.truthy pensioner_pincode) || String.eqb pensioner_pincode "nan"
  then acc
  else
    let pensioner_state := AppClassifiers.get_state_from_pincode pensioner_pincode in
    let branch_state := AppClassifiers.get_state_from_pincode branch_pincode in
    let pensioner_district := AppClassifiers.get_district_from_pincode pensioner_pincode in
    let branch_district := AppClassifiers.get_district_from_pincode branch_pincode in
    if String.eqb pensioner_state "Unknown" ||
       String.eqb pensioner_state "Other States"
    then acc
    else
      let state_summary :=
        Dict.update new_summary pensioner_state
          (note pensioner_district pensioner_pincode bank_name) (snd acc) in
      match amount_of pension_amount with
      | None => (fst acc, state_summary)
      | Some a =>
          ((fst acc ++
            [ {| id := PyMore.str_of_nat file_index ++ "_" ++ PyMore.str_of_nat index;
                 name := "Pensioner " ++
                         PyMore.str_of_nat (List.length (fst acc) + 1);
                 pensioner_pincode := pensioner_pincode;
                 branch_pincode := branch_pincode;
                 pensioner_state := pensioner_state;
                 branch_state := branch_state;
                 pensioner_district := pensioner_district;
                 branch_district := branch_district;
                 bank := bank_text bank_name;
                 amount := a;
                 verification_date := today |} ])%list,
           state_summary)
      end.

(** Body of the row loop: on a sheet without one of the two pincode
    columns [row[name]] raises [KeyError] and the row is dropped by the
    [except] of the loop, before the summary is touched. *)
Definition process_row (today : string) (file_index index : nat)
    (acc : store) (r : row) : store :=
  match PENSIONER_PINCODE r, BRANCH_PINCODE r with
  | Excel.Present pensioner_cell, Excel.Present branch_cell =>
      file_row today file_index index acc pensioner_cell branch_cell
               (BANK_NAME r) (PENSION_AMOUNT r)
  | _, _ => acc
  end.

(** The rows of a frame with their index, starting at [index]. *)
Fixpoint process_rows (today : string) (file_index index : nat)
    (rows : list row) (acc : store) : store :=
  match rows with
  | [] => acc
  | r :: rest =>
      process_rows today file_index (S index) rest
                   (process_row today file_index index acc r)
  end.

(** The files with their index; only 2000 rows of each are read, and a
    file that cannot be read is skipped. *)
Fixpoint process_files (today : string) (file_index : nat)
    (files : list file) (acc : store) : store :=
  match files with
  | [] => acc
  | f :: rest =>
      process_files today (S file_index) rest
        (match f with
         | Some rows =>
             process_rows today file_index 0 (firstn (Z.to_nat 2000) rows) acc
         | None => acc
         end)
  end.

Record state_report : Type :=
  { report_total_pensioners : Z;
    total_districts : Z;
    total_pincodes : Z;
    total_banks : Z }.

(** [final_state_summary], without the three lists whose order Python
    does not fix. *)
Definition finish (e : summary) : state_report :=
  {| report_total_pensioners := total_pensioners e;
     total_districts := Z.of_nat (List.length (districts e));
     total_pincodes := Z.of_nat (List.length (pincodes e));
     total_banks := Z.of_nat (List.length (banks e)) |}.

Record body : Type :=
  { pensioners : list pensioner;
    total : Z;
    processed_files : Z;
    state_summary : Dict.t state_report }.

(** [excel_folder] is [None] when [os.listdir] raises: the call is
    inside the outer [try], and the endpoint answers 500. *)
Definition get_excel_pensioners (today : string)
    (excel_folder : option (list file)) : response body :=
  match excel_folder with
  | None => ServerError
  | Some excel_files =>
      let result := process_files today 0 excel_files ([], []) in
      Ok {| pensioners := fst result;
            total := Z.of_nat (List.length (fst result));
            processed_files := Z.of_nat (List.length excel_files);
            state_summary :=
              map (fun kv => (fst kv, finish (snd kv))) (snd result) |}
  end.

End AppPensioners.

(** *** [app.py]: the loop of [get_authentication_methods] *)

Module AppAuth.

(** One row of the grouped query: method, count, age group. *)
Definition result_row : Type := (string * Z * string)%type.

Definition tables : Type := (Dict.t Z * Dict.t (Dict.t Z))%type.

(** Body of the loop over [results]. *)
Definition add_row (acc : tables) (row : result_row) : tables :=
  let auth_method := fst (fst row) in
  let count := snd (fst row) in
  let age_grp := snd row in
  let auth_data := fst acc in
  let age_breakdown := snd acc in
  let started :=
    match Dict.get auth_method auth_data with
    | Some _ => (auth_data, age_breakdown)
    | None => (Dict.set auth_method 0 auth_data,
               Dict.set auth_method [] age_breakdown)
    end in
  (Dict.set auth_method
     (Dict.get_default 0 auth_method (fst started) + count) (fst started),
   Dict.set auth_method
     (Dict.set age_grp count (Dict.get_default [] auth_method (snd started)))
     (snd started)).

Definition breakdown (results : list result_row) : tables :=
  fold_left add_row results ([], []).

End AppAuth.

(** ** Vocabulary of the further properties *)

(** A character [int] reads as a digit. *)
Definition is_digit (c : ascii) : bool :=
  match Py.digit_of c with Some _ => true | None => false end.

(** The labels a table can give. *)
Definition labels_of (tbl : range_table) : list string :=
  map (fun r => snd r) tbl.

(** No two arms of a table share a number. *)
Definition apart (r1 r2 : Z * Z * string) : bool :=
  (snd (fst r1) <? fst (fst r2)) || (snd (fst r2) <? fst (fst r1)).

Fixpoint pairwise_apart (tbl : range_table) : bool :=
  match tbl with
  | [] => true
  | r :: rest => forallb (apart r) rest && pairwise_apart rest
  end.

(** The state in which each named district of [dlc_api_endpoint.py]
    lies. *)
Definition district_state : list (string * string) :=
  [ ("Ahmedabad", "Gujarat"); ("Vadodara", "Gujarat"); ("Rajkot", "Gujarat");
    ("Jamnagar", "Gujarat"); ("Gandhinagar", "Gujarat");
    ("Jaipur", "Rajasthan"); ("Jodhpur", "Rajasthan");
    ("Udaipur", "Rajasthan"); ("Bikaner", "Rajasthan");
    ("Alwar", "Rajasthan"); ("Bharatpur", "Rajasthan");
    ("Mumbai", "Maharashtra"); ("Nagpur", "Maharashtra");
    ("Nashik", "Maharashtra"); ("Aurangabad", "Maharashtra");
    ("Bangalore", "Karnataka"); ("Mysore", "Karnataka");
    ("Hubli", "Karnataka"); ("Mangalore", "Karnataka");
    ("Patna", "Bihar"); ("Ranchi", "Bihar"); ("Dhanbad", "Bihar");
    ("Delhi", "Delhi") ].

(** Every label [get_state_from_pincode] of the analysis can return. *)
Definition analysis_state_labels : list string :=
  "Invalid Pincode" :: "Other State" :: labels_of DlcBankAnalysis.state_ranges.

(** The state of a bucket is the state of its key, and the key passed
    the length test. *)
Definition keyed_by_branch (pin : string) (b : DlcBankAnalysis.bucket) : Prop :=
  DlcBankAnalysis.state b = DlcBankAnalysis.get_state_from_pincode pin /\
  DlcBankAnalysis.skip_branch pin = false.

(** The keys of the two histograms of a bucket are known labels. *)
Definition known_labels (b : DlcBankAnalysis.bucket) : Prop :=
  Forall (fun gc => In (fst gc) age_buckets) (DlcBankAnalysis.age_groups b) /\
  Forall (fun sc => In (fst sc) analysis_state_labels)
         (DlcBankAnalysis.pensioner_states b).

(** The rows of the readable files, in order. *)
Definition readable_rows (files : list Excel.file) : list Excel.row :=
  flat_map (fun f => match f with Some rows => rows | None => [] end) files.

(** The test a row passes to be counted by the bank-pincode view. *)
Definition accepted (r : Excel.row) : bool :=
  match DlcBankAnalysis.birth_year_of (Excel.YOB r) with
  | Some _ =>
      negb (DlcBankAnalysis.skip_branch
              (DlcBankAnalysis.pincode_text (Excel.BRANCH_PINCODE r)))
  | None => false
  end.

(** The accepted rows of branch pincode [p]. *)
Definition rows_of_branch (p : string) (rows : list Excel.row) : list Excel.row :=
  filter (fun r => accepted r &&
                   String.eqb (DlcBankAnalysis.pincode_text (Excel.BRANCH_PINCODE r)) p)
         rows.

(** The age group the analysis gives a row, for rows whose year of
    birth converts. *)
Definition age_group_of_row (cy : Z) (r : Excel.row) : string :=
  match DlcBankAnalysis.birth_year_of (Excel.YOB r) with
  | Some y => DlcBankAnalysis.get_age_group cy (Py.Int y)
  | None => "Unknown"
  end.

Definition residence_of_row (r : Excel.row) : string :=
  DlcBankAnalysis.get_state_from_pincode
    (DlcBankAnalysis.pincode_text (Excel.PENSIONER_PINCODE r)).

Definition count_where {A : Type} (f : A -> bool) (l : list A) : Z :=
  Z.of_nat (List.length (filter f l)).

(** Sum of the entries of a counter filed under key [g]. *)
Definition count_in (g : string) (d : Dict.t Z) : Z :=
  fold_right Z.add 0
    (map (fun gc => snd gc) (filter (fun gc => String.eqb (fst gc) g) d)).

(** The buckets stored under state [S]. *)
Definition buckets_of_state (S : string)
    (data : Dict.t DlcBankAnalysis.bucket) : Dict.t DlcBankAnalysis.bucket :=
  filter (fun kv => String.eqb (DlcBankAnalysis.state (snd kv)) S) data.

(** Pensioners of residence state [s] recorded in a document. *)
Definition residents_of (s : string)
    (data : Dict.t DlcBankAnalysis.bucket) : Z :=
  fold_right Z.add 0
    (map (fun kv => count_in s (residence_states (snd kv))) data).

Definition resident_total (s : string) (swd : Dict.t App.state_entry) : Z :=
  App.total_pensioners (Dict.get_default App.new_entry s swd).

(** No redistributed count of an entry is negative, together they do
    not exceed its pensioners, and its bank locations add up to them. *)
Definition entry_sound (e : App.state_entry) : Prop :=
  Forall (fun gc => 0 <= snd gc) (App.age_groups e) /\
  Dict.total (App.age_groups e) <= App.total_pensioners e /\
  Dict.total (App.bank_locations e) = App.total_pensioners e.

(** Sum of a quantity over the buckets stored under state [S]. *)
Definition sum_in_state (w : string * DlcBankAnalysis.bucket -> Z) (S : string)
    (data : Dict.t DlcBankAnalysis.bucket) : Z :=
  fold_right Z.add 0 (map w (buckets_of_state S data)).

(** A quantity of the entry of state [S] in the finished bank-location
    view; zero when the state has no entry. *)
Definition state_final_reads (q : DlcApiEndpoint.StateFinal.t -> Z) (S : string)
    (data : Dict.t DlcBankAnalysis.bucket) : Z :=
  match Dict.get S (DlcApiEndpoint.state_final data) with
  | Some e => q e
  | None => 0
  end.

(** Sum of the counts of a list of pincode entries. *)
Definition listed_count (l : list DlcApiEndpoint.StateWise.pincode_entry) : Z :=
  fold_right Z.add 0 (map DlcApiEndpoint.StateWise.dlc_count l).

(** Every label [get_district_from_pincode] of the endpoint can return. *)
Definition endpoint_district_labels : list string :=
  "Unknown District" :: "Other District"
    :: labels_of DlcApiEndpoint.district_ranges.

(** The rows [get_excel_pensioners] reads: 2000 of each readable file. *)
Definition rows_read (files : list AppPensioners.file) : list AppPensioners.row :=
  flat_map (fun f => match f with
                     | Some rows => firstn (Z.to_nat 2000) rows
                     | None => []
                     end) files.

(** The two tests of [get_excel_pensioners] on the pensioner pincode
    cell. *)
Definition pincode_listed (pensioner_cell : option string) : bool :=
  let p := App.clean_pincode pensioner_cell in
  let st := AppClassifiers.get_state_from_pincode p in
  Py.truthy p && negb (String.eqb p "nan") &&
  negb (String.eqb st "Unknown") && negb (String.eqb st "Other States").

(** A row reaches the state summary: the sheet has both pincode
    columns and the pensioner pincode passes the two tests. *)
Definition listed (r : AppPensioners.row) : bool :=
  match AppPensioners.PENSIONER_PINCODE r, AppPensioners.BRANCH_PINCODE r with
  | Excel.Present pensioner_cell, Excel.Present _ => pincode_listed pensioner_cell
  | _, _ => false
  end.

(** Pensioners recorded for state [s] by the state summary of
    [get_excel_pensioners]. *)
Definition state_summary_total (s : string)
    (d : Dict.t AppPensioners.summary) : Z :=
  AppPensioners.total_pensioners (Dict.get_default AppPensioners.new_summary s d).

(** [output] is the top [n] of [input] by [key]: in descending order of
    the key, [n] items or all of them, each listed item at least as
    large as each item left out, and the items of any one key in the
    order of the input, without gaps. *)
Definition top_n_of {A : Type} (key : A -> Z) (n : nat)
    (input output : list A) : Prop :=
  Sorted (descending key) output /\
  List.length output = Nat.min n (List.length input) /\
  (exists rest, Permutation (output ++ rest) input /\
                forall x y, In x output -> In y rest -> key y <= key x) /\
  forall k, exists m,
    filter (fun x => key x =? k) output
    = firstn m (filter (fun x => key x =? k) input).

(** The item the endpoint appends to [bank_pincodes] of a state for one
    bucket: its count is the bucket's [total_dlc_completed]. *)
Definition state_pincode_entry (kv : string * DlcBankAnalysis.bucket)
    : DlcApiEndpoint.StateWise.pincode_entry :=
  {| DlcApiEndpoint.StateWise.pincode := fst kv;
     DlcApiEndpoint.StateWise.dlc_count :=
       DlcBankAnalysis.total_dlc_completed (snd kv);
     DlcApiEndpoint.StateWise.district :=
       DlcApiEndpoint.get_district_from_pincode (fst kv) |}.

Definition district_pincode_entry (kv : string * DlcBankAnalysis.bucket)
    : DlcApiEndpoint.DistrictWise.pincode_entry :=
  {| DlcApiEndpoint.DistrictWise.pincode := fst kv;
     DlcApiEndpoint.DistrictWise.dlc_count :=
       DlcBankAnalysis.total_dlc_completed (snd kv) |}.

(** The key of [district_wise_data] under which a bucket is filed. *)
Definition district_key_of (kv : string * DlcBankAnalysis.bucket) : string :=
  DlcApiEndpoint.get_district_from_pincode (fst kv) ++ "_" ++
  DlcBankAnalysis.state (snd kv).

(** The buckets filed under district key [K]. *)
Definition buckets_of_district (K : string)
    (data : Dict.t DlcBankAnalysis.bucket) : Dict.t DlcBankAnalysis.bucket :=
  filter (fun kv => String.eqb (district_key_of kv) K) data.

(** Counts 30, 50, 50 for keys first seen in the order C, A, B. *)
Definition unsorted_buckets : Dict.t DlcBankAnalysis.bucket :=
  [ ("C", bucket_of_count 30); ("A", bucket_of_count 50);
    ("B", bucket_of_count 50) ].


(** A row of a sheet with both pincode columns, without branch pincode,
    of a pensioner living in Delhi. *)
Definition no_branch_pensioner_row : AppPensioners.row :=
  {| AppPensioners.PENSIONER_PINCODE := Excel.Present (Some "110001");
     AppPensioners.BRANCH_PINCODE := Excel.Present None;
     AppPensioners.BANK_NAME := AppPensioners.NoColumn;
     AppPensioners.PENSION_AMOUNT := AppPensioners.AmountBlank |}.

Definition amount_converts (r : AppPensioners.row) : bool :=
  match AppPensioners.amount_of (AppPensioners.PENSION_AMOUNT r) with
  | Some _ => true
  | None => false
  end.

(** The test of [get_excel_age_group_summary] on a row: the sheet has
    the column [YOB] and the cell is blank or converts with [int]. *)
Definition year_of_row (r : Excel.indexed_row) : option Z :=
  match Excel.YOB_at r with
  | Excel.Present yob_cell => ExcelDataProcessor.birth_year_of yob_cell
  | Excel.Absent => None
  end.

Definition year_counted (r : Excel.indexed_row) : bool :=
  match year_of_row r with Some _ => true | None => false end.

Definition summary_age_group (cy : Z) (r : Excel.indexed_row) : string :=
  match year_of_row r with
  | Some y => App.get_age_group cy (Py.Int y)
  | None => "Unknown"
  end.

(** The test of the loader on a file name. *)
Definition is_analysis_file (f : string) : bool :=
  PyMore.startswith f "dlc_bank_analysis_" && Py.endswith f ".json".

(** Order of names in [sorted]: by code point. *)
Definition name_le (a b : string) : Prop := String.leb a b = true.

(** The counts of the rows of the grouped query for method [m]. *)
Definition counts_of_method (m : string) (results : list AppAuth.result_row) : Z :=
  fold_right Z.add 0
    (map (fun r => snd (fst r))
         (filter (fun r => String.eqb (fst (fst r)) m) results)).

(** The pairs the query groups by. *)
Definition group_keys (results : list AppAuth.result_row)
    : list (string * string) :=
  map (fun r => (fst (fst r), snd r)) results.

(** The two tables of [get_authentication_methods] have the same keys,
    so that [age_breakdown[auth_method]] is never a missing key. *)
Definition tables_aligned (acc : AppAuth.tables) : Prop :=
  Dict.keys (fst acc) = Dict.keys (snd acc).

(** What every record of the list of [get_excel_pensioners] satisfies:
    the pincode passed the first test, the state passed the second,
    and states and districts are those of the cleaned pincodes. *)
Definition record_sound (today : string) (p : AppPensioners.pensioner) : Prop :=
  AppPensioners.pensioner_pincode p <> "" /\
  AppPensioners.pensioner_pincode p <> "nan" /\
  AppPensioners.pensioner_state p
  = AppClassifiers.get_state_from_pincode (AppPensioners.pensioner_pincode p) /\
  AppPensioners.pensioner_state p <> "Unknown" /\
  AppPensioners.pensioner_state p <> "Other States" /\
  AppPensioners.pensioner_district p
  = AppClassifiers.get_district_from_pincode (AppPensioners.pensioner_pincode p) /\
  AppPensioners.branch_state p
  = AppClassifiers.get_state_from_pincode (AppPensioners.branch_pincode p) /\
  AppPensioners.branch_district p
  = AppClassifiers.get_district_from_pincode (AppPensioners.branch_pincode p) /\
  AppPensioners.verification_date p = today.

(** The records are numbered from 1 in the order of the list. *)
Definition numbered (l : list AppPensioners.pensioner) : Prop :=
  forall i p, nth_error l i = Some p ->
              AppPensioners.name p = "Pensioner " ++ PyMore.str_of_nat (i + 1).

(** The sizes of the three sets of a state never exceed its count. *)
Definition summary_bounded (e : AppPensioners.summary) : Prop :=
  1 <= AppPensioners.total_pensioners e /\
  (1 <= List.length (AppPensioners.districts e))%nat /\
  Z.of_nat (List.length (AppPensioners.districts e))
  <= AppPensioners.total_pensioners e /\
  (1 <= List.length (AppPensioners.pincodes e))%nat /\
  Z.of_nat (List.length (AppPensioners.pincodes e))
  <= AppPensioners.total_pensioners e /\
  Z.of_nat (List.length (AppPensioners.banks e))
  <= AppPensioners.total_pensioners e.

Definition report_bounded (e : AppPensioners.state_report) : Prop :=
  1 <= AppPensioners.total_districts e
    <= AppPensioners.report_total_pensioners e /\
  1 <= AppPensioners.total_pincodes e
    <= AppPensioners.report_total_pensioners e /\
  0 <= AppPensioners.total_banks e
    <= AppPensioners.report_total_pensioners e.

(** ** Proof tools *)

(** Case analysis on the comparison of two keys, with the outcome as an
    equation or a disequation. *)
Ltac key_cases k1 k2 :=
  let E := fresh "E" in
  destruct (String.eqb k1 k2) eqn:E;
  [apply String.eqb_eq in E | apply String.eqb_neq in E].

(** Boolean tests on integers read as propositions. *)
Ltac tests_to_props :=
  rewrite ?andb_true_iff, ?andb_false_iff, ?orb_false_iff,
          ?negb_false_iff, ?Z.ltb_lt, ?Z.ltb_ge, ?Z.leb_le, ?Z.leb_gt in *.

(** A bucket given by its fields is well formed. *)
Ltac check_bucket :=
  unfold well_formed, balanced; simpl;
  repeat split; try lia; repeat constructor; simpl; lia.

(** Walk down an [if]/[elif] chain, one arm at a time. *)
Ltac walk_chain :=
  repeat match goal with
         | |- context [if ?c then _ else _] =>
             let E := fresh "E" in destruct c eqn:E
         end.

(** Membership in a list given by its elements. *)
Ltac pick_entry := simpl; repeat (first [left; reflexivity | right]).

Create Rewrite HintDb counters.

(* ================================================================== *)
(** * Part II. Properties                                              *)
(* ================================================================== *)

Section AgeClassifier.

Import DlcBankAnalysis.

Lemma get_age_group_in_bucket (r y : Z) :
  in_bucket (get_age_group r (Py.Int y)) (r - y).
Proof.
  unfold get_age_group, in_bucket; cbn [Py.int_of_value]; cbv zeta.
  repeat match goal with
         | |- context [if ?c then _ else _] => destruct c eqn:?
         end;
    tests_to_props; intuition lia.
Qed.

Lemma in_bucket_functional (l1 l2 : string) (a : Z) :
  in_bucket l1 a -> in_bucket l2 a -> l1 = l2.
Proof.
  unfold in_bucket; intros H1 H2.
  repeat match goal with
         | H : _ \/ _ |- _ => destruct H
         | H : _ /\ _ |- _ => destruct H
         end; subst; try reflexivity; lia.
Qed.

End AgeClassifier.

(** ** Dictionaries *)

Section DictFacts.

Context {V : Type}.
Implicit Types (d : Dict.t V) (k : string) (v : V).

Lemma get_set_same d k v : Dict.get k (Dict.set k v d) = Some v.
Proof.
  induction d as [|[k' v'] d IH]; simpl.
  - now rewrite String.eqb_refl.
  - destruct (String.eqb k' k) eqn:E; simpl; rewrite E; auto.
Qed.

Lemma get_set_other d k k' v :
  k <> k' -> Dict.get k' (Dict.set k v d) = Dict.get k' d.
Proof.
  intros Hne; induction d as [|[k0 v0] d IH]; simpl.
  - apply String.eqb_neq in Hne. now rewrite Hne.
  - destruct (String.eqb k0 k) eqn:E; simpl.
    + apply String.eqb_eq in E; subst k0.
      apply String.eqb_neq in Hne. now rewrite Hne.
    + now rewrite IH.
Qed.

Lemma get_update_same (dflt : V) d k (f : V -> V) :
  Dict.get k (Dict.update dflt k f d) = Some (f (Dict.get_default dflt k d)).
Proof. apply get_set_same. Qed.

Lemma get_update_other (dflt : V) d k k' (f : V -> V) :
  k <> k' -> Dict.get k' (Dict.update dflt k f d) = Dict.get k' d.
Proof. apply get_set_other. Qed.

Lemma get_default_update_same (dflt : V) d k (f : V -> V) :
  Dict.get_default dflt k (Dict.update dflt k f d)
  = f (Dict.get_default dflt k d).
Proof. unfold Dict.get_default at 1. now rewrite get_update_same. Qed.

Lemma get_default_update_other (dflt : V) d k k' (f : V -> V) :
  k <> k' ->
  Dict.get_default dflt k' (Dict.update dflt k f d)
  = Dict.get_default dflt k' d.
Proof.
  intros Hne. unfold Dict.get_default. now rewrite get_update_other.
Qed.

Lemma get_In d k v : Dict.get k d = Some v -> In (k, v) d.
Proof.
  induction d as [|[k' v'] d IH]; simpl; [discriminate|].
  destruct (String.eqb k' k) eqn:E.
  - apply String.eqb_eq in E. intros [= ->]. left; congruence.
  - auto.
Qed.

Lemma get_None_not_key d k : Dict.get k d = None <-> ~ In k (Dict.keys d).
Proof.
  induction d as [|[k' v'] d IH]; simpl.
  - tauto.
  - destruct (String.eqb k' k) eqn:E.
    + apply String.eqb_eq in E. split; [discriminate | tauto].
    + apply String.eqb_neq in E. tauto.
Qed.

(** Writing a key leaves the earlier keys in place and appends a new
    one at the end. *)
Lemma keys_set d k v :
  Dict.keys (Dict.set k v d)
  = match Dict.get k d with
    | Some _ => Dict.keys d
    | None => (Dict.keys d ++ [k])%list
    end.
Proof.
  induction d as [|[k' v'] d IH]; simpl; [reflexivity|].
  destruct (String.eqb k' k) eqn:E; simpl; [reflexivity|].
  rewrite IH. now destruct (Dict.get k d).
Qed.

Lemma In_set d k v kv :
  In kv (Dict.set k v d) -> kv = (k, v) \/ In kv d.
Proof.
  induction d as [|[k' v'] d IH]; simpl.
  - intros [<-|[]]; auto.
  - destruct (String.eqb k' k) eqn:E; simpl.
    + apply String.eqb_eq in E; subst k'. intros [<-|H]; auto.
    + intros [<-|H]; auto. destruct (IH H); auto.
Qed.

(** A property of all values survives an update that maintains it. *)
Lemma Forall_update (P : V -> Prop) (dflt : V) d k (f : V -> V) :
  Forall (fun kv => P (snd kv)) d ->
  (forall v, Dict.get k d = Some v -> P v -> P (f v)) ->
  (Dict.get k d = None -> P (f dflt)) ->
  Forall (fun kv => P (snd kv)) (Dict.update dflt k f d).
Proof.
  intros Hall Hf Hd. rewrite Forall_forall in *.
  intros kv Hin. unfold Dict.update in Hin.
  apply In_set in Hin as [->|Hin]; [|auto].
  simpl. unfold Dict.get_default.
  destruct (Dict.get k d) as [v|] eqn:E; [|auto].
  apply Hf; [reflexivity|]. apply (Hall (k, v)). now apply get_In.
Qed.

Lemma get_map_values {W : Type} (g : V -> W) d k :
  Dict.get k (map (fun kv => (fst kv, g (snd kv))) d)
  = option_map g (Dict.get k d).
Proof.
  induction d as [|[k' v'] d IH]; simpl; [reflexivity|].
  now destruct (String.eqb k' k).
Qed.

End DictFacts.

Section Counters.

Implicit Types (d : Dict.t Z) (k : string).

Lemma total_set d k n :
  Dict.total (Dict.set k n d) = Dict.total d - Dict.get_default 0 k d + n.
Proof.
  unfold Dict.total, Dict.values, Dict.get_default.
  induction d as [|[k' v'] d IH]; simpl; [lia|].
  destruct (String.eqb k' k) eqn:E; simpl; lia.
Qed.

(** [d[k] += n] adds exactly [n] to the sum of the counter. *)
Lemma total_incr d k n : Dict.total (Dict.incr k n d) = Dict.total d + n.
Proof. unfold Dict.incr, Dict.update. rewrite total_set. lia. Qed.

Lemma get_default_incr_same d k n :
  Dict.get_default 0 k (Dict.incr k n d) = Dict.get_default 0 k d + n.
Proof. apply (get_default_update_same 0). Qed.

Lemma get_default_incr_other d k k' n :
  k <> k' ->
  Dict.get_default 0 k' (Dict.incr k n d) = Dict.get_default 0 k' d.
Proof. apply (get_default_update_other 0). Qed.

Lemma positive_incr d k n :
  0 < n ->
  Forall (fun kv => 0 < snd kv) d ->
  Forall (fun kv => 0 < snd kv) (Dict.incr k n d).
Proof.
  intros Hn Hd. apply (Forall_update (fun v => 0 < v)); auto; intros; lia.
Qed.

End Counters.

#[global] Hint Rewrite total_incr get_default_incr_same : counters.
#[global] Hint Rewrite get_default_incr_other using assumption : counters.

(** ** The per-bank-pincode analysis keeps its three counts together *)

Section AnalysisInvariant.

Import DlcBankAnalysis.

Lemma new_bucket_balanced : balanced new_bucket.
Proof. unfold balanced; simpl; repeat split; auto; lia. Qed.

Lemma count_record_well_formed (ag bs ps : string) (b : bucket) :
  balanced b -> well_formed (count_record ag bs ps b).
Proof.
  intros (H0 & Ha & Hp & Fa & Fp).
  unfold well_formed, balanced, count_record; simpl.
  rewrite !total_incr.
  repeat split; try lia; apply positive_incr; auto; lia.
Qed.

Lemma process_row_well_formed (cy : Z) (acc : run) (r : Excel.row) :
  all_well_formed (fst acc) -> all_well_formed (fst (process_row cy acc r)).
Proof.
  intros H. unfold process_row.
  destruct (birth_year_of (Excel.YOB r)); [|exact H].
  destruct (skip_branch _); [exact H|]. simpl.
  apply (Forall_update well_formed); auto.
  - intros v _ [_ Hv]. now apply count_record_well_formed.
  - intros _. apply count_record_well_formed, new_bucket_balanced.
Qed.

Lemma fold_rows_well_formed (cy : Z) (rows : list Excel.row) (acc : run) :
  all_well_formed (fst acc) ->
  all_well_formed (fst (fold_left (process_row cy) rows acc)).
Proof.
  revert acc; induction rows as [|r rows IH]; intros acc H; simpl; auto.
  apply IH, process_row_well_formed, H.
Qed.

Lemma accumulate_well_formed (cy : Z) (files : list Excel.file) :
  all_well_formed (fst (accumulate cy files)).
Proof.
  unfold accumulate.
  assert (G : forall acc, all_well_formed (fst acc) ->
            all_well_formed (fst (fold_left (process_file cy) files acc))).
  { induction files as [|f files IH]; intros acc H; simpl; auto.
    apply IH. destruct f as [rows|]; simpl; auto.
    now apply fold_rows_well_formed. }
  apply G. constructor.
Qed.

Lemma analyze_well_formed (cy : Z) (files : list Excel.file) :
  all_well_formed (analyze_dlc_by_bank_pincode cy files).
Proof.
  unfold analyze_dlc_by_bank_pincode, final_data, all_well_formed.
  apply Forall_forall. intros kv Hin. apply filter_In in Hin as [Hin _].
  pose proof (accumulate_well_formed cy files) as H.
  unfold all_well_formed in H. rewrite Forall_forall in H. now apply H.
Qed.

(** Every bucket that was ever touched has a completion, so the
    filter of [final_data] drops nothing. *)
Lemma final_data_keeps_all (cy : Z) (files : list Excel.file) :
  analyze_dlc_by_bank_pincode cy files = fst (accumulate cy files).
Proof.
  unfold analyze_dlc_by_bank_pincode, final_data.
  pose proof (accumulate_well_formed cy files) as H.
  induction H as [|kv d [H1 _] _ IH]; simpl; [reflexivity|].
  replace (0 <? total_dlc_completed (snd kv)) with true
    by (symmetry; apply Z.ltb_lt; lia).
  now rewrite IH.
Qed.

End AnalysisInvariant.

(** ** The rollup by the state of the bank *)

Section BankLocationRollup.

Import DlcBankAnalysis.

Lemma rollup_step_total (S : string) acc (kv : string * bucket) :
  state_wise_total S (fst (DlcApiEndpoint.rollup_step acc kv))
  = state_wise_total S (fst acc)
    + (if String.eqb (state (snd kv)) S then count_of kv else 0).
Proof.
  unfold DlcApiEndpoint.rollup_step, state_wise_total; simpl.
  key_cases (state (snd kv)) S.
  - subst S. rewrite get_default_update_same. reflexivity.
  - rewrite get_default_update_other by assumption. lia.
Qed.

Lemma rollup_fold_total (S : string) (data : Dict.t bucket) acc :
  state_wise_total S (fst (fold_left DlcApiEndpoint.rollup_step data acc))
  = state_wise_total S (fst acc) + completions_in_state S data.
Proof.
  revert acc; induction data as [|kv data IH]; intros acc; simpl.
  - unfold completions_in_state; simpl; lia.
  - rewrite IH, rollup_step_total. unfold completions_in_state; simpl.
    destruct (String.eqb (state (snd kv)) S); simpl; lia.
Qed.

Lemma rollup_step_keys (S : string) acc (kv : string * bucket) :
  In S (Dict.keys (fst (DlcApiEndpoint.rollup_step acc kv))) <->
  In S (Dict.keys (fst acc)) \/ state (snd kv) = S.
Proof.
  unfold DlcApiEndpoint.rollup_step, Dict.update; simpl.
  rewrite keys_set.
  destruct (Dict.get (state (snd kv)) (fst acc)) eqn:E.
  - split; [auto|]. intros [H|<-]; [exact H|].
    apply get_In in E. apply (in_map fst) in E. exact E.
  - rewrite in_app_iff; simpl. tauto.
Qed.

Lemma rollup_fold_keys (S : string) (data : Dict.t bucket) acc :
  In S (Dict.keys (fst (fold_left DlcApiEndpoint.rollup_step data acc))) <->
  In S (Dict.keys (fst acc)) \/ exists kv, In kv data /\ state (snd kv) = S.
Proof.
  revert acc; induction data as [|kv data IH]; intros acc; simpl.
  - split; [auto|]. intros [H|(kv & [] & _)]; exact H.
  - rewrite IH, rollup_step_keys. split.
    + intros [[H|H]|(kv' & H1 & H2)]; eauto.
    + intros [H|(kv' & [->|H1] & H2)]; eauto.
Qed.

(** The finished state view: totals and keys. *)
Lemma state_final_total (data : Dict.t bucket) (S : string) :
  match Dict.get S (DlcApiEndpoint.state_final data) with
  | Some e => DlcApiEndpoint.StateFinal.total_pensioners e
  | None => 0
  end = completions_in_state S data.
Proof.
  pose proof (rollup_fold_total S data ([], [])) as Ht.
  fold (DlcApiEndpoint.rollup data) in Ht.
  unfold DlcApiEndpoint.state_final. rewrite get_map_values.
  unfold state_wise_total, Dict.get_default in Ht. simpl in Ht.
  destruct (Dict.get S (fst (DlcApiEndpoint.rollup data))); simpl; exact Ht.
Qed.

Lemma state_final_keys (data : Dict.t bucket) (S : string) :
  In S (Dict.keys (DlcApiEndpoint.state_final data)) <->
  exists kv, In kv data /\ state (snd kv) = S.
Proof.
  pose proof (rollup_fold_keys S data ([], [])) as Hk.
  fold (DlcApiEndpoint.rollup data) in Hk.
  unfold DlcApiEndpoint.state_final, Dict.keys in *.
  rewrite map_map. simpl. rewrite Hk. simpl. tauto.
Qed.

Lemma state_totals_fold (S : string) (data : Dict.t bucket) (acc : Dict.t Z) :
  Dict.get_default 0 S
    (fold_left (fun a kv => Dict.incr (state (snd kv)) (count_of kv) a)
               data acc)
  = Dict.get_default 0 S acc + completions_in_state S data.
Proof.
  revert acc; induction data as [|kv data IH]; intros acc; simpl.
  - unfold completions_in_state; simpl; lia.
  - rewrite IH. unfold completions_in_state; simpl.
    key_cases (state (snd kv)) S; simpl.
    + subst S. autorewrite with counters. lia.
    + autorewrite with counters. lia.
Qed.

(** The list of bank pincodes of a state holds one item per bucket
    stored under it, in the order of the document. *)
Lemma rollup_fold_pincodes (S : string) (data : Dict.t bucket) acc :
  DlcApiEndpoint.StateWise.bank_pincodes
    (Dict.get_default DlcApiEndpoint.StateWise.empty S
       (fst (fold_left DlcApiEndpoint.rollup_step data acc)))
  = (DlcApiEndpoint.StateWise.bank_pincodes
       (Dict.get_default DlcApiEndpoint.StateWise.empty S (fst acc))
     ++ map state_pincode_entry (buckets_of_state S data))%list.
Proof.
  unfold buckets_of_state. revert acc.
  induction data as [|[pin b] data IH]; intros acc; cbn [fold_left filter snd].
  - now rewrite app_nil_r.
  - rewrite IH. unfold DlcApiEndpoint.rollup_step at 1. cbn [fst snd].
    key_cases (state b) S.
    + subst S. rewrite get_default_update_same.
      cbn [DlcApiEndpoint.add_to_state DlcApiEndpoint.StateWise.bank_pincodes map].
      now rewrite <- app_assoc.
    + now rewrite get_default_update_other by assumption.
Qed.

Lemma rollup_fold_district_pincodes (K : string) (data : Dict.t bucket) acc :
  DlcApiEndpoint.DistrictWise.bank_pincodes
    (Dict.get_default DlcApiEndpoint.DistrictWise.empty K
       (snd (fold_left DlcApiEndpoint.rollup_step data acc)))
  = (DlcApiEndpoint.DistrictWise.bank_pincodes
       (Dict.get_default DlcApiEndpoint.DistrictWise.empty K (snd acc))
     ++ map district_pincode_entry (buckets_of_district K data))%list.
Proof.
  unfold buckets_of_district. revert acc.
  induction data as [|[pin b] data IH]; intros acc; cbn [fold_left filter].
  - now rewrite app_nil_r.
  - rewrite IH. unfold DlcApiEndpoint.rollup_step at 1. cbn [fst snd].
    unfold district_key_of at 2. cbn [fst snd].
    key_cases (DlcApiEndpoint.get_district_from_pincode pin ++ "_" ++ state b) K.
    + subst K. rewrite get_default_update_same.
      cbn [DlcApiEndpoint.add_to_district
           DlcApiEndpoint.DistrictWise.bank_pincodes map].
      now rewrite <- app_assoc.
    + now rewrite get_default_update_other by assumption.
Qed.

End BankLocationRollup.

(** ** True division followed by [int]

    Below [2^53] the double nearest to a quotient of non-negative
    integers never reaches the next integer, so truncating it gives the
    integer quotient. *)

Section TrueDivide.

Lemma round_half_even_cases (n d : Z) :
  Py.round_half_even n d = n / d \/
  (Py.round_half_even n d = n / d + 1 /\ d <= 2 * (n mod d)).
Proof.
  unfold Py.round_half_even.
  destruct (2 * (n mod d) <? d) eqn:E1; [now left|].
  apply Z.ltb_ge in E1.
  destruct (d <? 2 * (n mod d)); [now right|].
  destruct (Z.even (n / d)); [now left | now right].
Qed.

Lemma pow2_pos (k : Z) : 0 <= k -> 0 < 2 ^ k.
Proof. intros; apply Z.pow_pos_nonneg; lia. Qed.

Lemma log2_bounds (a : Z) :
  0 < a -> 0 <= Z.log2 a /\ 2 ^ Z.log2 a <= a < 2 * 2 ^ Z.log2 a.
Proof.
  intros Ha. pose proof (Z.log2_spec a Ha) as H.
  pose proof (Z.log2_nonneg a).
  rewrite Z.pow_succ_r in H by assumption. lia.
Qed.

(** The unclamped exponent [e] puts [a / (b * 2^e)] in
    [[2^52, 2^53)]; the three inequalities below say so without
    negative powers. *)
Import Py.

Lemma free_exponent_low_neg (a b : Z) :
  0 < a -> 0 < b -> free_exponent a b < 0 ->
  2 ^ 52 * b <= a * 2 ^ (- free_exponent a b).
Proof.
  intros Ha Hb. unfold free_exponent; cbv zeta.
  destruct (log2_bounds a Ha) as (La & La1 & La2).
  destruct (log2_bounds b Hb) as (Lb & Lb1 & Lb2).
  set (la := Z.log2 a) in *. set (lb := Z.log2 b) in *.
  pose proof (pow2_pos la La) as Pa. pose proof (pow2_pos lb Lb) as Pb.
  destruct (a * 2 ^ lb <? b * 2 ^ la) eqn:E; intros He.
  - replace (- (la - lb - 53)) with ((lb + 53 - la)) by lia.
    assert (H : 2 ^ la * 2 ^ (lb + 53 - la) = 2 ^ 53 * 2 ^ lb).
    { rewrite <- !Z.pow_add_r by lia. f_equal; lia. }
    pose proof (pow2_pos (lb + 53 - la) ltac:(lia)) as Pk.
    assert (2 ^ la * 2 ^ (lb + 53 - la) <= a * 2 ^ (lb + 53 - la))
      by (apply Z.mul_le_mono_nonneg_r; lia).
    lia.
  - apply Z.ltb_ge in E.
    replace (- (la - lb - 52)) with (lb + 52 - la) by lia.
    assert (H : 2 ^ (lb + 52 - la) * 2 ^ la = 2 ^ 52 * 2 ^ lb).
    { rewrite <- !Z.pow_add_r by lia. f_equal; lia. }
    apply (Z.mul_le_mono_pos_r _ _ (2 ^ la)); [exact Pa|].
    replace (a * 2 ^ (lb + 52 - la) * 2 ^ la)
      with (2 ^ 52 * (a * 2 ^ lb)) by (rewrite <- Z.mul_assoc, H; ring).
    lia.
Qed.

Lemma free_exponent_low_nonneg (a b : Z) :
  0 < a -> 0 < b -> 0 <= free_exponent a b ->
  2 ^ 52 * (b * 2 ^ free_exponent a b) <= a.
Proof.
  intros Ha Hb. unfold free_exponent; cbv zeta.
  destruct (log2_bounds a Ha) as (La & La1 & La2).
  destruct (log2_bounds b Hb) as (Lb & Lb1 & Lb2).
  set (la := Z.log2 a) in *. set (lb := Z.log2 b) in *.
  pose proof (pow2_pos la La) as Pa. pose proof (pow2_pos lb Lb) as Pb.
  destruct (a * 2 ^ lb <? b * 2 ^ la) eqn:E; intros He.
  - assert (H : 2 ^ 53 * 2 ^ lb * 2 ^ (la - lb - 53) = 2 ^ la).
    { rewrite <- !Z.pow_add_r by lia. f_equal; lia. }
    pose proof (pow2_pos (la - lb - 53) He) as Pk.
    assert (2 ^ 52 * b * 2 ^ (la - lb - 53)
            <= 2 ^ 53 * 2 ^ lb * 2 ^ (la - lb - 53))
      by (apply Z.mul_le_mono_nonneg_r; lia).
    lia.
  - apply Z.ltb_ge in E.
    assert (H : 2 ^ 52 * 2 ^ (la - lb - 52) * 2 ^ lb = 2 ^ la).
    { rewrite <- !Z.pow_add_r by lia. f_equal; lia. }
    apply (Z.mul_le_mono_pos_r _ _ (2 ^ lb)); [exact Pb|].
    replace (2 ^ 52 * (b * 2 ^ (la - lb - 52)) * 2 ^ lb)
      with (b * (2 ^ 52 * 2 ^ (la - lb - 52) * 2 ^ lb)) by ring.
    rewrite H. lia.
Qed.

Lemma free_exponent_high (a b : Z) :
  0 < a -> 0 < b -> free_exponent a b + 53 <= 0 ->
  a * 2 ^ (- (free_exponent a b + 53)) < b.
Proof.
  intros Ha Hb. unfold free_exponent; cbv zeta.
  destruct (log2_bounds a Ha) as (La & La1 & La2).
  destruct (log2_bounds b Hb) as (Lb & Lb1 & Lb2).
  set (la := Z.log2 a) in *. set (lb := Z.log2 b) in *.
  pose proof (pow2_pos la La) as Pa. pose proof (pow2_pos lb Lb) as Pb.
  destruct (a * 2 ^ lb <? b * 2 ^ la) eqn:E; intros He.
  - apply Z.ltb_lt in E.
    replace (- (la - lb - 53 + 53)) with (lb - la) by lia.
    assert (H : 2 ^ (lb - la) * 2 ^ la = 2 ^ lb).
    { rewrite <- !Z.pow_add_r by lia. f_equal; lia. }
    apply (Z.mul_lt_mono_pos_r (2 ^ la)); [exact Pa|].
    rewrite <- Z.mul_assoc, H. exact E.
  - replace (- (la - lb - 52 + 53)) with (lb - la - 1) by lia.
    assert (H : 2 * 2 ^ la * 2 ^ (lb - la - 1) = 2 ^ lb).
    { replace (2 * 2 ^ la) with (2 ^ (la + 1))
        by (rewrite Z.pow_add_r by lia; ring).
      rewrite <- !Z.pow_add_r by lia. f_equal; lia. }
    pose proof (pow2_pos (lb - la - 1) ltac:(lia)) as Pk.
    assert (a * 2 ^ (lb - la - 1) < 2 * 2 ^ la * 2 ^ (lb - la - 1))
      by (apply Z.mul_lt_mono_pos_r; lia).
    lia.
Qed.

Lemma nearest_subnormal_is_zero (a b : Z) :
  0 < a -> 0 < b -> free_exponent a b < -1074 ->
  a < b /\ 0 <= round_half_even (a * 2 ^ 1074) b < 2 ^ 1074.
Proof.
  intros Ha Hb He.
  pose proof (free_exponent_high a b Ha Hb ltac:(lia)) as H.
  set (k := - (free_exponent a b + 53)) in *.
  assert (Hk : 1022 <= k) by (unfold k; lia).
  assert (P1 : 2 ^ 1022 <= 2 ^ k) by (apply Z.pow_le_mono_r; lia).
  assert (B : a * 2 ^ 1022 < b).
  { apply Z.le_lt_trans with (a * 2 ^ k); [|exact H].
    apply Z.mul_le_mono_nonneg_l; lia. }
  assert (Hab : a < b).
  { assert (a * 1 <= a * 2 ^ 1022)
      by (apply Z.mul_le_mono_nonneg_l; [lia | now compute]).
    lia. }
  split; [exact Hab|].
  assert (Q : 0 <= a * 2 ^ 1074 / b < 2 ^ 52).
  { split.
    - apply Z.div_pos; [|lia]. apply Z.mul_nonneg_nonneg; [lia | now compute].
    - apply Z.div_lt_upper_bound; [lia|].
      replace (2 ^ 1074) with (2 ^ 1022 * 2 ^ 52) by reflexivity.
      rewrite Z.mul_assoc.
      replace (b * 2 ^ 52) with (b * 2 ^ 52) by reflexivity.
      apply Z.mul_lt_mono_pos_r; [now compute | exact B]. }
  assert (2 ^ 52 + 1 < 2 ^ 1074) by now compute.
  destruct (round_half_even_cases (a * 2 ^ 1074) b) as [->|[-> _]]; lia.
Qed.

(** Rounding the scaled quotient up can cross an integer only when
    the divisor is at least two units of the scale. *)
Lemma scaled_round_floor (a b s : Z) :
  0 <= a -> 0 < b -> 0 < s -> b < 2 * s ->
  round_half_even (a * s) b / s = a / b.
Proof.
  intros Ha Hb Hs Hsmall.
  assert (Q : a * s / b / s = a / b).
  { rewrite Z.div_div by lia.
    rewrite Z.div_mul_cancel_r by lia. reflexivity. }
  destruct (round_half_even_cases (a * s) b) as [->|[-> Hr]]; [exact Q|].
  set (q := a * s / b) in *. set (r := (a * s) mod b) in *.
  assert (Hq : a * s = b * q + r) by (apply Z.div_mod; lia).
  assert (Rr : 0 <= r < b) by (apply Z.mod_pos_bound; lia).
  assert (Ha' : a = b * (a / b) + a mod b) by (apply Z.div_mod; lia).
  assert (Ra : 0 <= a mod b < b) by (apply Z.mod_pos_bound; lia).
  assert (Hq' : q = s * (q / s) + q mod s) by (apply Z.div_mod; lia).
  assert (Rq : 0 <= q mod s < s) by (apply Z.mod_pos_bound; lia).
  rewrite Q in Hq'.
  set (n := a / b) in *. set (t := q mod s) in *. set (ra := a mod b) in *.
  assert (Ht : t < s - 1 \/ t = s - 1) by lia.
  destruct Ht as [Ht|Ht].
  - symmetry. apply (Z.div_unique _ _ _ (t + 1)); lia.
  - exfalso.
    (* a * s <= (b * n + b - 1) * s and a * s >= b * (s*n + s - 1) + r *)
    assert (E1 : a * s = (b * n + ra) * s) by (rewrite <- Ha'; reflexivity).
    assert (E2 : ra * s <= (b - 1) * s)
      by (apply Z.mul_le_mono_nonneg_r; lia).
    assert (E3 : r <= b - s) by nia.
    lia.
Qed.

Lemma round_half_even_nonneg (n d : Z) :
  0 <= n -> 0 < d -> 0 <= round_half_even n d.
Proof.
  intros Hn Hd. assert (0 <= n / d) by (apply Z.div_pos; lia).
  destruct (round_half_even_cases n d) as [->|[-> _]]; lia.
Qed.

Lemma round_half_even_one (n : Z) : round_half_even n 1 = n.
Proof.
  unfold round_half_even. rewrite Z.mod_1_r, Z.div_1_r. reflexivity.
Qed.

(** [int(a / b)] is the integer quotient as long as [a < 2^53]. *)
Lemma true_divide_exact (a b : Z) :
  0 <= a < 2 ^ 53 -> 0 < b ->
  exists x, true_divide a b = Some x /\ int_of_float x = a / b.
Proof.
  intros [Ha Ha53] Hb. unfold true_divide.
  replace (b =? 0) with false by (symmetry; apply Z.eqb_neq; lia).
  destruct (a =? 0) eqn:Ea.
  { apply Z.eqb_eq in Ea; subst a. eexists; split; [reflexivity|].
    unfold int_of_float; simpl. now rewrite Z.div_0_l by lia. }
  apply Z.eqb_neq in Ea. assert (Hpos : 0 < a) by lia.
  rewrite (Z.abs_eq a), (Z.abs_eq b) by lia.
  rewrite (Z.sgn_pos a), (Z.sgn_pos b) by lia.
  unfold ulp_exponent, nearest_significand.
  destruct (Z.max_spec (free_exponent a b) (-1074)) as [[Hlt ->]|[Hge ->]].
  - (* subnormal range *)
    destruct (nearest_subnormal_is_zero a b Hpos Hb Hlt) as (Hab & Hm).
    change (0 <=? -1074) with false. cbn [andb].
    change (- -1074) with 1074.
    eexists; split; [reflexivity|].
    unfold int_of_float; cbn [mant expo].
    change (0 <=? -1074) with false. change (- -1074) with 1074.
    rewrite Z.mul_1_l, Z.quot_small by exact Hm.
    now rewrite Z.div_small by lia.
  - set (e := free_exponent a b) in *.
    destruct (0 <=? e) eqn:Ee.
    + (* the quotient is an integer of 53 bits: the divisor is one *)
      apply Z.leb_le in Ee.
      pose proof (free_exponent_low_nonneg a b Hpos Hb Ee) as L.
      fold e in L. pose proof (pow2_pos e Ee) as Pe.
      assert (Hb1 : b * 2 ^ e = 1).
      { assert (2 ^ 52 * (b * 2 ^ e) < 2 ^ 52 * 2) by (change (2 ^ 52 * 2) with (2 ^ 53); lia).
        assert (0 < b * 2 ^ e) by (apply Z.mul_pos_pos; lia).
        lia. }
      assert (Hb' : b = 1 /\ 2 ^ e = 1) by nia.
      destruct Hb' as [-> He1]. rewrite Hb1, round_half_even_one, He1.
      replace (2 ^ 1024 <=? a * 1) with false.
      2:{ symmetry; apply Z.leb_gt.
          assert (2 ^ 53 < 2 ^ 1024) by now compute. lia. }
      cbn [andb]. eexists; split; [reflexivity|].
      unfold int_of_float; cbn [mant expo].
      replace (0 <=? e) with true by (symmetry; apply Z.leb_le; lia).
      rewrite He1, Z.div_1_r. lia.
    + apply Z.leb_gt in Ee. cbn [andb].
      eexists; split; [reflexivity|].
      unfold int_of_float; cbn [mant expo].
      replace (0 <=? e) with false by (symmetry; apply Z.leb_gt; lia).
      pose proof (free_exponent_low_neg a b Hpos Hb Ee) as L. fold e in L.
      pose proof (pow2_pos (- e) ltac:(lia)) as Ps.
      set (s := 2 ^ (- e)) in *.
      assert (Hs : b < 2 * s).
      { assert (a * s < 2 ^ 53 * s) by (apply Z.mul_lt_mono_pos_r; lia).
        change (2 ^ 53) with (2 ^ 52 * 2) in H. lia. }
      rewrite Z.mul_1_l.
      rewrite Z.quot_div_nonneg; [|apply round_half_even_nonneg; nia | lia].
      now apply scaled_round_floor.
Qed.

(** The division raises only on a zero divisor or a quotient beyond the
    largest double. *)
Lemma true_divide_defined (a b : Z) :
  0 <= a < 2 ^ 1023 -> 0 < b -> exists x, true_divide a b = Some x.
Proof.
  intros [Ha Hlt] Hb. unfold true_divide.
  replace (b =? 0) with false by (symmetry; apply Z.eqb_neq; lia).
  destruct (a =? 0) eqn:Ea; [eauto|].
  apply Z.eqb_neq in Ea. assert (Hpos : 0 < a) by lia.
  rewrite (Z.abs_eq a), (Z.abs_eq b) by lia.
  unfold ulp_exponent, nearest_significand.
  set (e := Z.max (free_exponent a b) (-1074)).
  destruct (0 <=? e) eqn:Ee; [|cbn [andb]; eauto].
  apply Z.leb_le in Ee.
  assert (Hfree : e = free_exponent a b) by (unfold e in *; lia).
  pose proof (free_exponent_low_nonneg a b Hpos Hb ltac:(lia)) as L.
  rewrite <- Hfree in L. pose proof (pow2_pos e Ee) as Pe.
  set (d := b * 2 ^ e) in *.
  assert (Hd : 0 < d) by (unfold d; apply Z.mul_pos_pos; lia).
  assert (Hde : 2 ^ e <= d) by (unfold d; nia).
  assert (Hq : a / d * d <= a) by (rewrite Z.mul_comm; apply Z.mul_div_le; lia).
  assert (Hq0 : 0 <= a / d) by (apply Z.div_pos; lia).
  assert (Hm : round_half_even a d <= a / d + 1)
    by (destruct (round_half_even_cases a d) as [->|[-> _]]; lia).
  assert (H52 : 1 <= 2 ^ 52) by now compute.
  assert (Hbound : round_half_even a d * 2 ^ e <= a + a).
  { assert (round_half_even a d * 2 ^ e <= (a / d + 1) * 2 ^ e)
      by (apply Z.mul_le_mono_nonneg_r; lia).
    assert (a / d * 2 ^ e <= a / d * d)
      by (apply Z.mul_le_mono_nonneg_l; lia).
    nia. }
  replace (2 ^ 1024 <=? round_half_even a d * 2 ^ e) with false.
  - cbn [andb]. eauto.
  - symmetry. apply Z.leb_gt.
    change (2 ^ 1024) with (2 ^ 1023 + 2 ^ 1023). lia.
Qed.

End TrueDivide.

(** ** The rollup by the state of residence *)

Section ResidenceRollup.

Import DlcBankAnalysis.

Lemma is_residence_false (s : string) :
  App.is_residence s = false <->
  s = "" \/ s = "Invalid Pincode" \/ s = "Other State".
Proof.
  unfold App.is_residence.
  rewrite !andb_false_iff, !negb_false_iff, !String.eqb_eq.
  destruct s; simpl; intuition congruence.
Qed.

Lemma proportional_count_exact (A P T : Z) :
  0 <= A -> 0 <= P -> A * P < 2 ^ 53 -> 0 < T ->
  App.proportional_count A P T = Some (A * P / T).
Proof.
  intros HA HP Hlt HT. unfold App.proportional_count.
  destruct (true_divide_exact (A * P) T) as (x & -> & Hx); [nia | lia |].
  simpl. now rewrite Hx.
Qed.

Lemma distribute_exact (ages : Dict.t Z) (P T : Z) (e : App.state_entry) :
  0 <= P -> 0 < T -> exact_range ages P ->
  exists e',
    fold_opt (App.distribute_step P T) ages e = Some e' /\
    App.total_pensioners e' = App.total_pensioners e /\
    App.bank_locations e' = App.bank_locations e /\
    Dict.total (App.age_groups e')
      = Dict.total (App.age_groups e) + shares ages P T /\
    forall g, Dict.get_default 0 g (App.age_groups e')
              = Dict.get_default 0 g (App.age_groups e) + share_of g ages P T.
Proof.
  intros HP HT Hr. revert e.
  induction Hr as [|[g0 A0] ages [HA Hlt] _ IH]; intros e.
  - exists e. unfold shares, share_of, shares; simpl.
    repeat split; intros; lia.
  - simpl in HA, Hlt. cbn [fold_opt].
    unfold App.distribute_step at 1; cbn [fst snd].
    rewrite (proportional_count_exact A0 P T) by assumption.
    cbn [bind].
    destruct (IH (App.add_age g0 (A0 * P / T) e))
      as (e' & -> & Ht & Hb & Hs & Hg).
    exists e'. split; [reflexivity|].
    cbn [App.add_age App.total_pensioners App.bank_locations
         App.age_groups] in *.
    rewrite total_incr in Hs.
    repeat split; try assumption.
    + rewrite Hs. unfold shares; simpl. lia.
    + intros g. rewrite Hg. unfold share_of, shares; cbn [filter fst].
      key_cases g0 g.
      * subst g0. rewrite get_default_incr_same. simpl. lia.
      * rewrite get_default_incr_other by assumption. lia.
Qed.

Lemma proportional_count_defined (A P T : Z) :
  0 <= A -> 0 <= P -> A * P < 2 ^ 1023 -> 0 < T ->
  App.proportional_count A P T = Some (given A P T).
Proof.
  intros HA HP Hlt HT. unfold given, App.proportional_count.
  destruct (true_divide_defined (A * P) T) as (x & ->); [nia | lia |].
  reflexivity.
Qed.

Lemma given_exact (A P T : Z) :
  0 <= A -> 0 <= P -> A * P < 2 ^ 53 -> 0 < T -> given A P T = A * P / T.
Proof.
  intros. unfold given. now rewrite proportional_count_exact.
Qed.

(** The loop over the age groups goes through whenever no quotient
    overflows, and adds to each group what the code computes for it. *)
Lemma distribute_defined (ages : Dict.t Z) (P T : Z) (e : App.state_entry) :
  0 <= P -> 0 < T -> no_overflow ages P ->
  exists e',
    fold_opt (App.distribute_step P T) ages e = Some e' /\
    forall g, Dict.get_default 0 g (App.age_groups e')
              = Dict.get_default 0 g (App.age_groups e) + given_to g ages P T.
Proof.
  intros HP HT Hr. revert e.
  induction Hr as [|[g0 A0] ages [HA Hlt] _ IH]; intros e.
  - exists e. split; [reflexivity|]. intros g. unfold given_to; simpl. lia.
  - simpl in HA, Hlt. cbn [fold_opt].
    unfold App.distribute_step at 1; cbn [fst snd].
    rewrite (proportional_count_defined A0 P T) by assumption.
    cbn [bind].
    destruct (IH (App.add_age g0 (given A0 P T) e)) as (e' & -> & Hg).
    exists e'. split; [reflexivity|].
    intros g. rewrite Hg. cbn [App.add_age App.age_groups].
    unfold given_to; cbn [filter fst].
    key_cases g0 g.
    + subst g0. rewrite get_default_incr_same. simpl. lia.
    + rewrite get_default_incr_other by assumption. lia.
Qed.

Lemma given_to_entry (g : string) (A : Z) (ages : Dict.t Z) (P T : Z) :
  NoDup (Dict.keys ages) -> In (g, A) ages ->
  given_to g ages P T = given A P T.
Proof.
  unfold given_to.
  induction ages as [|[g0 A0] ages IH]; intros Hnd Hin; [destruct Hin|].
  simpl in Hnd. inversion Hnd as [|? ? Hnotin Hnd']; subst.
  cbn [filter fst]. destruct Hin as [Heq|Hin].
  - injection Heq as -> ->. rewrite String.eqb_refl. simpl.
    assert (Hnone : filter (fun gc => String.eqb (fst gc) g) ages = []).
    { clear IH Hnd Hnd'. induction ages as [|[g1 A1] ages IH]; [reflexivity|].
      cbn [filter fst]. key_cases g1 g.
      - subst g1. exfalso. apply Hnotin. now left.
      - apply IH. intros H. apply Hnotin. now right. }
    rewrite Hnone. simpl. lia.
  - key_cases g0 g.
    + subst g0. exfalso. apply Hnotin.
      apply (in_map fst) in Hin. exact Hin.
    + now apply IH.
Qed.

(** With distinct keys the share of an age group is the quotient of
    its own entry. *)
Lemma share_of_entry (g : string) (A : Z) (ages : Dict.t Z) (P T : Z) :
  NoDup (Dict.keys ages) -> In (g, A) ages ->
  share_of g ages P T = A * P / T.
Proof.
  unfold share_of, shares.
  induction ages as [|[g0 A0] ages IH]; intros Hnd Hin; [destruct Hin|].
  simpl in Hnd. inversion Hnd as [|? ? Hnotin Hnd']; subst.
  cbn [filter fst]. destruct Hin as [Heq|Hin].
  - injection Heq as -> ->. rewrite String.eqb_refl. simpl.
    assert (Hnone : filter (fun gc => String.eqb (fst gc) g) ages = []).
    { clear IH Hnd Hnd'. induction ages as [|[g1 A1] ages IH]; [reflexivity|].
      cbn [filter fst]. destruct (String.eqb g1 g) eqn:E.
      - apply String.eqb_eq in E; subst g1. exfalso. apply Hnotin. now left.
      - apply IH. intros H. apply Hnotin. now right. }
    rewrite Hnone. simpl. lia.
  - destruct (String.eqb g0 g) eqn:E.
    + apply String.eqb_eq in E; subst g0. exfalso. apply Hnotin.
      apply (in_map fst) in Hin. exact Hin.
    + now apply IH.
Qed.

Lemma sum_over_set {V : Type} (f : V -> Z) (dflt : V) (d : Dict.t V)
    (k : string) (v : V) :
  f dflt = 0 ->
  sum_over f (Dict.set k v d)
  = sum_over f d - f (Dict.get_default dflt k d) + f v.
Proof.
  intros Hd. unfold sum_over, Dict.get_default.
  induction d as [|[k' v'] d IH]; simpl; [lia|].
  destruct (String.eqb k' k); simpl; lia.
Qed.

Lemma age_count_set_same swd s e g :
  age_count (Dict.set s e swd) s g = Dict.get_default 0 g (App.age_groups e).
Proof.
  unfold age_count, Dict.get_default at 2. now rewrite get_set_same.
Qed.

Lemma age_count_set_other swd s s' e g :
  s <> s' -> age_count (Dict.set s e swd) s' g = age_count swd s' g.
Proof.
  intros H. unfold age_count, Dict.get_default at 2 4.
  now rewrite get_set_other.
Qed.

(** One pass of the inner loops for a residence entry. *)
Lemma credit_state_exact (data : bucket) swd (ps : string) (P : Z) :
  App.is_residence ps = true ->
  0 <= P -> 0 < total_dlc_completed data ->
  exact_range (age_groups data) P ->
  exists swd',
    App.credit_state data swd (ps, P) = Some swd' /\
    (forall g, age_count swd' ps g
               = age_count swd ps g
                 + share_of g (age_groups data) P (total_dlc_completed data)) /\
    (forall s g, s <> ps -> age_count swd' s g = age_count swd s g) /\
    histogram_total swd'
    = histogram_total swd
      + shares (age_groups data) P (total_dlc_completed data).
Proof.
  intros Hres HP HT Hr. unfold App.credit_state; cbn [fst snd].
  rewrite Hres.
  replace (0 <? total_dlc_completed data) with true
    by (symmetry; now apply Z.ltb_lt).
  set (e0 := Dict.get_default App.new_entry ps swd).
  destruct (distribute_exact (age_groups data) P (total_dlc_completed data)
              (App.add_pensioners (state data) P e0) HP HT Hr)
    as (e' & -> & _ & _ & Hs & Hg).
  cbn [bind]. eexists; split; [reflexivity|].
  cbn [App.add_pensioners App.age_groups] in Hs, Hg.
  repeat split.
  - intros g. rewrite age_count_set_same, Hg. reflexivity.
  - intros s g Hne. apply age_count_set_other. congruence.
  - unfold histogram_total.
    rewrite (sum_over_set _ App.new_entry) by reflexivity.
    fold e0. lia.
Qed.

(** The same pass when only overflow is excluded. *)
Lemma credit_state_defined (data : bucket) swd (ps : string) (P : Z) :
  App.is_residence ps = true ->
  0 <= P -> 0 < total_dlc_completed data ->
  no_overflow (age_groups data) P ->
  exists swd',
    App.credit_state data swd (ps, P) = Some swd' /\
    forall g, age_count swd' ps g
              = age_count swd ps g
                + given_to g (age_groups data) P (total_dlc_completed data).
Proof.
  intros Hres HP HT Hr. unfold App.credit_state; cbn [fst snd].
  rewrite Hres.
  replace (0 <? total_dlc_completed data) with true
    by (symmetry; now apply Z.ltb_lt).
  set (e0 := Dict.get_default App.new_entry ps swd).
  destruct (distribute_defined (age_groups data) P (total_dlc_completed data)
              (App.add_pensioners (state data) P e0) HP HT Hr)
    as (e' & -> & Hg).
  cbn [bind]. eexists; split; [reflexivity|].
  intros g. rewrite age_count_set_same, Hg. reflexivity.
Qed.

Lemma credit_state_sentinel (data : bucket) swd (sc : string * Z) :
  App.is_residence (fst sc) = false ->
  App.credit_state data swd sc = Some swd.
Proof. intros H. unfold App.credit_state. now rewrite H. Qed.

(** The loop over [pensioner_states] reads nothing else of the bucket
    than its state, total and age groups, and skips the sentinels. *)
Lemma credit_fold_filter (data data' : bucket) (l : Dict.t Z) swd :
  state data' = state data ->
  total_dlc_completed data' = total_dlc_completed data ->
  age_groups data' = age_groups data ->
  fold_opt (App.credit_state data') (filter (fun sc => App.is_residence (fst sc)) l) swd
  = fold_opt (App.credit_state data) l swd.
Proof.
  intros Hs Ht Ha. revert swd.
  induction l as [|sc l IH]; intros swd; [reflexivity|].
  cbn [filter]. destruct (App.is_residence (fst sc)) eqn:E.
  - cbn [fold_opt].
    replace (App.credit_state data' swd sc) with (App.credit_state data swd sc)
      by (unfold App.credit_state; now rewrite Hs, Ht, Ha).
    destruct (App.credit_state data swd sc); simpl; auto.
  - cbn [fold_opt]. rewrite credit_state_sentinel by assumption.
    simpl. apply IH.
Qed.

Lemma process_bucket_without_sentinels swd (kv : string * bucket) :
  App.process_bucket swd (without_sentinels kv) = App.process_bucket swd kv.
Proof.
  unfold App.process_bucket, without_sentinels; cbn [snd pensioner_states].
  unfold residence_states. now apply credit_fold_filter.
Qed.

Lemma rollup_without_sentinels (data : Dict.t bucket) :
  App.rollup (map without_sentinels data) = App.rollup data.
Proof.
  unfold App.rollup. generalize (@nil (string * App.state_entry)) as swd.
  induction data as [|kv data IH]; intros swd; [reflexivity|].
  cbn [map fold_opt]. rewrite process_bucket_without_sentinels.
  destruct (App.process_bucket swd kv); simpl; auto.
Qed.

Lemma fold_opt_invariant {A B : Type} (P : A -> Prop)
    (f : A -> B -> option A) (l : list B) :
  (forall a x a', f a x = Some a' -> P a -> P a') ->
  forall a a', fold_opt f l a = Some a' -> P a -> P a'.
Proof.
  intros Hf. induction l as [|x l IH]; intros a a'; simpl.
  - now intros [= ->].
  - destruct (f a x) as [a1|] eqn:E; simpl; [|discriminate].
    intros H Ha. apply (IH a1 a' H). now apply (Hf a x).
Qed.

Lemma credit_state_keys (data : bucket) swd sc swd' :
  App.credit_state data swd sc = Some swd' ->
  residence_keys swd -> residence_keys swd'.
Proof.
  unfold App.credit_state, residence_keys.
  destruct (App.is_residence (fst sc)) eqn:E; [|now intros [= ->]].
  match goal with |- (x <- ?o ;; _) = _ -> _ => destruct o end;
    simpl; [|discriminate].
  intros [= <-] H. rewrite keys_set.
  destruct (Dict.get (fst sc) swd); [exact H|].
  apply Forall_app; split; [exact H|]. now constructor.
Qed.

Lemma rollup_residence_keys (data : Dict.t bucket) swd :
  App.rollup data = Some swd -> residence_keys swd.
Proof.
  intros H.
  apply (fold_opt_invariant residence_keys App.process_bucket data) with (a := []);
    [|exact H|constructor].
  intros a kv a' Hk. unfold App.process_bucket in Hk.
  revert Hk. apply fold_opt_invariant. apply credit_state_keys.
Qed.

Lemma credit_fold_exact (data : bucket) (l : Dict.t Z) swd :
  0 < total_dlc_completed data ->
  Forall (fun sc => App.is_residence (fst sc) = true /\ 0 <= snd sc /\
                    exact_range (age_groups data) (snd sc)) l ->
  exists swd',
    fold_opt (App.credit_state data) l swd = Some swd' /\
    histogram_total swd'
    = histogram_total swd
      + fold_right Z.add 0
          (map (fun sc => shares (age_groups data) (snd sc)
                                 (total_dlc_completed data)) l).
Proof.
  intros HT Hl. revert swd.
  induction Hl as [|[ps P] l (Hres & HP & Hr) _ IH]; intros swd.
  - exists swd; simpl; split; [reflexivity | lia].
  - cbn [fst snd] in *. cbn [fold_opt].
    destruct (credit_state_exact data swd ps P Hres HP HT Hr)
      as (swd1 & -> & _ & _ & H1).
    cbn [bind]. destruct (IH swd1) as (swd' & -> & H2).
    exists swd'; split; [reflexivity|]. simpl. lia.
Qed.

Lemma process_bucket_exact swd (pin : string) (b : bucket) :
  0 < total_dlc_completed b ->
  Forall (fun sc => 0 <= snd sc /\ exact_range (age_groups b) (snd sc))
         (residence_states b) ->
  exists swd',
    App.process_bucket swd (pin, b) = Some swd' /\
    histogram_total swd' = histogram_total swd + redistributed b.
Proof.
  intros HT Hl. unfold App.process_bucket; cbn [snd].
  rewrite <- (credit_fold_filter b b) by reflexivity.
  apply credit_fold_exact; [exact HT|].
  unfold residence_states in *. rewrite Forall_forall in *.
  intros sc Hin. split; [|now apply Hl].
  now apply filter_In in Hin.
Qed.

(** *** How much truncation can lose *)

Lemma shares_bounds (ages : Dict.t Z) (P T : Z) :
  0 < T -> 0 <= P -> Forall (fun gc => 0 <= snd gc) ages ->
  T * shares ages P T <= Dict.total ages * P
  /\ Dict.total ages * P
     <= T * shares ages P T + (T - 1) * Z.of_nat (List.length ages).
Proof.
  intros HT HP Hall. unfold shares, Dict.total, Dict.values.
  induction Hall as [|[g A] ages HA _ IH]; [simpl; lia|].
  cbn [map fold_right snd List.length] in *.
  rewrite Nat2Z.inj_succ.
  pose proof (Z.div_mod (A * P) T ltac:(lia)) as E.
  pose proof (Z.mod_pos_bound (A * P) T HT) as R.
  nia.
Qed.

(** An entry with count [P] of a bucket whose histogram sums to [T]
    gets back at most [P] and loses less than one per age group. *)
Lemma shares_of_balanced (ages : Dict.t Z) (P T : Z) :
  0 < T -> 0 <= P -> Forall (fun gc => 0 <= snd gc) ages ->
  Dict.total ages = T ->
  P - (Z.of_nat (List.length ages) - 1) <= shares ages P T <= P.
Proof.
  intros HT HP Hall Hsum.
  destruct (shares_bounds ages P T HT HP Hall) as [Hlo Hhi].
  rewrite Hsum in Hlo, Hhi.
  assert (HG : 0 < Z.of_nat (List.length ages)).
  { destruct ages; [|simpl; lia].
    unfold Dict.total in Hsum; simpl in Hsum. lia. }
  split; nia.
Qed.

Lemma entry_le_total (d : Dict.t Z) (kv : string * Z) :
  Forall (fun kv => 0 < snd kv) d -> In kv d -> 0 < snd kv <= Dict.total d.
Proof.
  unfold Dict.total, Dict.values.
  induction 1 as [|kv' d Hkv Hall IH]; intros Hin; [destruct Hin|].
  assert (0 <= fold_right Z.add 0 (map snd d)).
  { clear -Hall. induction Hall; simpl; lia. }
  destruct Hin as [->|Hin]; simpl; [lia|].
  specialize (IH Hin). lia.
Qed.

Lemma well_formed_exact_range (b : bucket) :
  well_formed b ->
  total_dlc_completed b * total_dlc_completed b < 2 ^ 53 ->
  Forall (fun sc => 0 <= snd sc /\ exact_range (age_groups b) (snd sc))
         (residence_states b).
Proof.
  intros (H1 & _ & Ha & Hp & Fa & Fp) Hsq.
  apply Forall_forall. intros sc Hin.
  unfold residence_states in Hin. apply filter_In in Hin as [Hin _].
  pose proof (entry_le_total _ _ Fp Hin) as HP. rewrite <- Hp in HP.
  split; [lia|]. apply Forall_forall. intros gc Hg.
  pose proof (entry_le_total _ _ Fa Hg) as HA. rewrite <- Ha in HA.
  split; [lia|]. nia.
Qed.

Lemma total_filter_le (f : string * Z -> bool) (d : Dict.t Z) :
  Forall (fun kv => 0 < snd kv) d ->
  0 <= Dict.total (filter f d) <= Dict.total d.
Proof.
  unfold Dict.total, Dict.values.
  induction 1 as [|kv d Hkv _ IH]; simpl; [lia|].
  destruct (f kv); simpl; lia.
Qed.

(** The sum handed out by a bucket of a persisted document. *)
Lemma redistributed_bounds (b : bucket) :
  well_formed b ->
  let G := Z.of_nat (List.length (age_groups b)) in
  let S := Z.of_nat (List.length (residence_states b)) in
  resident b - (G - 1) * S <= redistributed b <= resident b
  /\ 0 <= resident b <= total_dlc_completed b.
Proof.
  intros (H1 & _ & Ha & Hp & Fa & Fp). cbv zeta.
  split.
  - unfold redistributed, resident, residence_states, Dict.total, Dict.values.
    assert (Fr : Forall (fun kv => 0 < snd kv)
                   (filter (fun sc => App.is_residence (fst sc))
                           (pensioner_states b))).
    { apply Forall_forall. intros kv Hin. apply filter_In in Hin as [Hin _].
      rewrite Forall_forall in Fp. now apply Fp. }
    induction Fr as [|sc l Hsc _ IH]; [simpl; lia|].
    cbn [map fold_right List.length]. rewrite Nat2Z.inj_succ.
    assert (Hs := shares_of_balanced (age_groups b) (snd sc)
                    (total_dlc_completed b) ltac:(lia) ltac:(lia)).
    assert (Fa0 : Forall (fun gc => 0 <= snd gc) (age_groups b)).
    { eapply Forall_impl; [|exact Fa]. simpl; intros; lia. }
    specialize (Hs Fa0 (eq_sym Ha)).
    nia.
  - unfold resident, residence_states. rewrite Hp.
    now apply total_filter_le.
Qed.

End ResidenceRollup.

(** ** Pincode cleaning *)

Section Cleaning.

Local Open Scope nat_scope.

Lemma length_append (s t : string) :
  String.length (s ++ t) = String.length s + String.length t.
Proof. induction s; simpl; auto. Qed.

Lemma substring_prefix (s t : string) :
  substring 0 (String.length s) (s ++ t) = s.
Proof. induction s; simpl; [now destruct t | now f_equal]. Qed.

Lemma substring_suffix (s t : string) :
  substring (String.length s) (String.length t) (s ++ t) = t.
Proof.
  induction s; simpl; [|exact IHs].
  induction t; simpl; [reflexivity | now f_equal].
Qed.

Lemma substring_all (s : string) : substring 0 (String.length s) s = s.
Proof. induction s; simpl; [reflexivity | now f_equal]. Qed.

Lemma substring_split (s : string) (k : nat) :
  k <= String.length s ->
  s = (substring 0 k s ++ substring k (String.length s - k) s)%string.
Proof.
  revert k; induction s as [|c s IH]; intros k Hk; simpl in *.
  - now destruct k.
  - destruct k as [|k]; simpl.
    + f_equal. symmetry. apply substring_all.
    + f_equal. apply IH. lia.
Qed.

Lemma endswith_append (s suf : string) : Py.endswith (s ++ suf) suf = true.
Proof.
  unfold Py.endswith. rewrite length_append.
  replace (String.length s + String.length suf - String.length suf)
    with (String.length s) by lia.
  rewrite substring_suffix, String.eqb_refl.
  replace (String.length suf <=? String.length s + String.length suf)
    with true by (symmetry; apply Nat.leb_le; lia).
  reflexivity.
Qed.

Lemma endswith_inv (s suf : string) :
  Py.endswith s suf = true -> exists p, s = (p ++ suf)%string.
Proof.
  unfold Py.endswith. intros H. apply andb_true_iff in H as [Hl He].
  apply Nat.leb_le in Hl. apply String.eqb_eq in He.
  exists (substring 0 (String.length s - String.length suf) s).
  pose proof (substring_split s (String.length s - String.length suf)
                ltac:(lia)) as H.
  replace (String.length s - (String.length s - String.length suf))
    with (String.length suf) in H by lia.
  now rewrite He in H.
Qed.

Lemma drop_last2_append (p : string) : Py.drop_last2 (p ++ ".0") = p.
Proof.
  unfold Py.drop_last2. rewrite length_append. simpl String.length.
  replace (String.length p + 2 - 2) with (String.length p) by lia.
  apply substring_prefix.
Qed.

(** The cleaning of [get_excel_pensioners] removes one trailing [".0"]
    and nothing else. *)
Lemma clean_pincode_strips (p : string) :
  App.clean_pincode (Some (p ++ ".0")%string) = p.
Proof.
  unfold App.clean_pincode. now rewrite endswith_append, drop_last2_append.
Qed.

Lemma clean_pincode_keeps (s : string) :
  (forall p, s <> (p ++ ".0")%string) -> App.clean_pincode (Some s) = s.
Proof.
  intros H. unfold App.clean_pincode.
  destruct (Py.endswith s ".0") eqn:E; [|reflexivity].
  apply endswith_inv in E as [p ->]. now destruct (H p).
Qed.

Lemma clean_pincode_missing : App.clean_pincode None = "".
Proof. reflexivity. Qed.

End Cleaning.

(** ** Stable descending sort *)

Section SortFacts.

Context {A : Type} (key : A -> Z).

Lemma insert_desc_perm (x : A) (l : list A) :
  Permutation (Py.insert_desc key x l) (x :: l).
Proof.
  induction l as [|y l IH]; simpl; [reflexivity|].
  destruct (key x <? key y); [|reflexivity].
  rewrite IH. apply perm_swap.
Qed.

Lemma sorted_reverse_perm (l : list A) :
  Permutation (Py.sorted_reverse key l) l.
Proof.
  induction l as [|x l IH]; simpl; [reflexivity|].
  rewrite insert_desc_perm. now constructor.
Qed.

Lemma insert_desc_hd (x y : A) (l : list A) :
  key x <= key y -> HdRel (descending key) y l ->
  HdRel (descending key) y (Py.insert_desc key x l).
Proof.
  intros Hxy H. destruct l as [|z l]; simpl.
  - constructor. exact Hxy.
  - inversion H; subst. destruct (key x <? key z); constructor; auto.
Qed.

Lemma insert_desc_sorted (x : A) (l : list A) :
  Sorted (descending key) l -> Sorted (descending key) (Py.insert_desc key x l).
Proof.
  induction 1 as [|y l Hs IH Hh]; simpl.
  - repeat constructor.
  - destruct (key x <? key y) eqn:E.
    + apply Z.ltb_lt in E. constructor; [exact IH|].
      apply insert_desc_hd; [lia | exact Hh].
    + apply Z.ltb_ge in E. constructor; [now constructor|].
      constructor. exact E.
Qed.

Lemma sorted_reverse_sorted (l : list A) :
  Sorted (descending key) (Py.sorted_reverse key l).
Proof.
  induction l; simpl; [constructor | now apply insert_desc_sorted].
Qed.

(** An inserted item lands in front of every item with its key. *)
Lemma insert_desc_ties (k : Z) (x : A) (l : list A) :
  filter (fun y => key y =? k) (Py.insert_desc key x l)
  = filter (fun y => key y =? k) (x :: l).
Proof.
  induction l as [|y l IH]; [reflexivity|].
  cbn [Py.insert_desc]. destruct (key x <? key y) eqn:E; [|reflexivity].
  apply Z.ltb_lt in E. cbn [filter] in *. rewrite IH.
  destruct (key y =? k) eqn:Ey, (key x =? k) eqn:Ex; try reflexivity.
  apply Z.eqb_eq in Ey, Ex. lia.
Qed.

(** Stability: the items of any one key come out in input order. *)
Lemma sorted_reverse_stable (k : Z) (l : list A) :
  filter (fun y => key y =? k) (Py.sorted_reverse key l)
  = filter (fun y => key y =? k) l.
Proof.
  induction l as [|x l IH]; [reflexivity|].
  cbn [Py.sorted_reverse fold_right]. rewrite insert_desc_ties.
  cbn [filter]. fold (Py.sorted_reverse key l). now rewrite IH.
Qed.

Lemma descending_trans : Relations_1.Transitive (descending key).
Proof. intros x y z Hxy Hyz. unfold descending in *. lia. Qed.

Lemma Sorted_firstn (R : A -> A -> Prop) (n : nat) (l : list A) :
  Sorted R l -> Sorted R (firstn n l).
Proof.
  revert l. induction n as [|n IH]; intros l Hs; [constructor|].
  destruct l as [|x l]; [constructor|]. cbn [firstn].
  apply Sorted_inv in Hs as [Hs Hh]. constructor; [now apply IH|].
  destruct n; [constructor|].
  destruct l as [|y l]; [constructor|]. cbn [firstn].
  constructor. now apply HdRel_inv in Hh.
Qed.

Lemma StronglySorted_app (R : A -> A -> Prop) (a b : list A) :
  StronglySorted R (a ++ b) -> forall x y, In x a -> In y b -> R x y.
Proof.
  induction a as [|z a IH]; intros Hs x y Hx Hy; [destruct Hx|].
  cbn [app] in Hs. apply StronglySorted_inv in Hs as [Hs Hall].
  destruct Hx as [->|Hx]; [|now apply IH].
  rewrite Forall_forall in Hall. apply Hall. apply in_or_app. now right.
Qed.

Lemma firstn_prefix (a b : list A) : firstn (List.length a) (a ++ b) = a.
Proof.
  induction a as [|x a IH]; [reflexivity|]. cbn [List.length app firstn].
  now rewrite IH.
Qed.

Lemma filter_firstn (f : A -> bool) (n : nat) (l : list A) :
  filter f (firstn n l)
  = firstn (List.length (filter f (firstn n l))) (filter f l).
Proof.
  rewrite <- (firstn_skipn n l) at 3. rewrite filter_app.
  now rewrite firstn_prefix.
Qed.

(** A prefix of the stable descending sort is the top of the input. *)
Lemma sorted_reverse_top_n (n : nat) (l : list A) :
  top_n_of key n l (firstn n (Py.sorted_reverse key l)).
Proof.
  pose proof (sorted_reverse_sorted l) as Hs.
  pose proof (sorted_reverse_perm l) as Hp.
  split; [now apply Sorted_firstn|]. split; [|split].
  - rewrite length_firstn. now rewrite (Permutation_length Hp).
  - exists (skipn n (Py.sorted_reverse key l)).
    rewrite firstn_skipn. split; [exact Hp|].
    intros x y Hx Hy.
    apply (StronglySorted_app (descending key)
             (firstn n (Py.sorted_reverse key l))
             (skipn n (Py.sorted_reverse key l))); try assumption.
    rewrite firstn_skipn.
    apply Sorted_StronglySorted; [apply descending_trans | exact Hs].
  - intros k. eexists. rewrite <- (sorted_reverse_stable k l).
    apply filter_firstn.
Qed.

End SortFacts.

(** ** Which rows a view counts *)

Section Inclusion.

Import DlcBankAnalysis.

Lemma skip_branch_false (p : string) :
  skip_branch p = false <-> p <> "" /\ 6 <= Py.len p.
Proof.
  unfold skip_branch. rewrite orb_false_iff, negb_false_iff, Z.ltb_ge.
  destruct p; simpl; intuition congruence.
Qed.


Lemma process_row_skipped (cy : Z) (acc : run) (r : Excel.row) :
  birth_year_of (Excel.YOB r) = None \/
  skip_branch (pincode_text (Excel.BRANCH_PINCODE r)) = true ->
  process_row cy acc r = acc.
Proof.
  intros H. unfold process_row.
  destruct (birth_year_of (Excel.YOB r)); [|reflexivity].
  destruct H as [H | ->]; [discriminate | reflexivity].
Qed.

(** The file boundaries do not matter. *)
Lemma accumulate_readable (cy : Z) (files : list Excel.file) :
  accumulate cy files = fold_left (process_row cy) (readable_rows files) ([], 0).
Proof.
  unfold accumulate, readable_rows.
  generalize (@nil (string * bucket), 0).
  induction files as [|f files IH]; intros acc; [reflexivity|].
  cbn [fold_left flat_map]. rewrite fold_left_app, IH.
  now destruct f.
Qed.

(** A quantity of the bucket of branch [p] that each counted row moves
    by one or leaves alone counts the rows that move it. *)
Lemma fold_rows_counts (cy : Z) (p : string) (q : bucket -> Z)
    (m : Excel.row -> bool) :
  (forall r y b,
      birth_year_of (Excel.YOB r) = Some y ->
      q (count_record (get_age_group cy (Py.Int y))
           (get_state_from_pincode (pincode_text (Excel.BRANCH_PINCODE r)))
           (get_state_from_pincode (pincode_text (Excel.PENSIONER_PINCODE r)))
           b)
      = q b + (if m r then 1 else 0)) ->
  forall rows acc,
    q (Dict.get_default new_bucket p (fst (fold_left (process_row cy) rows acc)))
    = q (Dict.get_default new_bucket p (fst acc))
      + count_where (fun r => m r && accepted r &&
                       String.eqb (pincode_text (Excel.BRANCH_PINCODE r)) p)
                    rows.
Proof.
  intros Hq rows. unfold count_where.
  induction rows as [|r rows IH]; intros acc; [simpl; lia|].
  cbn [fold_left filter]. rewrite IH. clear IH.
  assert (Hacc : accepted r
                 = match birth_year_of (Excel.YOB r) with
                   | Some _ => negb (skip_branch (pincode_text (Excel.BRANCH_PINCODE r)))
                   | None => false
                   end) by reflexivity.
  rewrite Hacc. clear Hacc. unfold process_row.
  destruct (birth_year_of (Excel.YOB r)) as [y|] eqn:Ey.
  2:{ rewrite andb_false_r. simpl. lia. }
  destruct (skip_branch (pincode_text (Excel.BRANCH_PINCODE r))) eqn:Es.
  { simpl. rewrite andb_false_r. simpl. lia. }
  cbn [negb fst]. rewrite andb_true_r.
  key_cases (pincode_text (Excel.BRANCH_PINCODE r)) p.
  - subst p. rewrite get_default_update_same, (Hq r y _ Ey), andb_true_r.
    destruct (m r); cbn [List.length]; rewrite ?Nat2Z.inj_succ; lia.
  - rewrite get_default_update_other by assumption.
    rewrite andb_false_r. lia.
Qed.

Lemma NoDup_keys_set {V : Type} (d : Dict.t V) (k : string) (v : V) :
  NoDup (Dict.keys d) -> NoDup (Dict.keys (Dict.set k v d)).
Proof.
  intros H. rewrite keys_set.
  destruct (Dict.get k d) eqn:E; [exact H|].
  apply get_None_not_key in E.
  apply NoDup_rev in H. rewrite <- (rev_involutive (Dict.keys d ++ [k])).
  apply NoDup_rev. rewrite rev_app_distr. simpl.
  constructor; [|exact H]. now rewrite <- in_rev.
Qed.

Lemma fold_rows_invariant (P : run -> Prop) (cy : Z) :
  (forall acc r, P acc -> P (process_row cy acc r)) ->
  forall rows acc, P acc -> P (fold_left (process_row cy) rows acc).
Proof.
  intros Hstep rows. induction rows as [|r rows IH]; intros acc H; simpl; auto.
Qed.

Lemma accumulate_invariant (P : run -> Prop) (cy : Z) :
  P ([], 0) ->
  (forall acc r, P acc -> P (process_row cy acc r)) ->
  forall files, P (accumulate cy files).
Proof.
  intros H0 Hstep files. unfold accumulate.
  generalize (@nil (string * bucket), 0) H0.
  induction files as [|f files IH]; intros acc H; simpl; [exact H|].
  apply IH. destruct f as [rows|]; simpl; [|exact H].
  now apply fold_rows_invariant.
Qed.

Lemma process_row_nodup (cy : Z) (acc : run) (r : Excel.row) :
  NoDup (Dict.keys (fst acc)) -> NoDup (Dict.keys (fst (process_row cy acc r))).
Proof.
  intros H. unfold process_row.
  destruct (birth_year_of (Excel.YOB r)); [|exact H].
  destruct (skip_branch _); [exact H|]. cbn [fst].
  now apply NoDup_keys_set.
Qed.

Lemma get_of_NoDup {V : Type} (d : Dict.t V) (k : string) (v : V) :
  NoDup (Dict.keys d) -> In (k, v) d -> Dict.get k d = Some v.
Proof.
  induction d as [|[k' v'] d IH]; intros Hnd Hin; [destruct Hin|].
  cbn [Dict.keys map fst] in Hnd. apply NoDup_cons_iff in Hnd as [Hk Hnd].
  cbn [Dict.get]. destruct Hin as [[= -> ->]|Hin].
  - now rewrite String.eqb_refl.
  - key_cases k' k; [|now apply IH].
    exfalso. apply Hk. subst k'.
    unfold Dict.keys. apply in_map_iff. now exists (k, v).
Qed.

Lemma analyze_nodup (cy : Z) (files : list Excel.file) :
  NoDup (Dict.keys (analyze_dlc_by_bank_pincode cy files)).
Proof.
  rewrite final_data_keeps_all.
  apply (accumulate_invariant (fun acc => NoDup (Dict.keys (fst acc))));
    [constructor | apply process_row_nodup].
Qed.


End Inclusion.

(* ================================================================== *)
(** * Part III. The claims                                             *)
(* ================================================================== *)

Section Claims.

Import DlcBankAnalysis.

(** C1 (as amended).  For a bucket with total [T > 0], a residence
    entry [(ps, P)] that passes the sentinel test and an age group
    [(g, A)] of the bucket with [A * P < 2^53], the body of the
    residence rollup adds exactly the integer quotient [A * P / T]
    (the floor, not the rounded value) to the count of [g] under [ps].
    Counts are non-negative, and the loop is assumed not to raise: no
    product of [P] with a count of the bucket reaches [2^1023]. *)
Theorem C1_share_is_floor_below_2p53
    (data : bucket) (swd : Dict.t App.state_entry)
    (ps g : string) (P A : Z) :
  0 < total_dlc_completed data ->
  App.is_residence ps = true ->
  NoDup (Dict.keys (age_groups data)) ->
  In (g, A) (age_groups data) ->
  0 <= P ->
  A * P < 2 ^ 53 ->
  no_overflow (age_groups data) P ->
  exists swd',
    App.credit_state data swd (ps, P) = Some swd' /\
    age_count swd' ps g
    = age_count swd ps g + A * P / total_dlc_completed data.
Proof.
  intros HT Hres Hnd Hin HP Hlt Hr.
  destruct (credit_state_defined data swd ps P Hres HP HT Hr)
    as (swd' & Hc & Hg).
  exists swd'. split; [exact Hc|].
  rewrite Hg, (given_to_entry g A) by assumption.
  f_equal. apply given_exact; try assumption.
  unfold no_overflow in Hr. rewrite Forall_forall in Hr.
  now destruct (Hr _ Hin).
Qed.

(** The worked example: T = 100, A = 40 for "66-70", P = 25 for
    Gujarat. *)
Lemma C1_witness :
  exists swd',
    App.credit_state example_bucket [] ("Gujarat", 25) = Some swd' /\
    age_count swd' "Gujarat" "66-70"
    = age_count [] "Gujarat" "66-70" + 40 * 25 / 100.
Proof.
  apply (C1_share_is_floor_below_2p53 example_bucket [] "Gujarat" "66-70" 25 40).
  - reflexivity.
  - reflexivity.
  - repeat constructor. simpl. tauto.
  - left. reflexivity.
  - lia.
  - reflexivity.
  - repeat constructor; simpl; reflexivity || discriminate.
Defined.

Example example_rollup_gives_10 :
  option_map (fun swd => age_count swd "Gujarat" "66-70")
             (App.rollup [("400001", example_bucket)]) = Some 10.
Proof. reflexivity. Qed.

(** C1 as stated fails on large counts: with T = 200000001,
    A = 199999999 and P = 100000001 the exact quotient is
    100000000 - 1/T, its floor is 99999999, and the rollup adds
    100000000 because the double nearest to the quotient is
    100000000.0. *)
Lemma C1_counterexample :
  well_formed large_bucket /\
  199999999 * 100000001 / 200000001 = 99999999 /\
  exists swd',
    App.credit_state large_bucket [] ("Gujarat", 100000001) = Some swd' /\
    age_count swd' "Gujarat" "66-70" = 100000000 /\
    age_count swd' "Gujarat" "66-70"
    <> age_count [] "Gujarat" "66-70" + 199999999 * 100000001 / 200000001.
Proof.
  split; [|split].
  - check_bucket.
  - reflexivity.
  - eexists. split; [vm_compute; reflexivity|].
    split; [reflexivity | vm_compute; discriminate].
Qed.

(** C2.  On an integer birth year the age classifier never falls into
    its error handler and returns the one bucket among the six whose
    interval contains [r - y]; the six intervals cover every integer
    age exactly once.  The copy in [app.py] is the same function. *)
Theorem C2_age_groups_partition (r y : Z) :
  let label := get_age_group r (Py.Int y) in
  In label age_buckets
  /\ label <> "Unknown"
  /\ in_bucket label (r - y)
  /\ (forall l, in_bucket l (r - y) -> l = label)
  /\ (forall a : Z, exists! l, in_bucket l a)
  /\ App.get_age_group r (Py.Int y) = label.
Proof.
  cbv zeta. pose proof (get_age_group_in_bucket r y) as Hb.
  assert (Hin : forall l a, in_bucket l a -> In l age_buckets).
  { unfold in_bucket, age_buckets. intros l a H; simpl.
    intuition (subst; auto 10). }
  repeat split.
  - now apply (Hin _ (r - y)).
  - intros E. rewrite E in Hb. unfold in_bucket in Hb.
    intuition discriminate.
  - exact Hb.
  - intros l Hl. now apply (in_bucket_functional l _ (r - y)).
  - intros a. exists (get_age_group a (Py.Int 0)).
    pose proof (get_age_group_in_bucket a 0) as H0.
    rewrite Z.sub_0_r in H0. split; [exact H0|].
    intros l Hl. now apply (in_bucket_functional _ l a).
Qed.

(** C3.  In the bank-location rollup the total of a state is the
    exact sum of [total_dlc_completed] over the pincodes stored under
    that state (zero, and no entry, when there is none); the state
    totals of the analysis report are the same sums. *)
Theorem C3_bank_location_conservation (data : Dict.t bucket) (S : string) :
  match Dict.get S (DlcApiEndpoint.state_final data) with
  | Some e => DlcApiEndpoint.StateFinal.total_pensioners e
  | None => 0
  end = completions_in_state S data
  /\ (In S (Dict.keys (DlcApiEndpoint.state_final data)) <->
      exists kv, In kv data /\ state (snd kv) = S)
  /\ Dict.get_default 0 S (state_totals data) = completions_in_state S data.
Proof.
  split; [apply state_final_total|].
  split; [apply state_final_keys|].
  unfold state_totals. rewrite state_totals_fold.
  unfold Dict.get_default; simpl. lia.
Qed.

(** C4 (as amended).  For a bucket of a persisted document whose
    total [T] satisfies [T * T < 2^53], processing the bucket
    succeeds and the redistributed counts it adds sum to at most [T];
    the difference is at least the number of pensioners filed under a
    sentinel state and exceeds it by at most [numAgeGroups - 1] for
    each residence state, not for the bucket as a whole. *)
Theorem C4_truncation_loss_per_state
    (swd : Dict.t App.state_entry) (pin : string) (b : bucket) :
  well_formed b ->
  total_dlc_completed b * total_dlc_completed b < 2 ^ 53 ->
  exists swd',
    App.process_bucket swd (pin, b) = Some swd' /\
    let T := total_dlc_completed b in
    let handed := histogram_total swd' - histogram_total swd in
    let sentinel := T - resident b in
    let G := Z.of_nat (List.length (age_groups b)) in
    let S := Z.of_nat (List.length (residence_states b)) in
    handed <= T /\
    0 <= sentinel <= T - handed /\
    T - handed <= sentinel + (G - 1) * S.
Proof.
  intros Hwf Hsq.
  destruct (process_bucket_exact swd pin b) as (swd' & Hp & Hh).
  - destruct Hwf; lia.
  - now apply well_formed_exact_range.
  - exists swd'. split; [exact Hp|]. cbv zeta.
    destruct (redistributed_bounds b Hwf) as [[Hlo Hhi] [Hr0 Hr1]].
    cbv zeta in Hlo. lia.
Qed.

Lemma C4_witness :
  exists b, analyze_dlc_by_bank_pincode 2024 [Some eight_rows] = [("400001", b)] /\
  exists swd',
    App.process_bucket [] ("400001", b) = Some swd' /\
    let T := total_dlc_completed b in
    let handed := histogram_total swd' - histogram_total [] in
    let sentinel := T - resident b in
    let G := Z.of_nat (List.length (age_groups b)) in
    let S := Z.of_nat (List.length (residence_states b)) in
    handed <= T /\
    0 <= sentinel <= T - handed /\
    T - handed <= sentinel + (G - 1) * S.
Proof.
  eexists. split; [vm_compute; reflexivity|].
  apply C4_truncation_loss_per_state.
  - check_bucket.
  - reflexivity.
Defined.

(** C4 as stated fails: the bucket built from the eight rows has
    T = 8, two age groups of four and eight residence states of one;
    every share is floor(4 * 1 / 8) = 0, so nothing is handed out and
    the difference is 8, not below the number of age groups (two
    used, six in all). *)
Lemma C4_counterexample :
  exists b swd',
    analyze_dlc_by_bank_pincode 2024 [Some eight_rows] = [("400001", b)] /\
    App.process_bucket [] ("400001", b) = Some swd' /\
    total_dlc_completed b - (histogram_total swd' - histogram_total []) = 8 /\
    List.length (age_groups b) = 2%nat /\
    ~ (0 <= total_dlc_completed b - (histogram_total swd' - histogram_total [])
       < Z.of_nat (List.length (age_groups b))) /\
    ~ (0 <= total_dlc_completed b - (histogram_total swd' - histogram_total [])
       < Z.of_nat (List.length age_buckets)).
Proof.
  do 2 eexists.
  split; [vm_compute; reflexivity|].
  split; [vm_compute; reflexivity|].
  split; [reflexivity|]. split; [reflexivity|].
  split; vm_compute; intros [_ H]; discriminate.
Qed.



(** A row without branch pincode is ignored by the bank-pincode view
    and counted under Delhi by the state summary of
    [get_excel_pensioners]. *)
Example no_branch_row_is_counted_by_state_view :
  process_row 2024 ([], 0) no_branch_row = ([], 0) /\
  state_summary_total "Delhi"
    (snd (AppPensioners.process_row "2025-08-25" 0 0 ([], [])
            no_branch_pensioner_row)) = 1.
Proof. split; reflexivity. Qed.

(** C6.  Every top-N list is the top of its input by count: the top 15
    bank pincodes of the report and the top 50 of the file written, by
    [total_dlc_completed], the top 10 states of the report by their
    total, and in the endpoint the top 20 bank pincodes
    of a state and the top 10 of a district, whose counts are the
    [total_dlc_completed] of the buckets filed there.  Each list is in
    descending order of the count, holds N items or all of them, leaves
    out no item larger than one it lists, and lists the items of equal
    count in the order of the input (for a dictionary, the order of
    first insertion), never in alphabetical order.  For counts 50, 50,
    30 under keys seen in the order A, B, C the first two are A, B; had
    B been seen first they would be B, A; counts 30, 50, 50 seen in the
    order C, A, B come out as A, B, C. *)
Theorem C6_top_n_is_stable :
  (forall bank_data,
      top_n_of (fun kv => total_dlc_completed (snd kv)) 15
               bank_data (top_pincodes bank_data))
  /\ (forall bank_data,
        top_n_of (fun kv => total_dlc_completed (snd kv)) 50
                 bank_data (top_50_bank_pincodes bank_data))
  /\ (forall bank_data,
        top_n_of snd 10 (state_totals bank_data) (state_sorted bank_data))
  /\ (forall data S e,
        Dict.get S (DlcApiEndpoint.state_final data) = Some e ->
        top_n_of DlcApiEndpoint.StateWise.dlc_count 20
                 (map state_pincode_entry (buckets_of_state S data))
                 (DlcApiEndpoint.StateFinal.bank_pincodes e))
  /\ (forall data K e,
        Dict.get K (DlcApiEndpoint.district_final data) = Some e ->
        top_n_of DlcApiEndpoint.DistrictWise.dlc_count 10
                 (map district_pincode_entry (buckets_of_district K data))
                 (DlcApiEndpoint.DistrictFinal.bank_pincodes e))
  /\ map fst (firstn 2 (top_pincodes tied_buckets)) = ["A"; "B"]
  /\ map fst (firstn 2 (top_pincodes tied_buckets_B_first)) = ["B"; "A"]
  /\ map fst (top_pincodes unsorted_buckets) = ["A"; "B"; "C"].
Proof.
  split; [|split; [|split; [|split; [|split; [|repeat split]]]]].
  - intros bank_data.
    apply (sorted_reverse_top_n (fun kv => total_dlc_completed (snd kv))).
  - intros bank_data.
    apply (sorted_reverse_top_n (fun kv => total_dlc_completed (snd kv))).
  - intros bank_data. apply (sorted_reverse_top_n snd).
  - intros data S e He. unfold DlcApiEndpoint.state_final in He.
    rewrite get_map_values in He.
    destruct (Dict.get S (fst (DlcApiEndpoint.rollup data))) as [w|] eqn:Ew;
      [|discriminate].
    injection He as <-.
    pose proof (rollup_fold_pincodes S data ([], [])) as H.
    fold (DlcApiEndpoint.rollup data) in H.
    unfold Dict.get_default in H. rewrite Ew in H. cbn in H.
    cbn [DlcApiEndpoint.finish_state DlcApiEndpoint.StateFinal.bank_pincodes].
    rewrite H. apply sorted_reverse_top_n.
  - intros data K e He. unfold DlcApiEndpoint.district_final in He.
    rewrite get_map_values in He.
    destruct (Dict.get K (snd (DlcApiEndpoint.rollup data))) as [w|] eqn:Ew;
      [|discriminate].
    injection He as <-.
    pose proof (rollup_fold_district_pincodes K data ([], [])) as H.
    fold (DlcApiEndpoint.rollup data) in H.
    unfold Dict.get_default in H. rewrite Ew in H. cbn in H.
    cbn [DlcApiEndpoint.finish_district DlcApiEndpoint.DistrictFinal.bank_pincodes].
    rewrite H. apply sorted_reverse_top_n.
Qed.

(** Through the whole analysis: the branch seen first stays first among
    branches with the same number of completions. *)
Example first_seen_branch_wins_the_tie :
  map fst (top_pincodes (analyze_dlc_by_bank_pincode 2024
             [Some [row_of "400001" "110001" 1955;
                    row_of "110001" "110001" 1955;
                    row_of "560001" "110001" 1955;
                    row_of "110001" "400001" 1960;
                    row_of "400001" "400001" 1960]]))
  = ["400001"; "110001"; "560001"].
Proof. reflexivity. Qed.

(** C7.  The worked values of the classifiers: pincode "400001" is in
    Maharashtra, district Mumbai; a pensioner born in 1955 is 69 in
    2024 and falls in "66-70". *)
Theorem C7_worked_classifications :
  get_state_from_pincode "400001" = "Maharashtra"
  /\ DlcApiEndpoint.get_district_from_pincode "400001" = "Mumbai"
  /\ 2024 - 1955 = 69
  /\ get_age_group 2024 (Py.Int 1955) = "66-70".
Proof. repeat split. Qed.

(** C8 (the code departs from the claim).  The analysis script cleans
    a pincode with [replace('.0', '')], which removes every
    occurrence of ".0": the cell text "40000.01" becomes "400001",
    then passes the length test and is classified as Maharashtra.
    The cleaning of [get_excel_pensioners] leaves the same text
    untouched, as the claim requires. *)
Theorem C8_replace_removes_inner_occurrence :
  pincode_text (Some "40000.01") = "400001"
  /\ skip_branch (pincode_text (Some "40000.01")) = false
  /\ get_state_from_pincode (pincode_text (Some "40000.01")) = "Maharashtra"
  /\ App.clean_pincode (Some "40000.01") = "40000.01".
Proof. repeat split. Qed.

(** The sibling path does what the claim says: one trailing ".0" is
    cut, any other text is returned as it is, a missing cell gives
    the empty string. *)
Lemma clean_pincode_trailing_only :
  (forall p, App.clean_pincode (Some (p ++ ".0")%string) = p)
  /\ (forall s, (forall p, s <> (p ++ ".0")%string) ->
                App.clean_pincode (Some s) = s)
  /\ App.clean_pincode None = "".
Proof.
  split; [exact clean_pincode_strips|].
  split; [exact clean_pincode_keeps | reflexivity].
Qed.

(** C9.  The residence rollup skips the entries of
    [pensioner_states] labelled "Invalid Pincode" or "Other State"
    (and the empty label): such an entry leaves the accumulator as it
    is, the rollup of a document equals the rollup of the document
    with these entries removed, and no such label is a key of the
    result.  The bank-location rollup has no such test: every stored
    state label, sentinel or not, gets an entry with its full
    total. *)
Theorem C9_sentinels_only_in_bank_rollup (data : Dict.t bucket) :
  (forall s, App.is_residence s = false <->
             s = "" \/ s = "Invalid Pincode" \/ s = "Other State")
  /\ (forall b swd sc, App.is_residence (fst sc) = false ->
                       App.credit_state b swd sc = Some swd)
  /\ App.rollup (map without_sentinels data) = App.rollup data
  /\ (forall swd s, App.rollup data = Some swd ->
                    App.is_residence s = false -> Dict.get s swd = None)
  /\ (forall S, (exists kv, In kv data /\ state (snd kv) = S) ->
                exists e,
                  Dict.get S (DlcApiEndpoint.state_final data) = Some e /\
                  DlcApiEndpoint.StateFinal.total_pensioners e
                  = completions_in_state S data).
Proof.
  split; [exact is_residence_false|].
  split; [exact credit_state_sentinel|].
  split; [apply rollup_without_sentinels|].
  split.
  - intros swd s Hr Hs. apply get_None_not_key. intros Hin.
    pose proof (rollup_residence_keys data swd Hr) as Hk.
    unfold residence_keys in Hk. rewrite Forall_forall in Hk.
    specialize (Hk s Hin). congruence.
  - intros S Hex. apply state_final_keys in Hex.
    pose proof (state_final_total data S) as Ht.
    destruct (Dict.get S (DlcApiEndpoint.state_final data)) as [e|] eqn:E.
    + now exists e.
    + apply get_None_not_key in E. contradiction.
Qed.

(** A branch whose pincode matches no range is stored under
    "Other State"; the bank-location rollup keeps it, the residence
    rollup has no entry for pensioners filed under that label. *)
Example sentinel_label_in_both_rollups :
  let data := analyze_dlc_by_bank_pincode 2024
                [Some [row_of "999001" "999002" 1955;
                       row_of "999001" "110001" 1955]] in
  option_map DlcApiEndpoint.StateFinal.total_pensioners
             (Dict.get "Other State" (DlcApiEndpoint.state_final data)) = Some 2
  /\ option_map Dict.keys (App.rollup data) = Some ["Delhi"].
Proof. split; reflexivity. Qed.

(** C10.  Every bucket of the document written by a run has at least
    one completion, and its total equals both the sum of its age
    groups and the sum of its pensioner states: the total is the number
    of accepted rows of its branch pincode, each of which adds exactly
    one to the total, to one age group and to one pensioner state of
    that bucket, while every other row leaves the bucket as it was; a
    pincode without an accepted row is not emitted. *)
Theorem C10_persisted_buckets_balance
    (cy : Z) (timestamp : string) (files : list Excel.file)
    (pin : string) (b : bucket) :
  In (pin, b) (bank_pincode_data (persisted cy timestamp files)) ->
  let of_branch (r : Excel.row) :=
    accepted r && String.eqb (pincode_text (Excel.BRANCH_PINCODE r)) pin in
  1 <= total_dlc_completed b
  /\ total_dlc_completed b = Dict.total (age_groups b)
  /\ total_dlc_completed b = Dict.total (pensioner_states b)
  /\ total_dlc_completed b = count_where of_branch (readable_rows files)
  /\ (forall acc r,
        of_branch r = true ->
        let before := Dict.get_default new_bucket pin (fst acc) in
        let after := Dict.get_default new_bucket pin (fst (process_row cy acc r)) in
        total_dlc_completed after = total_dlc_completed before + 1
        /\ Dict.total (age_groups after) = Dict.total (age_groups before) + 1
        /\ Dict.total (pensioner_states after)
           = Dict.total (pensioner_states before) + 1)
  /\ (forall acc r,
        of_branch r = false ->
        Dict.get pin (fst (process_row cy acc r)) = Dict.get pin (fst acc)).
Proof.
  unfold persisted, complete_data; cbn [bank_pincode_data]. intros Hin.
  cbv zeta.
  pose proof (analyze_well_formed cy files) as H.
  unfold all_well_formed in H. rewrite Forall_forall in H.
  destruct (H _ Hin) as (H1 & _ & Ha & Hp & _).
  split; [exact H1|]. split; [exact Ha|]. split; [exact Hp|].
  split; [|split].
  - pose proof (get_of_NoDup _ pin b (analyze_nodup cy files) Hin) as Hget.
    rewrite final_data_keeps_all in Hget.
    pose proof (fold_rows_counts cy pin total_dlc_completed (fun _ => true)
                  ltac:(intros; cbn; lia) (readable_rows files) ([], 0)) as Hc.
    rewrite <- accumulate_readable in Hc.
    unfold Dict.get_default in Hc at 1. rewrite Hget in Hc.
    cbn in Hc. rewrite Hc. unfold count_where. do 2 f_equal.
  - intros acc r Hr. apply andb_true_iff in Hr as [Hacc Hk].
    apply String.eqb_eq in Hk. unfold accepted in Hacc. unfold process_row.
    destruct (birth_year_of (Excel.YOB r)) as [y|]; [|discriminate].
    apply negb_true_iff in Hacc. rewrite Hacc. cbn [fst]. rewrite Hk.
    rewrite get_default_update_same.
    cbn [count_record total_dlc_completed age_groups pensioner_states].
    now rewrite !total_incr.
  - intros acc r Hr. unfold process_row.
    destruct (birth_year_of (Excel.YOB r)) as [y|] eqn:Ey; [|reflexivity].
    destruct (skip_branch (pincode_text (Excel.BRANCH_PINCODE r))) eqn:Es;
      [reflexivity|]. cbn [fst].
    apply get_update_other. intros E.
    unfold accepted in Hr. rewrite Ey, Es, E, String.eqb_refl in Hr.
    discriminate.
Qed.

Lemma C10_witness :
  exists b,
    In ("400001", b)
       (bank_pincode_data (persisted 2024 "20240101_000000" [Some eight_rows]))
    /\ 1 <= total_dlc_completed b
    /\ total_dlc_completed b = Dict.total (age_groups b)
    /\ total_dlc_completed b = Dict.total (pensioner_states b)
    /\ total_dlc_completed b = 8.
Proof.
  eexists. split.
  - vm_compute. left. reflexivity.
  - destruct (C10_persisted_buckets_balance 2024 "20240101_000000"
                [Some eight_rows] "400001"
                {| total_dlc_completed := 8;
                   age_groups := [("60-65", 4); ("66-70", 4)];
                   state := "Maharashtra";
                   pensioner_states :=
                     [("Delhi", 1); ("Uttar Pradesh", 1); ("Rajasthan", 1);
                      ("Gujarat", 1); ("Maharashtra", 1); ("Telangana", 1);
                      ("Karnataka", 1); ("Tamil Nadu", 1)] |})
      as (H1 & H2 & H3 & H4 & _).
    + vm_compute. left. reflexivity.
    + repeat split; assumption.
Defined.

(** Each counted row moves the three quantities together. *)
Lemma count_record_moves_together (ag bs ps : string) (b : bucket) :
  let b' := count_record ag bs ps b in
  total_dlc_completed b' = total_dlc_completed b + 1
  /\ Dict.total (age_groups b') = Dict.total (age_groups b) + 1
  /\ Dict.total (pensioner_states b') = Dict.total (pensioner_states b) + 1.
Proof. cbv zeta; simpl. now rewrite !total_incr. Qed.

End Claims.

(* ================================================================== *)
(** * Part IV. Further properties of the code                          *)
(* ================================================================== *)

(** ** Range tables *)

Section Tables.

Lemma first_match_label (tbl : range_table) (other : string) (n : Z) :
  In (first_match tbl other n) (other :: labels_of tbl).
Proof.
  induction tbl as [|[[lo hi] label] tbl IH]; simpl; [now left|].
  destruct ((lo <=? n) && (n <=? hi)); [right; now left|].
  destruct IH as [IH|IH]; [now left | right; now right].
Qed.

Lemma first_match_apart (tbl : range_table) (other : string) (n : Z)
    (lo hi : Z) (label : string) :
  pairwise_apart tbl = true ->
  In (lo, hi, label) tbl -> lo <= n <= hi ->
  first_match tbl other n = label.
Proof.
  induction tbl as [|[[lo0 hi0] l0] tbl IH]; intros Hp Hin Hn; [destruct Hin|].
  simpl in Hp. apply andb_true_iff in Hp as [Hhd Htl].
  destruct Hin as [Heq|Hin]; simpl.
  - injection Heq as -> -> ->.
    replace ((lo <=? n) && (n <=? hi)) with true; [reflexivity|].
    symmetry. apply andb_true_iff. split; apply Z.leb_le; lia.
  - rewrite forallb_forall in Hhd. specialize (Hhd _ Hin).
    unfold apart in Hhd; simpl in Hhd.
    replace ((lo0 <=? n) && (n <=? hi0)) with false; [now apply IH|].
    symmetry. apply andb_false_iff.
    apply orb_true_iff in Hhd as [H|H]; apply Z.ltb_lt in H;
      [right | left]; apply Z.leb_gt; lia.
Qed.

Lemma In_forallb_true (f : string -> bool) (l : list string) (x : string) :
  forallb f l = true -> In x l -> f x = true.
Proof. intros H Hin. rewrite forallb_forall in H. now apply H. Qed.

Lemma analysis_state_in_labels (p : string) :
  In (DlcBankAnalysis.get_state_from_pincode p) analysis_state_labels.
Proof.
  unfold DlcBankAnalysis.get_state_from_pincode, analysis_state_labels.
  cbv zeta. destruct (3 <=? _); [|now left].
  destruct (Py.int_of_str _); [|now left].
  right. apply first_match_label.
Qed.

Lemma analysis_state_truthy (p : string) :
  Py.truthy (DlcBankAnalysis.get_state_from_pincode p) = true.
Proof.
  apply (In_forallb_true Py.truthy analysis_state_labels);
    [reflexivity | apply analysis_state_in_labels].
Qed.

End Tables.

(** X1.  [get_state_from_pincode] of the analysis script returns one of
    its seventeen state names or one of the two sentinels, never the
    empty string; it answers "Invalid Pincode" exactly when the cleaned
    text has fewer than three characters or its first three characters
    are not an integer literal. *)
Theorem X1_analysis_state_labels (p : string) :
  let cleaned := Py.replace_dot0 p in
  In (DlcBankAnalysis.get_state_from_pincode p) analysis_state_labels
  /\ DlcBankAnalysis.get_state_from_pincode p <> ""
  /\ (DlcBankAnalysis.get_state_from_pincode p = "Invalid Pincode" <->
      Py.len cleaned < 3 \/ Py.int_of_str (Py.first3 cleaned) = None).
Proof.
  cbv zeta. split; [apply analysis_state_in_labels|]. split.
  - intros E. pose proof (analysis_state_truthy p) as H.
    rewrite E in H. discriminate.
  - unfold DlcBankAnalysis.get_state_from_pincode. cbv zeta.
    destruct (3 <=? Py.len (Py.replace_dot0 p)) eqn:E3.
    + apply Z.leb_le in E3.
      destruct (Py.int_of_str (Py.first3 (Py.replace_dot0 p))) as [n|].
      * split.
        -- intros E. exfalso.
           pose proof (first_match_label DlcBankAnalysis.state_ranges
                         "Other State" n) as Hin.
           rewrite E in Hin.
           apply (In_forallb_true
                    (fun l => negb (String.eqb l "Invalid Pincode"))) in Hin;
             [discriminate | reflexivity].
        -- intros [H|H]; [lia | discriminate].
      * split; [intros _; now right | reflexivity].
    + apply Z.leb_gt in E3. split; [intros _; left; lia | reflexivity].
Qed.

(** X2.  The state ranges of the analysis script do not overlap: a
    number that lies in the range of an arm gets the label of that arm,
    whatever the order of the arms. *)
Theorem X2_analysis_state_ranges_apart (n lo hi : Z) (label : string) :
  In (lo, hi, label) DlcBankAnalysis.state_ranges ->
  lo <= n <= hi ->
  first_match DlcBankAnalysis.state_ranges "Other State" n = label.
Proof. apply first_match_apart. reflexivity. Qed.

Lemma X2_witness :
  first_match DlcBankAnalysis.state_ranges "Other State" 785 = "Assam".
Proof.
  apply (X2_analysis_state_ranges_apart 785 781 788 "Assam").
  - simpl. do 13 right. left. reflexivity.
  - lia.
Defined.

(** X3.  In the state table shared by [excel_data_processor.py] and
    [app.py] three arms are covered by earlier ones: no pincode is ever
    classified as Haryana (inside the Delhi range), Jharkhand (inside
    Bihar) or Uttarakhand (inside Uttar Pradesh), and Punjab is given
    only above 140, which Delhi takes. *)
Theorem X3_shadowed_states (p : string) :
  let st := ExcelDataProcessor.get_state_from_pincode p in
  st <> "Haryana" /\ st <> "Jharkhand" /\ st <> "Uttarakhand"
  /\ AppClassifiers.get_state_from_pincode p = st
  /\ (st = "Punjab" <->
      exists n, Py.int_of_str (Py.first3 p) = Some n /\ 141 <= n <= 160).
Proof.
  cbv zeta. unfold AppClassifiers.get_state_from_pincode,
    ExcelDataProcessor.get_state_from_pincode.
  destruct (Py.int_of_str (Py.first3 p)) as [n|].
  2:{ repeat split; try discriminate. intros (n & H & _). discriminate. }
  assert (H : forall l, In l ["Haryana"; "Jharkhand"; "Uttarakhand"] ->
                first_match ExcelDataProcessor.state_ranges "Other States" n <> l).
  { intros l Hl. unfold ExcelDataProcessor.state_ranges, first_match.
    walk_chain; simpl in Hl; intuition (subst; try discriminate);
      tests_to_props; lia. }
  split; [apply H; simpl; auto|]. split; [apply H; simpl; auto|].
  split; [apply H; simpl; auto|]. split; [reflexivity|].
  split.
  - intros E. exists n. split; [reflexivity|]. revert E.
    unfold ExcelDataProcessor.state_ranges, first_match.
    walk_chain; intros; try discriminate; tests_to_props; lia.
  - intros (m & [= <-] & Hm).
    unfold ExcelDataProcessor.state_ranges, first_match.
    walk_chain; try reflexivity; tests_to_props; lia.
Qed.

(** X4.  In the district tables some arms can never be reached:
    [dlc_api_endpoint.py] never answers Bhavnagar (inside the Rajkot
    range) nor Pune (inside Mumbai), and [app.py] never answers Pune. *)
Theorem X4_shadowed_districts (p : string) :
  DlcApiEndpoint.get_district_from_pincode p <> "Bhavnagar"
  /\ DlcApiEndpoint.get_district_from_pincode p <> "Pune"
  /\ AppClassifiers.get_district_from_pincode p <> "Pune".
Proof.
  unfold DlcApiEndpoint.get_district_from_pincode,
    AppClassifiers.get_district_from_pincode.
  destruct (Py.int_of_str (Py.first3 p)) as [n|];
    [|repeat split; discriminate].
  repeat split.
  - unfold DlcApiEndpoint.district_ranges, first_match.
    walk_chain; try discriminate; tests_to_props; lia.
  - unfold DlcApiEndpoint.district_ranges, first_match.
    walk_chain; try discriminate; tests_to_props; lia.
  - unfold AppClassifiers.district_ranges, first_match.
    walk_chain; try discriminate; tests_to_props; lia.
Qed.

(** ** What [int] reads from three characters *)

Section Parsing.

Import Py.

Lemma int_of_str_cases (s : string) :
  int_of_str s =
  match strip (list_ascii_of_string s) with
  | [] => None
  | c :: r =>
      if Ascii.eqb c "+" then digits 0 false r
      else if Ascii.eqb c "-" then option_map Z.opp (digits 0 false r)
      else digits 0 false (c :: r)
  end.
Proof.
  unfold int_of_str. destruct (strip (list_ascii_of_string s)) as [|c r];
    [reflexivity|].
  destruct c as [[] [] [] [] [] [] [] []]; reflexivity.
Qed.

Lemma digit_of_range (c : ascii) (d : Z) : digit_of c = Some d -> 0 <= d <= 9.
Proof.
  unfold digit_of. cbv zeta.
  destruct ((48 <=? _) && (_ <=? 57)) eqn:E; [|discriminate].
  intros [= <-]. tests_to_props. lia.
Qed.

(** The value read has no more decimal digits than the text. *)
Lemma digits_bound (l : list ascii) :
  forall acc seen v,
    digits acc seen l = Some v -> 0 <= acc ->
    0 <= v < (acc + 1) * 10 ^ Z.of_nat (List.length (filter is_digit l)).
Proof.
  induction l as [|c r IH]; intros acc seen v H Hacc; simpl in H.
  - destruct seen; [|discriminate]. injection H as <-. simpl. lia.
  - destruct (Ascii.eqb c "_") eqn:Eu.
    + apply Ascii.eqb_eq in Eu; subst c.
      destruct seen; [|discriminate].
      change (filter is_digit ("_"%char :: r)) with (filter is_digit r).
      now apply (IH acc false).
    + destruct (digit_of c) as [d|] eqn:Ed; [|discriminate].
      pose proof (digit_of_range c d Ed) as Hd.
      specialize (IH (10 * acc + d) true v H ltac:(lia)).
      cbn [filter]. unfold is_digit at 1. rewrite Ed.
      cbn [List.length]. rewrite Nat2Z.inj_succ, Z.pow_succ_r by lia.
      set (k := 10 ^ Z.of_nat (List.length (filter is_digit r))) in *.
      assert (0 < k) by (apply Z.pow_pos_nonneg; lia).
      nia.
Qed.

Lemma filter_length_full {A : Type} (f : A -> bool) (l : list A) :
  List.length (filter f l) = List.length l -> Forall (fun x => f x = true) l.
Proof.
  induction l as [|x l IH]; simpl; [constructor|].
  pose proof (filter_length_le f l) as Hle.
  destruct (f x) eqn:E; simpl; intros H; [|lia].
  constructor; [exact E | apply IH; lia].
Qed.

Lemma lstrip_length (l : list ascii) :
  (List.length (lstrip l) <= List.length l)%nat /\
  (List.length (lstrip l) = List.length l -> lstrip l = l).
Proof.
  induction l as [|c r [IH1 IH2]]; simpl; [auto|].
  destruct (is_space c); simpl; [|auto].
  split; [lia | intros H; lia].
Qed.

Lemma strip_length (l : list ascii) :
  (List.length (strip l) <= List.length l)%nat /\
  (List.length (strip l) = List.length l -> strip l = l).
Proof.
  unfold strip.
  destruct (lstrip_length l) as [A1 A2].
  destruct (lstrip_length (rev (lstrip l))) as [B1 B2].
  rewrite ?length_rev in *.
  split; [lia|]. intros H.
  rewrite B2 by lia. rewrite rev_involutive. apply A2. lia.
Qed.

Lemma pow10_mono (a b : nat) : (a <= b)%nat -> 10 ^ Z.of_nat a <= 10 ^ Z.of_nat b.
Proof. intros. apply Z.pow_le_mono_r; lia. Qed.

(** A text of at most three characters that reads as 100 or more is
    made of three digits. *)
Lemma three_digits (s : string) (n : Z) :
  (String.length s <= 3)%nat -> int_of_str s = Some n -> 100 <= n ->
  exists c1 c2 c3,
    s = String c1 (String c2 (String c3 EmptyString)) /\
    is_digit c1 = true /\ is_digit c2 = true /\ is_digit c3 = true.
Proof.
  intros Hlen H Hn. rewrite int_of_str_cases in H.
  assert (Hchars : List.length (list_ascii_of_string s) = String.length s).
  { clear. induction s; simpl; auto. }
  destruct (strip_length (list_ascii_of_string s)) as [L1 L2].
  set (l := strip (list_ascii_of_string s)) in *.
  assert (Hall : List.length (filter is_digit l) = 3%nat /\ List.length l = 3%nat).
  { destruct l as [|c r]; [discriminate|].
    pose proof (filter_length_le is_digit r) as Fr.
    pose proof (filter_length_le is_digit (c :: r)) as Fl.
    cbn [List.length] in L1, Fl.
    destruct (Ascii.eqb c "+").
    - apply digits_bound in H; [|lia]. exfalso.
      pose proof (pow10_mono (List.length (filter is_digit r)) 2 ltac:(lia)).
      change (10 ^ Z.of_nat 2) with 100 in *. lia.
    - destruct (Ascii.eqb c "-").
      + destruct (digits 0 false r) as [v|] eqn:Ev; [|discriminate].
        apply digits_bound in Ev; [|lia]. injection H as <-. lia.
      + apply digits_bound in H; [|lia].
        assert (~ (List.length (filter is_digit (c :: r)) <= 2)%nat).
        { intros Hc. pose proof (pow10_mono _ 2 Hc).
          change (10 ^ Z.of_nat 2) with 100 in *. lia. }
        cbn [List.length]. lia. }
  destruct Hall as [Hd Hl].
  assert (Hs : l = list_ascii_of_string s) by (apply L2; lia).
  assert (Hf : Forall (fun c => is_digit c = true) l)
    by (apply filter_length_full; lia).
  rewrite Hs in Hf, Hl. clear -Hf Hl Hchars.
  destruct s as [|c1 [|c2 [|c3 [|c4 s]]]]; simpl in Hl; try discriminate.
  simpl in Hf. inversion Hf as [|? ? H1 Hf1]; subst.
  inversion Hf1 as [|? ? H2 Hf2]; subst.
  inversion Hf2 as [|? ? H3 _]; subst.
  now exists c1, c2, c3.
Qed.

Lemma replace_dot0_keeps (c : ascii) (r : string) :
  is_digit c = true -> replace_dot0 (String c r) = String c (replace_dot0 r).
Proof.
  destruct c as [[] [] [] [] [] [] [] []]; try reflexivity;
    intros H; discriminate H.
Qed.

Lemma first3_length (p : string) : (String.length (first3 p) <= 3)%nat.
Proof.
  unfold first3. destruct p as [|c1 [|c2 [|c3 p]]]; simpl; try lia.
  destruct p; simpl; lia.
Qed.

(** When the first three characters read as 100 or more, cleaning the
    text again does not touch them. *)
Lemma first3_after_cleaning (p : string) (n : Z) :
  int_of_str (first3 p) = Some n -> 100 <= n ->
  first3 (replace_dot0 p) = first3 p /\ 3 <= len (replace_dot0 p).
Proof.
  intros H Hn.
  destruct (three_digits (first3 p) n (first3_length p) H Hn)
    as (c1 & c2 & c3 & E & D1 & D2 & D3).
  destruct p as [|a1 [|a2 [|a3 rest]]]; try discriminate E.
  unfold first3 in E. simpl in E. injection E as E1 E2 E3. subst a1 a2 a3.
  rewrite !replace_dot0_keeps by assumption.
  split.
  - unfold first3. simpl. destruct (replace_dot0 rest); now destruct rest.
  - unfold len. simpl. lia.
Qed.

End Parsing.

(** ** Districts and states read the same number *)

Section DistrictState.

Lemma district_number_in_state (n : Z) :
  first_match DlcApiEndpoint.district_ranges "Other District" n = "Other District"
  \/ (100 <= n /\
      In (first_match DlcApiEndpoint.district_ranges "Other District" n,
          first_match DlcBankAnalysis.state_ranges "Other State" n)
         district_state).
Proof.
  set (st := first_match DlcBankAnalysis.state_ranges "Other State" n).
  unfold DlcApiEndpoint.district_ranges, first_match.
  assert (Hst : forall lo hi label,
             In (lo, hi, label) DlcBankAnalysis.state_ranges ->
             lo <= n <= hi -> st = label)
    by (intros lo hi label; now apply first_match_apart).
  walk_chain; [..|now left]; right;
    try solve [exfalso; tests_to_props; lia];
    repeat match goal with H : _ = false |- _ => clear H end;
    tests_to_props; (split; [lia|]);
    first [ rewrite (Hst 110 140 "Delhi") by (pick_entry || lia)
          | rewrite (Hst 301 345 "Rajasthan") by (pick_entry || lia)
          | rewrite (Hst 360 396 "Gujarat") by (pick_entry || lia)
          | rewrite (Hst 400 445 "Maharashtra") by (pick_entry || lia)
          | rewrite (Hst 560 591 "Karnataka") by (pick_entry || lia)
          | rewrite (Hst 800 855 "Bihar") by (pick_entry || lia) ];
    pick_entry.
Qed.

End DistrictState.

(** X5.  The two classifiers agree on geography: whenever
    [get_district_from_pincode] of [dlc_api_endpoint.py] names a
    district for a pincode, [get_state_from_pincode] of the analysis
    script puts the same pincode in the state where that district
    lies (Mumbai in Maharashtra, Patna in Bihar, and so on), so a named
    district is never paired with a sentinel state. *)
Theorem X5_district_lies_in_state (p : string) :
  let d := DlcApiEndpoint.get_district_from_pincode p in
  d = "Other District" \/ d = "Unknown District" \/
  In (d, DlcBankAnalysis.get_state_from_pincode p) district_state.
Proof.
  cbv zeta. unfold DlcApiEndpoint.get_district_from_pincode.
  destruct (Py.int_of_str (Py.first3 p)) as [n|] eqn:En; [|right; now left].
  destruct (district_number_in_state n) as [H|[Hn H]]; [now left|].
  right; right.
  destruct (first3_after_cleaning p n En Hn) as [Hf Hl].
  unfold DlcBankAnalysis.get_state_from_pincode. cbv zeta.
  replace (3 <=? Py.len (Py.replace_dot0 p)) with true
    by (symmetry; now apply Z.leb_le).
  rewrite Hf, En. exact H.
Qed.

(** ** More invariants of the per-bank-pincode analysis *)

Section AnalysisMore.

Import DlcBankAnalysis.

(** A property of keys and values together survives an update. *)
Lemma Forall_update_keyed {V : Type} (P : string -> V -> Prop) (dflt : V)
    (d : Dict.t V) (k : string) (f : V -> V) :
  Forall (fun kv => P (fst kv) (snd kv)) d ->
  (forall v, Dict.get k d = Some v -> P k v -> P k (f v)) ->
  (Dict.get k d = None -> P k (f dflt)) ->
  Forall (fun kv => P (fst kv) (snd kv)) (Dict.update dflt k f d).
Proof.
  intros Hall Hf Hd. rewrite Forall_forall in *.
  intros kv Hin. unfold Dict.update in Hin.
  apply In_set in Hin as [->|Hin]; [|auto].
  simpl. unfold Dict.get_default.
  destruct (Dict.get k d) as [v|] eqn:E; [|auto].
  apply Hf; [reflexivity|]. apply (Hall (k, v)). now apply get_In.
Qed.

Lemma keys_incr (P : string -> Prop) (d : Dict.t Z) (k : string) (n : Z) :
  P k -> Forall (fun kv => P (fst kv)) d ->
  Forall (fun kv => P (fst kv)) (Dict.incr k n d).
Proof.
  intros Hk Hd. unfold Dict.incr.
  apply (Forall_update_keyed (fun key _ => P key)); auto.
Qed.

(** The record count is the sum of the bucket totals. *)
Lemma process_row_sum (cy : Z) (acc : run) (r : Excel.row) :
  snd acc = sum_over total_dlc_completed (fst acc) ->
  snd (process_row cy acc r)
  = sum_over total_dlc_completed (fst (process_row cy acc r)).
Proof.
  intros H. unfold process_row.
  destruct (birth_year_of (Excel.YOB r)); [|exact H].
  destruct (skip_branch _); [exact H|]. cbn [fst snd].
  unfold Dict.update. rewrite (sum_over_set _ new_bucket) by reflexivity.
  cbn [count_record total_dlc_completed]. lia.
Qed.

Lemma sum_ge_length (d : Dict.t bucket) :
  all_well_formed d ->
  Z.of_nat (List.length d) <= sum_over total_dlc_completed d
  /\ Forall (fun kv => total_dlc_completed (snd kv)
                       <= sum_over total_dlc_completed d) d.
Proof.
  unfold all_well_formed, sum_over.
  induction 1 as [|kv d [H1 _] Hall [IH1 IH2]]; [simpl; split; [lia|constructor]|].
  cbn [map fold_right List.length]. rewrite Nat2Z.inj_succ. split; [lia|].
  constructor; [lia|].
  eapply Forall_impl; [|exact IH2]. simpl. intros; lia.
Qed.

Lemma process_row_keyed (cy : Z) (acc : run) (r : Excel.row) :
  Forall (fun kv => keyed_by_branch (fst kv) (snd kv)) (fst acc) ->
  Forall (fun kv => keyed_by_branch (fst kv) (snd kv))
         (fst (process_row cy acc r)).
Proof.
  intros H. unfold process_row.
  destruct (birth_year_of (Excel.YOB r)); [|exact H].
  destruct (skip_branch _) eqn:Es; [exact H|]. cbn [fst].
  apply (Forall_update_keyed keyed_by_branch); [exact H| |].
  - intros b _ [Hb _]. split; [|exact Es]. cbn [count_record state].
    rewrite Hb, analysis_state_truthy. reflexivity.
  - intros _. split; [|exact Es]. reflexivity.
Qed.

End AnalysisMore.

Section AnalysisCounts.

Import DlcBankAnalysis.

Lemma age_group_known (cy y : Z) : In (get_age_group cy (Py.Int y)) age_buckets.
Proof.
  pose proof (get_age_group_in_bucket cy y) as H.
  unfold in_bucket in H. unfold age_buckets.
  repeat match goal with
         | H : _ \/ _ |- _ => destruct H
         | H : _ /\ _ |- _ => destruct H
         end;
    match goal with H : _ = _ |- _ => rewrite H end; pick_entry.
Qed.

Lemma process_row_labels (cy : Z) (acc : run) (r : Excel.row) :
  Forall (fun kv => known_labels (snd kv)) (fst acc) ->
  Forall (fun kv => known_labels (snd kv)) (fst (process_row cy acc r)).
Proof.
  intros H. unfold process_row.
  destruct (birth_year_of (Excel.YOB r)); [|exact H].
  destruct (skip_branch _); [exact H|]. cbn [fst].
  assert (Hstep : forall b, known_labels b ->
            known_labels (count_record (get_age_group cy (Py.Int z))
              (get_state_from_pincode (pincode_text (Excel.BRANCH_PINCODE r)))
              (get_state_from_pincode (pincode_text (Excel.PENSIONER_PINCODE r)))
              b)).
  { intros b [Ha Hp]. split; cbn [count_record age_groups pensioner_states].
    - apply (keys_incr (fun g => In g age_buckets)); [apply age_group_known | exact Ha].
    - apply (keys_incr (fun s => In s analysis_state_labels));
        [apply analysis_state_in_labels | exact Hp]. }
  apply (Forall_update known_labels); [exact H| |].
  - intros b _ Hb. now apply Hstep.
  - intros _. apply Hstep. split; constructor.
Qed.

(** Rejected rows and unreadable files are no-ops, and the file
    boundaries do not matter. *)
Lemma fold_rows_accepted (cy : Z) (rows : list Excel.row) (acc : run) :
  fold_left (process_row cy) rows acc
  = fold_left (process_row cy) (filter accepted rows) acc.
Proof.
  revert acc. induction rows as [|r rows IH]; intros acc; [reflexivity|].
  cbn [fold_left filter]. destruct (accepted r) eqn:E; cbn [fold_left].
  - apply IH.
  - rewrite process_row_skipped; [apply IH|].
    unfold accepted in E.
    destruct (birth_year_of (Excel.YOB r)); [right | now left].
    now apply negb_false_iff in E.
Qed.

End AnalysisCounts.

Section AnalysisTheorems.

Import DlcBankAnalysis.

Lemma incr_reads (d : Dict.t Z) (k g : string) :
  Dict.get_default 0 g (Dict.incr k 1 d)
  = Dict.get_default 0 g d + (if String.eqb k g then 1 else 0).
Proof.
  key_cases k g.
  - subst g. rewrite get_default_incr_same. lia.
  - rewrite get_default_incr_other by assumption. lia.
Qed.

Lemma count_where_pos {A : Type} (f : A -> bool) (l : list A) :
  1 <= count_where f l <-> exists x, In x l /\ f x = true.
Proof.
  unfold count_where. split.
  - destruct (filter f l) as [|x r] eqn:E; [simpl; lia|].
    intros _. exists x. apply filter_In. rewrite E. now left.
  - intros (x & Hin). apply filter_In in Hin.
    destruct (filter f l); [destruct Hin | simpl; lia].
Qed.

Lemma fold_rows_record_count (cy : Z) (rows : list Excel.row) (acc : run) :
  snd (fold_left (process_row cy) rows acc)
  = snd acc + count_where accepted rows.
Proof.
  unfold count_where. revert acc.
  induction rows as [|r rows IH]; intros acc; [simpl; lia|].
  cbn [fold_left filter]. rewrite IH.
  assert (Hacc : accepted r
                 = match birth_year_of (Excel.YOB r) with
                   | Some _ => negb (skip_branch (pincode_text (Excel.BRANCH_PINCODE r)))
                   | None => false
                   end) by reflexivity.
  rewrite Hacc. unfold process_row.
  destruct (birth_year_of (Excel.YOB r)); [|lia].
  destruct (skip_branch _); cbn [negb snd List.length];
    rewrite ?Nat2Z.inj_succ; lia.
Qed.

End AnalysisTheorems.

(** X6.  In the document written by a run, the number of records
    processed equals the sum of the completions of all buckets (the
    field [total_dlc_completed] of the document); the number of bank
    pincodes does not exceed it, and neither does the total of any
    single bucket. *)
Theorem X6_records_are_the_sum_of_buckets
    (cy : Z) (timestamp : string) (files : list Excel.file) :
  let doc := DlcBankAnalysis.persisted cy timestamp files in
  DlcBankAnalysis.total_records_processed doc = DlcBankAnalysis.total_dlc doc
  /\ DlcBankAnalysis.total_bank_pincodes doc
     <= DlcBankAnalysis.total_records_processed doc
  /\ Forall (fun kv => DlcBankAnalysis.total_dlc_completed (snd kv)
                       <= DlcBankAnalysis.total_records_processed doc)
            (DlcBankAnalysis.bank_pincode_data doc).
Proof.
  cbv zeta. unfold DlcBankAnalysis.persisted, DlcBankAnalysis.complete_data.
  cbn [DlcBankAnalysis.total_records_processed DlcBankAnalysis.total_dlc
       DlcBankAnalysis.total_bank_pincodes DlcBankAnalysis.bank_pincode_data].
  rewrite final_data_keeps_all.
  assert (Hsum : snd (DlcBankAnalysis.accumulate cy files)
                 = sum_over DlcBankAnalysis.total_dlc_completed
                     (fst (DlcBankAnalysis.accumulate cy files))).
  { apply (accumulate_invariant
             (fun acc => snd acc = sum_over DlcBankAnalysis.total_dlc_completed (fst acc)));
      [reflexivity | intros; now apply process_row_sum]. }
  destruct (sum_ge_length _ (accumulate_well_formed cy files)) as [Hlen Hall].
  rewrite Hsum. repeat split; [exact Hlen | exact Hall].
Qed.

(** X7.  Every bucket of the analysis is filed under a distinct key,
    the key is a non-empty text of at least six characters, and the
    state stored in the bucket is the state that
    [get_state_from_pincode] gives for that key (set on the first row
    and never changed afterwards). *)
Theorem X7_buckets_are_keyed_by_branch (cy : Z) (files : list Excel.file) :
  NoDup (Dict.keys (DlcBankAnalysis.analyze_dlc_by_bank_pincode cy files))
  /\ Forall (fun kv =>
               DlcBankAnalysis.state (snd kv)
               = DlcBankAnalysis.get_state_from_pincode (fst kv)
               /\ fst kv <> "" /\ 6 <= Py.len (fst kv))
            (DlcBankAnalysis.analyze_dlc_by_bank_pincode cy files).
Proof.
  rewrite final_data_keeps_all. split.
  - apply (accumulate_invariant (fun acc => NoDup (Dict.keys (fst acc))));
      [constructor | intros; now apply process_row_nodup].
  - assert (H : Forall (fun kv => keyed_by_branch (fst kv) (snd kv))
                  (fst (DlcBankAnalysis.accumulate cy files))).
    { apply (accumulate_invariant
               (fun acc => Forall (fun kv => keyed_by_branch (fst kv) (snd kv))
                                  (fst acc)));
        [constructor | intros; now apply process_row_keyed]. }
    eapply Forall_impl; [|exact H].
    intros kv [Hs Hk]. split; [exact Hs|]. now apply skip_branch_false.
Qed.

(** X8.  The histograms of the analysis only hold known labels: every
    age-group key is one of the six buckets (never "Unknown"), and
    every pensioner-state key is one of the seventeen state names or
    one of the two sentinels. *)
Theorem X8_histogram_keys_are_known (cy : Z) (files : list Excel.file) :
  Forall (fun kv =>
            Forall (fun gc => In (fst gc) age_buckets)
                   (DlcBankAnalysis.age_groups (snd kv)) /\
            Forall (fun sc => In (fst sc) analysis_state_labels)
                   (DlcBankAnalysis.pensioner_states (snd kv)))
         (DlcBankAnalysis.analyze_dlc_by_bank_pincode cy files).
Proof.
  rewrite final_data_keeps_all.
  apply (accumulate_invariant
           (fun acc => Forall (fun kv => known_labels (snd kv)) (fst acc)));
    [constructor | intros; now apply process_row_labels].
Qed.

(** X9.  Unreadable files and rejected rows leave no trace, and file
    boundaries do not matter: a run over a list of files gives the same
    buckets and the same record count as one pass over the accepted
    rows of the readable files, in order. *)
Theorem X9_only_accepted_rows_matter (cy : Z) (files : list Excel.file) :
  DlcBankAnalysis.accumulate cy files
  = fold_left (DlcBankAnalysis.process_row cy)
              (filter accepted (readable_rows files)) ([], 0).
Proof. rewrite accumulate_readable. apply fold_rows_accepted. Qed.

(** X10.  The analysis counts rows exactly: for every branch pincode
    [p], the total of its bucket is the number of accepted rows with
    that cleaned branch pincode, the count of age group [g] is the
    number of those rows whose year of birth falls in [g], the count of
    residence state [s] is the number of those rows whose pensioner
    pincode is classified as [s], and the record count is the number of
    accepted rows. *)
Theorem X10_buckets_count_rows
    (cy : Z) (files : list Excel.file) (p g s : string) :
  let rows := readable_rows files in
  let b := Dict.get_default DlcBankAnalysis.new_bucket p
             (DlcBankAnalysis.analyze_dlc_by_bank_pincode cy files) in
  let of_branch (r : Excel.row) :=
    accepted r &&
    String.eqb (DlcBankAnalysis.pincode_text (Excel.BRANCH_PINCODE r)) p in
  DlcBankAnalysis.total_dlc_completed b = count_where of_branch rows
  /\ Dict.get_default 0 g (DlcBankAnalysis.age_groups b)
     = count_where (fun r => String.eqb (age_group_of_row cy r) g && of_branch r)
                   rows
  /\ Dict.get_default 0 s (DlcBankAnalysis.pensioner_states b)
     = count_where (fun r => String.eqb (residence_of_row r) s && of_branch r)
                   rows
  /\ snd (DlcBankAnalysis.accumulate cy files) = count_where accepted rows.
Proof.
  cbv zeta. rewrite final_data_keeps_all, accumulate_readable.
  split; [|split; [|split]].
  - rewrite (fold_rows_counts cy p DlcBankAnalysis.total_dlc_completed
               (fun _ => true)); [simpl; lia|].
    intros. reflexivity.
  - rewrite (fold_rows_counts cy p
               (fun b => Dict.get_default 0 g (DlcBankAnalysis.age_groups b))
               (fun r => String.eqb (age_group_of_row cy r) g)).
    + simpl. unfold count_where. f_equal. f_equal.
      apply filter_ext. intros r. now rewrite andb_assoc.
    + intros r y b Ey. cbn [DlcBankAnalysis.count_record DlcBankAnalysis.age_groups].
      rewrite incr_reads. unfold age_group_of_row. now rewrite Ey.
  - rewrite (fold_rows_counts cy p
               (fun b => Dict.get_default 0 s (DlcBankAnalysis.pensioner_states b))
               (fun r => String.eqb (residence_of_row r) s)).
    + simpl. unfold count_where. f_equal. f_equal.
      apply filter_ext. intros r. now rewrite andb_assoc.
    + intros r y b Ey.
      cbn [DlcBankAnalysis.count_record DlcBankAnalysis.pensioner_states].
      rewrite incr_reads. reflexivity.
  - rewrite fold_rows_record_count. simpl. lia.
Qed.

(** X11.  A pincode is a key of the analysis exactly when some
    accepted row of a readable file has it as cleaned branch pincode;
    in particular the analysis of rows that are all rejected is
    empty. *)
Theorem X11_keys_are_the_accepted_branches
    (cy : Z) (files : list Excel.file) (p : string) :
  In p (Dict.keys (DlcBankAnalysis.analyze_dlc_by_bank_pincode cy files)) <->
  exists r, In r (readable_rows files) /\ accepted r = true /\
            DlcBankAnalysis.pincode_text (Excel.BRANCH_PINCODE r) = p.
Proof.
  pose proof (analyze_well_formed cy files) as Hwf.
  assert (Hcount :
    DlcBankAnalysis.total_dlc_completed
      (Dict.get_default DlcBankAnalysis.new_bucket p
         (DlcBankAnalysis.analyze_dlc_by_bank_pincode cy files))
    = count_where
        (fun r => accepted r &&
           String.eqb (DlcBankAnalysis.pincode_text (Excel.BRANCH_PINCODE r)) p)
        (readable_rows files)).
  { rewrite final_data_keeps_all, accumulate_readable.
    rewrite (fold_rows_counts cy p DlcBankAnalysis.total_dlc_completed
               (fun _ => true)); [simpl; lia | intros; reflexivity]. }
  unfold Dict.get_default in Hcount.
  destruct (Dict.get p (DlcBankAnalysis.analyze_dlc_by_bank_pincode cy files))
    as [b|] eqn:E.
  - split.
    + intros _. apply get_In in E.
      unfold all_well_formed in Hwf. rewrite Forall_forall in Hwf.
      destruct (Hwf _ E) as [H1 _]. simpl in H1. rewrite Hcount in H1.
      apply count_where_pos in H1 as (r & Hin & Hr).
      apply andb_true_iff in Hr as [Ha Hp]. apply String.eqb_eq in Hp.
      now exists r.
    + intros _. apply get_In in E. apply (in_map fst) in E. exact E.
  - split.
    + intros Hin. apply get_None_not_key in E. contradiction.
    + intros (r & Hin & Ha & Hp). exfalso.
      assert (H1 : 1 <= count_where
                (fun r => accepted r &&
                   String.eqb (DlcBankAnalysis.pincode_text (Excel.BRANCH_PINCODE r)) p)
                (readable_rows files)).
      { apply count_where_pos. exists r. split; [exact Hin|].
        rewrite Ha. simpl. now apply String.eqb_eq. }
      rewrite <- Hcount in H1. simpl in H1. lia.
Qed.

(** ** More on the rollup by the state of the bank *)

Section BankRollupMore.

Import DlcBankAnalysis.

Lemma merge_reads (g : string) (src acc : Dict.t Z) :
  Dict.get_default 0 g (DlcApiEndpoint.merge_age_groups src acc)
  = Dict.get_default 0 g acc + count_in g src.
Proof.
  unfold DlcApiEndpoint.merge_age_groups, count_in. revert acc.
  induction src as [|[g0 c] src IH]; intros acc; cbn [fold_left filter fst snd].
  - simpl. lia.
  - rewrite IH. key_cases g0 g.
    + subst g0. rewrite get_default_incr_same. simpl. lia.
    + rewrite get_default_incr_other by assumption. lia.
Qed.

Lemma merge_total (src acc : Dict.t Z) :
  Dict.total (DlcApiEndpoint.merge_age_groups src acc)
  = Dict.total acc + Dict.total src.
Proof.
  unfold DlcApiEndpoint.merge_age_groups. revert acc.
  induction src as [|[g0 c] src IH]; intros acc; cbn [fold_left fst snd].
  - unfold Dict.total at 3. simpl. lia.
  - rewrite IH, total_incr. unfold Dict.total at 4. simpl.
    fold (Dict.values src). fold (Dict.total src). lia.
Qed.

(** A quantity of a state entry that each bucket of the state moves by
    a weight is the sum of the weights. *)
Lemma rollup_fold_quantity (q : DlcApiEndpoint.StateWise.t -> Z)
    (w : string * bucket -> Z) (S : string) :
  (forall pin district data e,
      q (DlcApiEndpoint.add_to_state pin district data e)
      = q e + w (pin, data)) ->
  forall data acc,
    q (Dict.get_default DlcApiEndpoint.StateWise.empty S
         (fst (fold_left DlcApiEndpoint.rollup_step data acc)))
    = q (Dict.get_default DlcApiEndpoint.StateWise.empty S (fst acc))
      + sum_in_state w S data.
Proof.
  intros Hq data. unfold sum_in_state, buckets_of_state.
  induction data as [|[pin b] data IH]; intros acc; cbn [fold_left filter snd].
  - simpl. lia.
  - rewrite IH. unfold DlcApiEndpoint.rollup_step at 1. cbn [fst snd].
    key_cases (state b) S.
    + subst S. rewrite get_default_update_same, Hq. simpl. lia.
    + rewrite get_default_update_other by assumption. lia.
Qed.

Lemma state_final_reads_quantity (q : DlcApiEndpoint.StateWise.t -> Z)
    (q' : DlcApiEndpoint.StateFinal.t -> Z)
    (w : string * bucket -> Z) (S : string) (data : Dict.t bucket) :
  q DlcApiEndpoint.StateWise.empty = 0 ->
  (forall e, q' (DlcApiEndpoint.finish_state e) = q e) ->
  (forall pin district data e,
      q (DlcApiEndpoint.add_to_state pin district data e)
      = q e + w (pin, data)) ->
  state_final_reads q' S data = sum_in_state w S data.
Proof.
  intros H0 Hfin Hq.
  pose proof (rollup_fold_quantity q w S Hq data ([], [])) as H.
  fold (DlcApiEndpoint.rollup data) in H.
  unfold state_final_reads, DlcApiEndpoint.state_final.
  rewrite get_map_values. unfold Dict.get_default in H. simpl in H.
  destruct (Dict.get S (fst (DlcApiEndpoint.rollup data))); simpl;
    rewrite ?Hfin; lia.
Qed.

(** The same for the sum over all states. *)
Lemma rollup_fold_sum (q : DlcApiEndpoint.StateWise.t -> Z)
    (w : string * bucket -> Z) :
  q DlcApiEndpoint.StateWise.empty = 0 ->
  (forall pin district data e,
      q (DlcApiEndpoint.add_to_state pin district data e)
      = q e + w (pin, data)) ->
  forall data acc,
    sum_over q (fst (fold_left DlcApiEndpoint.rollup_step data acc))
    = sum_over q (fst acc) + fold_right Z.add 0 (map w data).
Proof.
  intros H0 Hq data.
  induction data as [|[pin b] data IH]; intros acc; cbn [fold_left map fold_right].
  - lia.
  - rewrite IH. unfold DlcApiEndpoint.rollup_step at 1. cbn [fst snd].
    unfold Dict.update.
    rewrite (sum_over_set q DlcApiEndpoint.StateWise.empty) by exact H0.
    rewrite Hq. lia.
Qed.

Lemma district_fold_sum (data : Dict.t bucket) acc :
  sum_over DlcApiEndpoint.DistrictWise.total_dlc_completed
           (snd (fold_left DlcApiEndpoint.rollup_step data acc))
  = sum_over DlcApiEndpoint.DistrictWise.total_dlc_completed (snd acc)
    + DlcReport.total_dlc_completed data.
Proof.
  unfold DlcReport.total_dlc_completed. revert acc.
  induction data as [|[pin b] data IH]; intros acc;
    cbn [fold_left map fold_right].
  - lia.
  - rewrite IH. unfold DlcApiEndpoint.rollup_step at 1. cbn [fst snd].
    unfold Dict.update.
    rewrite (sum_over_set _ DlcApiEndpoint.DistrictWise.empty) by reflexivity.
    cbn [DlcApiEndpoint.add_to_district
         DlcApiEndpoint.DistrictWise.total_dlc_completed].
    unfold count_of. simpl. lia.
Qed.

Lemma sum_over_map {V W : Type} (q : W -> Z) (f : V -> W) (d : Dict.t V) :
  sum_over q (map (fun kv => (fst kv, f (snd kv))) d)
  = sum_over (fun v => q (f v)) d.
Proof. unfold sum_over. rewrite map_map. reflexivity. Qed.

Lemma listed_count_app l1 l2 :
  listed_count (l1 ++ l2) = listed_count l1 + listed_count l2.
Proof.
  unfold listed_count. induction l1; simpl; lia.
Qed.

Lemma listed_count_perm l1 l2 :
  Permutation l1 l2 -> listed_count l1 = listed_count l2.
Proof.
  unfold listed_count. induction 1; simpl; lia.
Qed.

End BankRollupMore.

(** X12.  The bank-location rollup merges the age histograms key by
    key: for every state [S] and age group [g], the count of [g] in the
    entry of [S] is the sum, over the pincodes stored under [S], of
    their counts of [g]; and the sum of the whole histogram of [S] is
    the sum of the histograms of those pincodes. *)
Theorem X12_state_histograms_are_sums
    (data : Dict.t DlcBankAnalysis.bucket) (S g : string) :
  state_final_reads
    (fun e => Dict.get_default 0 g (DlcApiEndpoint.StateFinal.age_groups e))
    S data
  = sum_in_state (fun kv => count_in g (DlcBankAnalysis.age_groups (snd kv)))
                 S data
  /\ state_final_reads
       (fun e => Dict.total (DlcApiEndpoint.StateFinal.age_groups e)) S data
     = sum_in_state (fun kv => Dict.total (DlcBankAnalysis.age_groups (snd kv)))
                    S data.
Proof.
  split.
  - apply (state_final_reads_quantity
             (fun e => Dict.get_default 0 g (DlcApiEndpoint.StateWise.age_groups e)));
      [reflexivity | reflexivity |].
    intros pin district b e.
    cbn [DlcApiEndpoint.add_to_state DlcApiEndpoint.StateWise.age_groups snd].
    apply merge_reads.
  - apply (state_final_reads_quantity
             (fun e => Dict.total (DlcApiEndpoint.StateWise.age_groups e)));
      [reflexivity | reflexivity |].
    intros pin district b e.
    cbn [DlcApiEndpoint.add_to_state DlcApiEndpoint.StateWise.age_groups snd].
    apply merge_total.
Qed.

(** X13.  Nothing is lost or counted twice across states: the totals of
    all states of the bank-location rollup add up to the completions of
    all pincodes of the document, and so do the totals of all
    districts. *)
Theorem X13_states_partition_the_total (data : Dict.t DlcBankAnalysis.bucket) :
  sum_over DlcApiEndpoint.StateFinal.total_pensioners
           (DlcApiEndpoint.state_final data)
  = DlcReport.total_dlc_completed data
  /\ sum_over DlcApiEndpoint.DistrictFinal.total_dlc_completed
              (DlcApiEndpoint.district_final data)
     = DlcReport.total_dlc_completed data.
Proof.
  split.
  - unfold DlcApiEndpoint.state_final. rewrite sum_over_map.
    change (fun v => DlcApiEndpoint.StateFinal.total_pensioners
                       (DlcApiEndpoint.finish_state v))
      with DlcApiEndpoint.StateWise.total_dlc_completed.
    unfold DlcApiEndpoint.rollup.
    rewrite (rollup_fold_sum DlcApiEndpoint.StateWise.total_dlc_completed
               DlcBankAnalysis.count_of); [reflexivity | reflexivity |].
    intros; reflexivity.
  - unfold DlcApiEndpoint.district_final. rewrite sum_over_map.
    change (fun v => DlcApiEndpoint.DistrictFinal.total_dlc_completed
                       (DlcApiEndpoint.finish_district v))
      with DlcApiEndpoint.DistrictWise.total_dlc_completed.
    unfold DlcApiEndpoint.rollup. rewrite district_fold_sum. reflexivity.
Qed.

Section BankRollupEntries.

Import DlcBankAnalysis.

Lemma district_label_known (pin : string) :
  In (DlcApiEndpoint.get_district_from_pincode pin) endpoint_district_labels.
Proof.
  unfold DlcApiEndpoint.get_district_from_pincode, endpoint_district_labels.
  destruct (Py.int_of_str _); [|now left].
  right. apply first_match_label.
Qed.

Lemma rollup_invariant
    (P : Dict.t DlcApiEndpoint.StateWise.t * Dict.t DlcApiEndpoint.DistrictWise.t
         -> Prop) (Q : string * bucket -> Prop) :
  (forall acc kv, Q kv -> P acc -> P (DlcApiEndpoint.rollup_step acc kv)) ->
  forall data acc, Forall Q data -> P acc ->
                   P (fold_left DlcApiEndpoint.rollup_step data acc).
Proof.
  intros Hstep data. induction data as [|kv data IH]; intros acc HQ H;
    simpl; [exact H|].
  inversion HQ; subst. apply IH; auto.
Qed.

(** With buckets whose total is the sum of their age groups, every
    state entry has the same property and is not empty. *)
Lemma rollup_entries_balanced (data : Dict.t bucket) :
  all_well_formed data ->
  Forall (fun kv =>
            1 <= DlcApiEndpoint.StateWise.total_dlc_completed (snd kv) /\
            DlcApiEndpoint.StateWise.total_dlc_completed (snd kv)
            = Dict.total (DlcApiEndpoint.StateWise.age_groups (snd kv)))
         (fst (DlcApiEndpoint.rollup data)).
Proof.
  intros Hwf. unfold DlcApiEndpoint.rollup.
  apply (rollup_invariant
           (fun acc => Forall (fun kv =>
              1 <= DlcApiEndpoint.StateWise.total_dlc_completed (snd kv) /\
              DlcApiEndpoint.StateWise.total_dlc_completed (snd kv)
              = Dict.total (DlcApiEndpoint.StateWise.age_groups (snd kv)))
              (fst acc))
           (fun kv => well_formed (snd kv)));
    [|exact Hwf|constructor].
  intros acc [pin b] (H1 & _ & Ha & _) H. cbn [snd] in *.
  unfold DlcApiEndpoint.rollup_step. cbn [fst snd].
  apply (Forall_update
           (fun e => 1 <= DlcApiEndpoint.StateWise.total_dlc_completed e /\
                     DlcApiEndpoint.StateWise.total_dlc_completed e
                     = Dict.total (DlcApiEndpoint.StateWise.age_groups e)));
    [exact H| |].
  - intros e _ [He1 He2].
    cbn [DlcApiEndpoint.add_to_state DlcApiEndpoint.StateWise.total_dlc_completed
         DlcApiEndpoint.StateWise.age_groups].
    rewrite merge_total. lia.
  - intros _.
    cbn [DlcApiEndpoint.add_to_state DlcApiEndpoint.StateWise.total_dlc_completed
         DlcApiEndpoint.StateWise.age_groups DlcApiEndpoint.StateWise.empty].
    rewrite merge_total. unfold Dict.total at 1. simpl. lia.
Qed.

(** An update that turns one property of the values into another. *)
Lemma Forall_update_change {V : Type} (P Q : V -> Prop) (dflt : V)
    (d : Dict.t V) (k : string) (f : V -> V) :
  Forall (fun kv => P (snd kv)) d ->
  (forall v, P v -> Q v) ->
  (forall v, Dict.get k d = Some v -> P v -> Q (f v)) ->
  (Dict.get k d = None -> Q (f dflt)) ->
  Forall (fun kv => Q (snd kv)) (Dict.update dflt k f d).
Proof.
  intros Hall Hweak Hf Hd. rewrite Forall_forall in *.
  intros kv Hin. unfold Dict.update in Hin.
  apply In_set in Hin as [->|Hin]; [|auto].
  simpl. unfold Dict.get_default.
  destruct (Dict.get k d) as [v|] eqn:E; [|auto].
  apply Hf; [reflexivity|]. apply (Hall (k, v)). now apply get_In.
Qed.

(** The counts filed per pincode add up to the total of the state when
    no pincode comes twice. *)
Lemma rollup_pincode_counts (data : Dict.t bucket) acc :
  NoDup (Dict.keys data) ->
  Forall (fun kv =>
            Dict.total (DlcApiEndpoint.StateWise.pincode_counts (snd kv))
            = DlcApiEndpoint.StateWise.total_dlc_completed (snd kv) /\
            forall k, In k (Dict.keys (DlcApiEndpoint.StateWise.pincode_counts (snd kv))) ->
                      ~ In k (Dict.keys data))
         (fst acc) ->
  Forall (fun kv =>
            Dict.total (DlcApiEndpoint.StateWise.pincode_counts (snd kv))
            = DlcApiEndpoint.StateWise.total_dlc_completed (snd kv))
         (fst (fold_left DlcApiEndpoint.rollup_step data acc)).
Proof.
  revert acc. induction data as [|[pin b] data IH]; intros acc Hnd H.
  - simpl. eapply Forall_impl; [|exact H]. now intros kv [H1 _].
  - cbn [fold_left]. simpl in Hnd. inversion Hnd as [|? ? Hnot Hnd']; subst.
    apply IH; [exact Hnd'|].
    unfold DlcApiEndpoint.rollup_step. cbn [fst snd].
    apply (Forall_update_change
             (fun e =>
                Dict.total (DlcApiEndpoint.StateWise.pincode_counts e)
                = DlcApiEndpoint.StateWise.total_dlc_completed e /\
                forall k, In k (Dict.keys (DlcApiEndpoint.StateWise.pincode_counts e)) ->
                          ~ In k (Dict.keys ((pin, b) :: data)))
             (fun e =>
                Dict.total (DlcApiEndpoint.StateWise.pincode_counts e)
                = DlcApiEndpoint.StateWise.total_dlc_completed e /\
                forall k, In k (Dict.keys (DlcApiEndpoint.StateWise.pincode_counts e)) ->
                          ~ In k (Dict.keys data))).
    + exact H.
    + intros e [H1 H2]. split; [exact H1|].
      intros k Hk Hin. apply (H2 k Hk). simpl. now right.
    + intros e _ [He1 He2].
      cbn [DlcApiEndpoint.add_to_state DlcApiEndpoint.StateWise.pincode_counts
           DlcApiEndpoint.StateWise.total_dlc_completed].
      assert (Hfresh : Dict.get pin (DlcApiEndpoint.StateWise.pincode_counts e) = None).
      { apply get_None_not_key. intros Hk. apply (He2 pin Hk). simpl. now left. }
      split.
      * rewrite total_set. unfold Dict.get_default. rewrite Hfresh. lia.
      * intros k Hk. rewrite keys_set, Hfresh in Hk.
        apply in_app_or in Hk as [Hk|[<-|[]]]; [|exact Hnot].
        intros Hin. apply (He2 k Hk). simpl. now right.
    + intros _.
      cbn [DlcApiEndpoint.add_to_state DlcApiEndpoint.StateWise.pincode_counts
           DlcApiEndpoint.StateWise.total_dlc_completed
           DlcApiEndpoint.StateWise.empty Dict.set].
      split; [unfold Dict.total; simpl; lia|].
      intros k [<-|[]]. exact Hnot.
Qed.

End BankRollupEntries.

(** X14.  Every key of the district view has the shape
    [district_state]: it is a label of [get_district_from_pincode],
    an underscore, and the state stored in the entry. *)
Theorem X14_district_keys_carry_their_state
    (data : Dict.t DlcBankAnalysis.bucket) :
  Forall (fun kv =>
            exists d, In d endpoint_district_labels /\
                      fst kv = d ++ "_" ++ DlcApiEndpoint.DistrictFinal.state (snd kv))
         (DlcApiEndpoint.district_final data).
Proof.
  unfold DlcApiEndpoint.district_final.
  apply Forall_map. cbn [fst snd].
  change (fun kv : string * DlcApiEndpoint.DistrictWise.t =>
            exists d, In d endpoint_district_labels /\
              fst kv = d ++ "_" ++ DlcApiEndpoint.DistrictFinal.state
                                     (DlcApiEndpoint.finish_district (snd kv)))
    with (fun kv : string * DlcApiEndpoint.DistrictWise.t =>
            (fun k e => exists d, In d endpoint_district_labels /\
               k = d ++ "_" ++ DlcApiEndpoint.DistrictWise.state e)
              (fst kv) (snd kv)).
  unfold DlcApiEndpoint.rollup.
  apply (rollup_invariant
           (fun acc => Forall (fun kv =>
              (fun k e => exists d, In d endpoint_district_labels /\
                 k = d ++ "_" ++ DlcApiEndpoint.DistrictWise.state e)
                (fst kv) (snd kv)) (snd acc))
           (fun _ => True));
    [|apply Forall_forall; auto|constructor].
  intros acc [pin b] _ H. unfold DlcApiEndpoint.rollup_step. cbn [fst snd].
  apply (Forall_update_keyed
           (fun k e => exists d, In d endpoint_district_labels /\
              k = d ++ "_" ++ DlcApiEndpoint.DistrictWise.state e));
    [exact H| |];
    intros; exists (DlcApiEndpoint.get_district_from_pincode pin);
    (split; [apply district_label_known | reflexivity]).
Qed.

(** X15.  Served from a document the analysis wrote, every state of the
    bank-location view has at least one pensioner, and its total equals
    both the sum of its age histogram and the sum of its per-pincode
    counts. *)
Theorem X15_state_entries_of_an_analysis_balance
    (cy : Z) (files : list Excel.file) :
  Forall (fun kv =>
            let e := snd kv in
            1 <= DlcApiEndpoint.StateFinal.total_pensioners e
            /\ DlcApiEndpoint.StateFinal.total_pensioners e
               = Dict.total (DlcApiEndpoint.StateFinal.age_groups e)
            /\ DlcApiEndpoint.StateFinal.total_pensioners e
               = Dict.total (DlcApiEndpoint.StateFinal.pincode_counts e))
         (DlcApiEndpoint.state_final
            (DlcBankAnalysis.analyze_dlc_by_bank_pincode cy files)).
Proof.
  set (data := DlcBankAnalysis.analyze_dlc_by_bank_pincode cy files).
  pose proof (rollup_entries_balanced data (analyze_well_formed cy files)) as H1.
  assert (Hnd : NoDup (Dict.keys data)).
  { unfold data. rewrite final_data_keeps_all.
    apply (accumulate_invariant (fun acc => NoDup (Dict.keys (fst acc))));
      [constructor | intros; now apply process_row_nodup]. }
  pose proof (rollup_pincode_counts data ([], []) Hnd ltac:(constructor)) as H2.
  fold (DlcApiEndpoint.rollup data) in H2.
  unfold DlcApiEndpoint.state_final. apply Forall_map. cbn [fst snd].
  rewrite Forall_forall in *. intros kv Hin. cbv zeta.
  destruct (H1 kv Hin) as [Ha Hb]. specialize (H2 kv Hin).
  cbn [DlcApiEndpoint.finish_state DlcApiEndpoint.StateFinal.total_pensioners
       DlcApiEndpoint.StateFinal.age_groups
       DlcApiEndpoint.StateFinal.pincode_counts].
  repeat split; [exact Ha | exact Hb | now symmetry].
Qed.

(** X16.  The list [bank_pincodes] of a state holds one entry per
    pincode of the state, cut to twenty; when the state has at most
    twenty pincodes the counts listed add up to its total. *)
Theorem X16_bank_pincodes_list
    (data : Dict.t DlcBankAnalysis.bucket) (S : string)
    (e : DlcApiEndpoint.StateFinal.t) :
  Dict.get S (DlcApiEndpoint.state_final data) = Some e ->
  let n := List.length (buckets_of_state S data) in
  List.length (DlcApiEndpoint.StateFinal.bank_pincodes e) = Nat.min 20 n
  /\ ((n <= 20)%nat ->
      listed_count (DlcApiEndpoint.StateFinal.bank_pincodes e)
      = DlcApiEndpoint.StateFinal.total_pensioners e).
Proof.
  intros He. cbv zeta.
  unfold DlcApiEndpoint.state_final in He. rewrite get_map_values in He.
  destruct (Dict.get S (fst (DlcApiEndpoint.rollup data))) as [w|] eqn:Ew;
    [|discriminate]. injection He as <-.
  assert (Hlen : Z.of_nat (List.length (DlcApiEndpoint.StateWise.bank_pincodes w))
                 = Z.of_nat (List.length (buckets_of_state S data))).
  { pose proof (rollup_fold_quantity
                  (fun e => Z.of_nat (List.length (DlcApiEndpoint.StateWise.bank_pincodes e)))
                  (fun _ => 1) S) as H.
    specialize (H ltac:(intros; cbn [DlcApiEndpoint.add_to_state
                          DlcApiEndpoint.StateWise.bank_pincodes];
                        rewrite length_app; simpl; lia) data ([], [])).
    fold (DlcApiEndpoint.rollup data) in H.
    unfold Dict.get_default in H. rewrite Ew in H. simpl in H. rewrite H.
    unfold sum_in_state. clear.
    induction (buckets_of_state S data) as [|x l IH];
      cbn [map fold_right List.length]; [reflexivity|].
    rewrite IH, Nat2Z.inj_succ. lia. }
  assert (Hsum : listed_count (DlcApiEndpoint.StateWise.bank_pincodes w)
                 = DlcApiEndpoint.StateWise.total_dlc_completed w).
  { pose proof (rollup_fold_quantity
                  (fun e => listed_count (DlcApiEndpoint.StateWise.bank_pincodes e)
                            - DlcApiEndpoint.StateWise.total_dlc_completed e)
                  (fun _ => 0) S) as H.
    specialize (H ltac:(intros; cbn [DlcApiEndpoint.add_to_state
                          DlcApiEndpoint.StateWise.bank_pincodes
                          DlcApiEndpoint.StateWise.total_dlc_completed];
                        rewrite listed_count_app; unfold listed_count; simpl; lia)
                  data ([], [])).
    fold (DlcApiEndpoint.rollup data) in H.
    unfold Dict.get_default in H. rewrite Ew in H. simpl in H.
    assert (sum_in_state (fun _ => 0) S data = 0).
    { unfold sum_in_state. clear. induction (buckets_of_state S data); simpl; lia. }
    unfold listed_count in *. simpl in H. lia. }
  cbn [DlcApiEndpoint.finish_state DlcApiEndpoint.StateFinal.bank_pincodes
       DlcApiEndpoint.StateFinal.total_pensioners].
  pose proof (sorted_reverse_perm DlcApiEndpoint.StateWise.dlc_count
                (DlcApiEndpoint.StateWise.bank_pincodes w)) as Hperm.
  pose proof (Permutation_length Hperm) as Hpl.
  split.
  - rewrite length_firstn. lia.
  - intros Hn. rewrite firstn_all2 by lia.
    rewrite (listed_count_perm _ _ Hperm). exact Hsum.
Qed.

Lemma X16_witness :
  let data := DlcBankAnalysis.analyze_dlc_by_bank_pincode 2024 [Some eight_rows] in
  exists e,
    Dict.get "Maharashtra" (DlcApiEndpoint.state_final data) = Some e /\
    List.length (DlcApiEndpoint.StateFinal.bank_pincodes e)
    = Nat.min 20 (List.length (buckets_of_state "Maharashtra" data))
    /\ ((List.length (buckets_of_state "Maharashtra" data) <= 20)%nat ->
        listed_count (DlcApiEndpoint.StateFinal.bank_pincodes e)
        = DlcApiEndpoint.StateFinal.total_pensioners e).
Proof.
  cbv zeta. eexists. split; [vm_compute; reflexivity|].
  apply (X16_bank_pincodes_list _ "Maharashtra"). vm_compute. reflexivity.
Defined.

(** ** More on the rollup by the state of residence *)

Section ResidenceMore.

Import DlcBankAnalysis.

Lemma fold_opt_additive {A B : Type} (q : A -> Z) (w : B -> Z)
    (f : A -> B -> option A) :
  (forall a x a', f a x = Some a' -> q a' = q a + w x) ->
  forall l a a', fold_opt f l a = Some a' ->
                 q a' = q a + fold_right Z.add 0 (map w l).
Proof.
  intros Hf l. induction l as [|x l IH]; intros a a'; simpl.
  - intros [= ->]. lia.
  - destruct (f a x) as [a1|] eqn:E; simpl; [|discriminate].
    intros H. rewrite (IH a1 a' H), (Hf a x a1 E). lia.
Qed.

(** The loop over the age groups touches nothing but the histogram. *)
Lemma distribute_keeps (ages : Dict.t Z) (P T : Z) (e e' : App.state_entry) :
  fold_opt (App.distribute_step P T) ages e = Some e' ->
  App.total_pensioners e' = App.total_pensioners e /\
  App.bank_locations e' = App.bank_locations e /\
  App.pincode_counts e' = App.pincode_counts e.
Proof.
  intros H.
  refine (fold_opt_invariant
            (fun x => App.total_pensioners x = App.total_pensioners e /\
                      App.bank_locations x = App.bank_locations e /\
                      App.pincode_counts x = App.pincode_counts e)
            _ _ _ _ _ H _); [|repeat split; reflexivity].
  intros a gc a' Hs (H1 & H2 & H3). unfold App.distribute_step in Hs.
  destruct (App.proportional_count _ _ _); simpl in Hs; [|discriminate].
  injection Hs as <-. simpl. auto.
Qed.

(** What one residence entry does to the totals, whatever the floats
    give. *)
Lemma credit_state_entry (data : bucket) swd (sc : string * Z) swd' :
  App.credit_state data swd sc = Some swd' ->
  App.is_residence (fst sc) = true ->
  exists e',
    swd' = Dict.set (fst sc) e' swd /\
    App.total_pensioners e'
    = App.total_pensioners (Dict.get_default App.new_entry (fst sc) swd)
      + snd sc /\
    App.bank_locations e'
    = Dict.incr (state data) (snd sc)
        (App.bank_locations (Dict.get_default App.new_entry (fst sc) swd)) /\
    App.pincode_counts e'
    = App.pincode_counts (Dict.get_default App.new_entry (fst sc) swd).
Proof.
  unfold App.credit_state. intros H Hres. rewrite Hres in H.
  match type of H with (x <- ?o ;; _) = _ => destruct o as [e'|] eqn:E end;
    simpl in H; [|discriminate].
  injection H as <-. exists e'. split; [reflexivity|].
  destruct (0 <? total_dlc_completed data).
  - apply distribute_keeps in E as (E1 & E2 & E3). rewrite E1, E2, E3. now simpl.
  - injection E as <-. now simpl.
Qed.

Lemma resident_total_set_same swd s e :
  resident_total s (Dict.set s e swd) = App.total_pensioners e.
Proof. unfold resident_total, Dict.get_default. now rewrite get_set_same. Qed.

Lemma resident_total_set_other swd s s' e :
  s <> s' -> resident_total s' (Dict.set s e swd) = resident_total s' swd.
Proof.
  intros H. unfold resident_total, Dict.get_default. now rewrite get_set_other.
Qed.

Lemma credit_state_resident (s : string) (data : bucket) swd sc swd' :
  App.credit_state data swd sc = Some swd' ->
  resident_total s swd'
  = resident_total s swd
    + (if App.is_residence (fst sc) && String.eqb (fst sc) s then snd sc else 0).
Proof.
  intros H. destruct (App.is_residence (fst sc)) eqn:Hres.
  - destruct (credit_state_entry data swd sc swd' H Hres) as (e' & -> & Ht & _ & _).
    cbn [andb]. key_cases (fst sc) s.
    + rewrite <- E. rewrite resident_total_set_same, Ht. reflexivity.
    + rewrite resident_total_set_other by assumption. lia.
  - rewrite credit_state_sentinel in H by assumption. injection H as <-.
    simpl. lia.
Qed.

Lemma count_in_filter_residence (s : string) (l : Dict.t Z) :
  fold_right Z.add 0
    (map (fun sc => if App.is_residence (fst sc) && String.eqb (fst sc) s
                    then snd sc else 0) l)
  = count_in s (filter (fun sc => App.is_residence (fst sc)) l).
Proof.
  unfold count_in. induction l as [|sc l IH]; [reflexivity|].
  cbn [map fold_right filter]. rewrite IH.
  destruct (App.is_residence (fst sc)); cbn [andb filter]; [|lia].
  destruct (String.eqb (fst sc) s); simpl; lia.
Qed.

Lemma process_bucket_resident (s : string) swd kv swd' :
  App.process_bucket swd kv = Some swd' ->
  resident_total s swd'
  = resident_total s swd + count_in s (residence_states (snd kv)).
Proof.
  unfold App.process_bucket. intros H.
  rewrite (fold_opt_additive (resident_total s)
             (fun sc => if App.is_residence (fst sc) && String.eqb (fst sc) s
                        then snd sc else 0)
             (App.credit_state (snd kv))
             (fun a x a' => credit_state_resident s (snd kv) a x a') _ _ _ H).
  now rewrite count_in_filter_residence.
Qed.

(** The bank locations of every entry add up to its pensioners. *)
Lemma credit_state_banks (data : bucket) swd sc swd' :
  App.credit_state data swd sc = Some swd' ->
  Forall (fun kv => Dict.total (App.bank_locations (snd kv))
                    = App.total_pensioners (snd kv)) swd ->
  Forall (fun kv => Dict.total (App.bank_locations (snd kv))
                    = App.total_pensioners (snd kv)) swd'.
Proof.
  intros H Hall. destruct (App.is_residence (fst sc)) eqn:Hres.
  - destruct (credit_state_entry data swd sc swd' H Hres) as (e' & -> & Ht & Hb & _).
    rewrite Forall_forall in *. intros kv Hin.
    apply In_set in Hin as [->|Hin]; [|auto]. cbn [snd].
    rewrite Hb, Ht, total_incr. unfold Dict.get_default.
    destruct (Dict.get (fst sc) swd) as [e|] eqn:E.
    + apply get_In in E. specialize (Hall _ E). simpl in Hall. lia.
    + reflexivity.
  - rewrite credit_state_sentinel in H by assumption. now injection H as <-.
Qed.

(** A bucket whose total is not positive is credited without any
    division. *)
Lemma credit_state_no_division (data : bucket) swd (sc : string * Z) :
  total_dlc_completed data <= 0 ->
  exists swd',
    App.credit_state data swd sc = Some swd' /\
    histogram_total swd' = histogram_total swd /\
    forall s, App.age_groups (Dict.get_default App.new_entry s swd')
              = App.age_groups (Dict.get_default App.new_entry s swd).
Proof.
  intros HT. unfold App.credit_state.
  destruct (App.is_residence (fst sc)); [|eauto].
  replace (0 <? total_dlc_completed data) with false
    by (symmetry; apply Z.ltb_ge; lia).
  cbn [bind]. eexists. split; [reflexivity|]. split.
  - unfold histogram_total.
    rewrite (sum_over_set _ App.new_entry) by reflexivity.
    cbn [App.add_pensioners App.age_groups]. lia.
  - intros s. unfold Dict.get_default at 1. key_cases (fst sc) s.
    + subst s. now rewrite get_set_same.
    + now rewrite get_set_other by assumption.
Qed.

Lemma shares_nonneg (ages : Dict.t Z) (P T : Z) :
  0 < T -> 0 <= P -> Forall (fun gc => 0 <= snd gc) ages ->
  0 <= shares ages P T.
Proof.
  intros HT HP Hall. unfold shares.
  induction Hall as [|gc ages Hg _ IH]; simpl; [lia|].
  assert (0 <= snd gc * P / T) by (apply Z.div_pos; nia). lia.
Qed.

(** The shares added to the histogram of an entry are not negative. *)
Lemma distribute_nonneg (ages : Dict.t Z) (P T : Z) (e e' : App.state_entry) :
  0 <= P -> 0 < T -> exact_range ages P ->
  fold_opt (App.distribute_step P T) ages e = Some e' ->
  Forall (fun gc => 0 <= snd gc) (App.age_groups e) ->
  Forall (fun gc => 0 <= snd gc) (App.age_groups e').
Proof.
  intros HP HT Hr. revert e.
  induction Hr as [|[g0 A0] ages [HA Hlt] _ IH]; intros e Hf Hall.
  - now injection Hf as <-.
  - cbn [fst snd] in HA, Hlt. cbn [fold_opt] in Hf.
    unfold App.distribute_step at 1 in Hf. cbn [fst snd] in Hf.
    rewrite (proportional_count_exact A0 P T HA HP Hlt HT) in Hf.
    cbn [bind] in Hf. apply (IH _ Hf).
    cbn [App.add_age App.age_groups]. unfold Dict.incr.
    apply (Forall_update (fun v => 0 <= v)); [exact Hall| |].
    + intros v _ Hv. assert (0 <= A0 * P / T) by (apply Z.div_pos; nia). lia.
    + intros _. assert (0 <= A0 * P / T) by (apply Z.div_pos; nia). lia.
Qed.

(** Crediting from a well-formed bucket keeps every entry sound. *)
Lemma credit_state_sound (data : bucket) swd (ps : string) (P : Z) :
  well_formed data ->
  App.is_residence ps = true -> 0 <= P ->
  exact_range (age_groups data) P ->
  Forall (fun kv => entry_sound (snd kv)) swd ->
  exists swd',
    App.credit_state data swd (ps, P) = Some swd' /\
    Forall (fun kv => entry_sound (snd kv)) swd'.
Proof.
  intros (H1 & _ & Ha & _ & Fa & _) Hres HP Hr Hall.
  assert (HT : 0 < total_dlc_completed data) by lia.
  assert (Fa0 : Forall (fun gc => 0 <= snd gc) (age_groups data)).
  { eapply Forall_impl; [|exact Fa]. simpl; intros; lia. }
  unfold App.credit_state; cbn [fst snd]. rewrite Hres.
  replace (0 <? total_dlc_completed data) with true
    by (symmetry; now apply Z.ltb_lt).
  set (e0 := Dict.get_default App.new_entry ps swd).
  destruct (distribute_exact (age_groups data) P (total_dlc_completed data)
              (App.add_pensioners (state data) P e0) HP HT Hr)
    as (e' & Hfold & Ht & Hb & Hs & _).
  rewrite Hfold. cbn [bind]. eexists. split; [reflexivity|].
  assert (He0 : entry_sound e0).
  { unfold e0, Dict.get_default.
    destruct (Dict.get ps swd) as [e|] eqn:E.
    - apply get_In in E. rewrite Forall_forall in Hall. apply (Hall _ E).
    - unfold entry_sound, Dict.total. simpl. repeat split; [constructor | lia]. }
  assert (Hnn : Forall (fun gc => 0 <= snd gc) (App.age_groups e')).
  { apply (distribute_nonneg _ _ _ _ _ HP HT Hr Hfold).
    cbn [App.add_pensioners App.age_groups]. apply He0. }
  pose proof (shares_of_balanced (age_groups data) P (total_dlc_completed data)
                HT HP Fa0 (eq_sym Ha)) as [_ Hsh].
  pose proof (shares_nonneg (age_groups data) P (total_dlc_completed data)
                HT HP Fa0) as Hsh0.
  apply Forall_forall. intros kv Hin.
  apply In_set in Hin as [->|Hin];
    [|rewrite Forall_forall in Hall; auto]. cbn [snd].
  destruct He0 as (_ & Hhi & Hbank).
  cbn [App.add_pensioners App.total_pensioners App.bank_locations
       App.age_groups] in *.
  unfold entry_sound. rewrite Ht, Hb, Hs, total_incr.
  split; [exact Hnn | lia].
Qed.

Lemma credit_fold_sound (data : bucket) (l : Dict.t Z) swd :
  well_formed data ->
  Forall (fun sc => App.is_residence (fst sc) = true /\ 0 <= snd sc /\
                    exact_range (age_groups data) (snd sc)) l ->
  Forall (fun kv => entry_sound (snd kv)) swd ->
  exists swd',
    fold_opt (App.credit_state data) l swd = Some swd' /\
    Forall (fun kv => entry_sound (snd kv)) swd'.
Proof.
  intros Hwf Hl. revert swd.
  induction Hl as [|[ps P] l (Hres & HP & Hr) _ IH]; intros swd Hall.
  - exists swd. split; [reflexivity | exact Hall].
  - cbn [fst snd] in *.
    destruct (credit_state_sound data swd ps P Hwf Hres HP Hr Hall)
      as (swd1 & E1 & Hall1).
    cbn [fold_opt]. rewrite E1. cbn [bind]. apply (IH swd1 Hall1).
Qed.

Lemma process_bucket_sound (pin : string) (b : bucket) swd :
  well_formed b ->
  total_dlc_completed b * total_dlc_completed b < 2 ^ 53 ->
  Forall (fun kv => entry_sound (snd kv)) swd ->
  exists swd',
    App.process_bucket swd (pin, b) = Some swd' /\
    Forall (fun kv => entry_sound (snd kv)) swd'.
Proof.
  intros Hwf Hsq Hall. unfold App.process_bucket; cbn [snd].
  rewrite <- (credit_fold_filter b b) by reflexivity.
  apply credit_fold_sound; [exact Hwf| |exact Hall].
  pose proof (well_formed_exact_range b Hwf Hsq) as Hr.
  unfold residence_states in Hr. rewrite Forall_forall in *.
  intros sc Hin. split; [|now apply Hr].
  now apply filter_In in Hin.
Qed.

(** Nothing ever writes [pincode_counts]. *)
Lemma credit_state_pincode_counts (data : bucket) swd sc swd' :
  App.credit_state data swd sc = Some swd' ->
  Forall (fun kv => App.pincode_counts (snd kv) = []) swd ->
  Forall (fun kv => App.pincode_counts (snd kv) = []) swd'.
Proof.
  intros H Hall. destruct (App.is_residence (fst sc)) eqn:Hres.
  - destruct (credit_state_entry data swd sc swd' H Hres)
      as (e' & -> & _ & _ & Hp).
    rewrite Forall_forall in *. intros kv Hin.
    apply In_set in Hin as [->|Hin]; [|auto]. cbn [snd].
    rewrite Hp. unfold Dict.get_default.
    destruct (Dict.get (fst sc) swd) as [e|] eqn:E; [|reflexivity].
    apply get_In in E. apply (Hall _ E).
  - rewrite credit_state_sentinel in H by assumption. now injection H as <-.
Qed.

Lemma credit_state_population (data : bucket) swd sc swd' :
  App.credit_state data swd sc = Some swd' ->
  sum_over App.total_pensioners swd'
  = sum_over App.total_pensioners swd
    + (if App.is_residence (fst sc) then snd sc else 0).
Proof.
  intros H. destruct (App.is_residence (fst sc)) eqn:Hres.
  - destruct (credit_state_entry data swd sc swd' H Hres)
      as (e' & -> & Ht & _ & _).
    rewrite (sum_over_set _ App.new_entry) by reflexivity. lia.
  - rewrite credit_state_sentinel in H by assumption. injection H as <-. lia.
Qed.

Lemma total_residence_states (l : Dict.t Z) :
  fold_right Z.add 0
    (map (fun sc => if App.is_residence (fst sc) then snd sc else 0) l)
  = Dict.total (filter (fun sc => App.is_residence (fst sc)) l).
Proof.
  unfold Dict.total, Dict.values.
  induction l as [|sc l IH]; [reflexivity|]. cbn [map fold_right filter].
  rewrite IH. destruct (App.is_residence (fst sc)); simpl; lia.
Qed.

Lemma rollup_sound (data : Dict.t bucket) swd :
  all_well_formed data ->
  Forall (fun kv => total_dlc_completed (snd kv) * total_dlc_completed (snd kv)
                    < 2 ^ 53) data ->
  Forall (fun kv => entry_sound (snd kv)) swd ->
  exists swd',
    fold_opt App.process_bucket data swd = Some swd' /\
    Forall (fun kv => entry_sound (snd kv)) swd'.
Proof.
  intros Hwf. revert swd.
  induction Hwf as [|[pin b] data Hb _ IH]; intros swd Hsq Hall.
  - exists swd. split; [reflexivity | exact Hall].
  - inversion Hsq as [|? ? Hb2 Hsq']; subst. cbn [snd] in *.
    destruct (process_bucket_sound pin b swd Hb Hb2 Hall) as (swd1 & E1 & Hall1).
    cbn [fold_opt]. rewrite E1. cbn [bind]. apply (IH swd1 Hsq' Hall1).
Qed.

(** No bucket of a run holds more than the records processed. *)
Lemma analysis_totals_bounded (cy : Z) (files : list Excel.file) :
  Forall (fun kv => total_dlc_completed (snd kv) <= snd (accumulate cy files))
         (analyze_dlc_by_bank_pincode cy files).
Proof.
  rewrite final_data_keeps_all.
  assert (Hsum : snd (accumulate cy files)
                 = sum_over total_dlc_completed (fst (accumulate cy files))).
  { apply (accumulate_invariant
             (fun acc => snd acc = sum_over total_dlc_completed (fst acc)));
      [reflexivity | intros; now apply process_row_sum]. }
  destruct (sum_ge_length _ (accumulate_well_formed cy files)) as [_ Hall].
  now rewrite Hsum.
Qed.

End ResidenceMore.

(** X17.  The residence rollup of [app.py] answers every document
    written by a run of fewer than [2^26] records: no division raises,
    the response repeats the buckets, reports the number of bank
    pincodes as [total_records], and in every state entry no
    redistributed age count is negative and together they add up to no
    more than [total_pensioners], which the bank locations add up to
    exactly. *)
Theorem X17_app_answers_an_analysis
    (cy : Z) (timestamp : string) (files : list Excel.file) :
  let doc := DlcBankAnalysis.persisted cy timestamp files in
  DlcBankAnalysis.total_records_processed doc < 2 ^ 26 ->
  exists b,
    App.get_dlc_bank_pincode_data (Some doc) = Ok b /\
    App.bank_pincode_data b = DlcBankAnalysis.bank_pincode_data doc /\
    App.total_records b = DlcBankAnalysis.total_bank_pincodes doc /\
    Forall (fun kv =>
              Forall (fun gc => 0 <= snd gc)
                     (App.StateFinal.age_groups (snd kv)) /\
              0 <= Dict.total (App.StateFinal.age_groups (snd kv))
                <= App.StateFinal.total_pensioners (snd kv) /\
              Dict.total (App.StateFinal.bank_locations (snd kv))
              = App.StateFinal.total_pensioners (snd kv))
           (App.state_wise_data b).
Proof.
  cbv zeta. unfold DlcBankAnalysis.persisted, DlcBankAnalysis.complete_data.
  cbn [DlcBankAnalysis.total_records_processed]. intros HN.
  unfold App.get_dlc_bank_pincode_data.
  cbn [DlcBankAnalysis.bank_pincode_data DlcBankAnalysis.total_bank_pincodes
       DlcBankAnalysis.analysis_timestamp].
  destruct (rollup_sound (DlcBankAnalysis.analyze_dlc_by_bank_pincode cy files) []
              (analyze_well_formed cy files)) as (swd & E & Hall).
  - pose proof (analysis_totals_bounded cy files) as Hb.
    pose proof (analyze_well_formed cy files) as Hwf.
    unfold all_well_formed in Hwf. rewrite Forall_forall in *.
    intros kv Hin. specialize (Hb kv Hin). destruct (Hwf kv Hin) as [H1 _].
    assert (2 ^ 26 * 2 ^ 26 < 2 ^ 53) by (vm_compute; reflexivity). nia.
  - constructor.
  - unfold App.rollup. rewrite E. eexists. split; [reflexivity|].
    cbn [App.bank_pincode_data App.total_records App.state_wise_data].
    repeat split. apply Forall_forall. intros kv Hin.
    apply in_map_iff in Hin as (kv0 & <- & Hin). cbn [snd App.finish_state
      App.StateFinal.age_groups App.StateFinal.total_pensioners
      App.StateFinal.bank_locations].
    rewrite Forall_forall in Hall.
    destruct (Hall kv0 Hin) as (Hnn & Hle & Hbank).
    split; [exact Hnn|]. split; [|exact Hbank]. split; [|exact Hle].
    clear -Hnn. unfold Dict.total, Dict.values.
    induction Hnn as [|gc l Hg _ IH]; simpl; lia.
Qed.

Lemma X17_witness :
  exists b,
    App.get_dlc_bank_pincode_data
      (Some (DlcBankAnalysis.persisted 2024 "2025-08-25 12:09:46" [Some eight_rows]))
    = Ok b /\
    App.total_records b = 1.
Proof.
  destruct (X17_app_answers_an_analysis 2024 "2025-08-25 12:09:46"
              [Some eight_rows]) as (b & E & _ & Ht & _).
  - vm_compute. reflexivity.
  - exists b. split; [exact E|]. rewrite Ht. vm_compute. reflexivity.
Defined.

(** X18.  Whenever the residence rollup of [app.py] returns, the
    pensioners it files under a state are exactly those the buckets
    list under that state (sentinel labels apart), whatever the float
    divisions gave; the pensioners of all states together are those
    listed under residence states; in every entry the bank locations
    add up to the pensioners. *)
Theorem X18_residence_totals_are_exact
    (data : Dict.t DlcBankAnalysis.bucket) (swd : Dict.t App.state_entry) :
  App.rollup data = Some swd ->
  (forall s, resident_total s swd = residents_of s data) /\
  sum_over App.total_pensioners swd
  = sum_over (fun b => Dict.total (residence_states b)) data /\
  Forall (fun kv => Dict.total (App.bank_locations (snd kv))
                    = App.total_pensioners (snd kv)) swd.
Proof.
  unfold App.rollup. intros H. split; [|split].
  - intros s.
    rewrite (fold_opt_additive (resident_total s)
               (fun kv => count_in s (residence_states (snd kv)))
               App.process_bucket
               (fun a x a' => process_bucket_resident s a x a') _ _ _ H).
    unfold residents_of, resident_total. simpl. reflexivity.
  - rewrite (fold_opt_additive (sum_over App.total_pensioners)
               (fun kv => Dict.total (residence_states (snd kv)))
               App.process_bucket) with (l := data) (a := []) by
      first [ exact H
            | intros a x a' Hx; unfold App.process_bucket in Hx;
              rewrite (fold_opt_additive (sum_over App.total_pensioners)
                         (fun sc => if App.is_residence (fst sc) then snd sc else 0)
                         (App.credit_state (snd x))
                         (fun a0 x0 a0' => credit_state_population (snd x) a0 x0 a0')
                         _ _ _ Hx);
              now rewrite total_residence_states ].
    unfold sum_over. simpl. reflexivity.
  - refine (fold_opt_invariant
              (fun swd => Forall (fun kv => Dict.total (App.bank_locations (snd kv))
                                            = App.total_pensioners (snd kv)) swd)
              _ _ _ _ _ H _); [|constructor].
    intros a x a' Hx. unfold App.process_bucket in Hx.
    refine (fold_opt_invariant _ _ _ _ _ _ Hx).
    intros a0 x0 a0'. apply credit_state_banks.
Qed.

Lemma X18_witness :
  exists swd,
    App.rollup [("400001", example_bucket)] = Some swd /\
    resident_total "Gujarat" swd = 25.
Proof.
  eexists. split; [vm_compute; reflexivity|].
  match goal with
  | |- resident_total _ ?swd = _ =>
      destruct (X18_residence_totals_are_exact
                  [("400001", example_bucket)] swd) as (H & _);
        [vm_compute; reflexivity|]
  end.
  rewrite H. vm_compute. reflexivity.
Defined.

(** X19.  No code path of the residence rollup of [app.py] writes
    [pincode_counts]: in every successful response that field is empty
    for every state (so the logged number of Rajasthan bank pincodes is
    always 0). *)
Theorem X19_pincode_counts_stay_empty
    (analysis_data : option DlcBankAnalysis.document) (b : App.body) :
  App.get_dlc_bank_pincode_data analysis_data = Ok b ->
  Forall (fun kv => App.StateFinal.pincode_counts (snd kv) = [])
         (App.state_wise_data b).
Proof.
  unfold App.get_dlc_bank_pincode_data.
  destruct analysis_data as [doc|]; [|discriminate].
  destruct (App.rollup (DlcBankAnalysis.bank_pincode_data doc)) as [swd|] eqn:E;
    [|discriminate].
  intros [= <-]. cbn [App.state_wise_data].
  assert (Hall : Forall (fun kv => App.pincode_counts (snd kv) = []) swd).
  { unfold App.rollup in E.
    refine (fold_opt_invariant
              (fun swd => Forall (fun kv => App.pincode_counts (snd kv) = []) swd)
              _ _ _ _ _ E _); [|constructor].
    intros a x a' Hx. unfold App.process_bucket in Hx.
    refine (fold_opt_invariant _ _ _ _ _ _ Hx).
    intros a0 x0 a0'. apply credit_state_pincode_counts. }
  apply Forall_forall. intros kv Hin.
  apply in_map_iff in Hin as (kv0 & <- & Hin). cbn [snd App.finish_state
    App.StateFinal.pincode_counts].
  rewrite Forall_forall in Hall. apply (Hall kv0 Hin).
Qed.

Lemma X19_witness :
  exists b,
    App.get_dlc_bank_pincode_data
      (Some (DlcBankAnalysis.persisted 2024 "2025-08-25 12:09:46" [Some eight_rows]))
    = Ok b /\
    Forall (fun kv => App.StateFinal.pincode_counts (snd kv) = [])
           (App.state_wise_data b).
Proof.
  eexists. split; [vm_compute; reflexivity|].
  apply (X19_pincode_counts_stay_empty
           (Some (DlcBankAnalysis.persisted 2024 "2025-08-25 12:09:46"
                    [Some eight_rows]))).
  vm_compute. reflexivity.
Defined.

(** X20.  A bucket whose total is zero or negative is rolled up
    without any division: the loop cannot raise on it, it adds its
    pensioners to their residence states and leaves the age histogram
    of every state as it was, entry by entry. *)
Theorem X20_empty_total_is_never_divided
    (swd : Dict.t App.state_entry) (pin : string) (b : DlcBankAnalysis.bucket) :
  DlcBankAnalysis.total_dlc_completed b <= 0 ->
  exists swd',
    App.process_bucket swd (pin, b) = Some swd' /\
    (forall s, App.age_groups (Dict.get_default App.new_entry s swd')
               = App.age_groups (Dict.get_default App.new_entry s swd)) /\
    (forall s g, age_count swd' s g = age_count swd s g) /\
    histogram_total swd' = histogram_total swd /\
    forall s, resident_total s swd'
              = resident_total s swd + count_in s (residence_states b).
Proof.
  intros HT.
  assert (G : forall l swd0, exists swd',
             fold_opt (App.credit_state b) l swd0 = Some swd' /\
             histogram_total swd' = histogram_total swd0 /\
             forall s, App.age_groups (Dict.get_default App.new_entry s swd')
                       = App.age_groups (Dict.get_default App.new_entry s swd0)).
  { induction l as [|sc l IH]; intros swd0.
    - exists swd0. repeat split; reflexivity.
    - destruct (credit_state_no_division b swd0 sc HT) as (swd1 & E1 & H1 & A1).
      destruct (IH swd1) as (swd2 & E2 & H2 & A2).
      exists swd2. cbn [fold_opt]. rewrite E1. cbn [bind].
      split; [exact E2|]. split; [lia|].
      intros s. now rewrite A2, A1. }
  destruct (G (DlcBankAnalysis.pensioner_states b) swd) as (swd' & E & H & Ha).
  exists swd'. unfold App.process_bucket at 1. cbn [snd].
  split; [exact E|]. split; [exact Ha|]. split; [|split; [exact H|]].
  - intros s g. unfold age_count. now rewrite Ha.
  - intros s. apply (process_bucket_resident s swd (pin, b) swd' E).
Qed.

Lemma X20_witness :
  let b := {| DlcBankAnalysis.total_dlc_completed := 0;
              DlcBankAnalysis.age_groups := [("60-65", 5)];
              DlcBankAnalysis.state := "Delhi";
              DlcBankAnalysis.pensioner_states := [("Gujarat", 3)] |} in
  exists swd',
    App.process_bucket [] ("110001", b) = Some swd' /\
    age_count swd' "Gujarat" "60-65" = 0 /\
    resident_total "Gujarat" swd' = 3.
Proof.
  cbv zeta.
  match goal with
  | |- exists swd', App.process_bucket [] (?pin, ?b) = _ /\ _ =>
      destruct (X20_empty_total_is_never_divided [] pin b)
        as (swd' & E & _ & A & _ & R);
        [vm_compute; discriminate|]
  end.
  exists swd'. split; [exact E|]. split; [rewrite A; reflexivity|].
  rewrite R. vm_compute. reflexivity.
Defined.

(** ** The script [excel_data_processor.py] *)


(** ** The choice of the analysis file *)

Section Loader.

Lemma ltb_leb (a b : string) : String.ltb a b = true -> name_le a b.
Proof.
  unfold name_le, String.ltb, String.leb.
  now destruct (String.compare a b).
Qed.

Lemma not_ltb_leb (a b : string) : String.ltb a b = false -> name_le b a.
Proof.
  unfold name_le, String.ltb, String.leb. rewrite (String.compare_antisym a b).
  now destruct (String.compare b a).
Qed.

Lemma name_le_refl (a : string) : name_le a a.
Proof.
  unfold name_le, String.leb.
  now replace (String.compare a a) with Eq
    by (symmetry; now apply OrderedTypeEx.String_as_OT.cmp_eq).
Qed.

Lemma name_le_trans (a b c : string) : name_le a b -> name_le b c -> name_le a c.
Proof.
  unfold name_le, String.leb. intros Hab Hbc.
  destruct (String.compare a b) eqn:Eab; [| |discriminate].
  - apply String.compare_eq_iff in Eab. now subst b.
  - destruct (String.compare b c) eqn:Ebc; [| |discriminate].
    + apply String.compare_eq_iff in Ebc. subst c. now rewrite Eab.
    + apply OrderedTypeEx.String_as_OT.cmp_lt in Eab, Ebc.
      pose proof (OrderedTypeEx.String_as_OT.lt_trans _ _ _ Eab Ebc) as H.
      apply OrderedTypeEx.String_as_OT.cmp_lt in H.
      unfold OrderedTypeEx.String_as_OT.cmp in H. now rewrite H.
Qed.

Lemma insert_asc_In (x y : string) (l : list string) :
  In y (PyMore.insert_asc x l) <-> y = x \/ In y l.
Proof.
  induction l as [|z l IH]; simpl; [intuition|].
  destruct (String.ltb x z); simpl; [intuition|].
  rewrite IH. intuition.
Qed.

Lemma sorted_names_In (y : string) (l : list string) :
  In y (PyMore.sorted_names l) <-> In y l.
Proof.
  induction l as [|x l IH]; simpl; [tauto|].
  rewrite insert_asc_In, IH. intuition.
Qed.

Lemma insert_asc_hd (x y : string) (l : list string) :
  name_le y x -> HdRel name_le y l -> HdRel name_le y (PyMore.insert_asc x l).
Proof.
  intros Hyx Hh. destruct l as [|z l]; simpl; [now constructor|].
  destruct (String.ltb x z); constructor; [exact Hyx|].
  now inversion Hh.
Qed.

Lemma insert_asc_sorted (x : string) (l : list string) :
  Sorted name_le l -> Sorted name_le (PyMore.insert_asc x l).
Proof.
  induction 1 as [|y l Hs IH Hh]; simpl.
  - repeat constructor.
  - destruct (String.ltb x y) eqn:E.
    + constructor; [now constructor|]. constructor. now apply ltb_leb.
    + constructor; [exact IH|].
      apply insert_asc_hd; [now apply not_ltb_leb | exact Hh].
Qed.

Lemma sorted_names_sorted (l : list string) :
  Sorted name_le (PyMore.sorted_names l).
Proof.
  induction l; simpl; [constructor | now apply insert_asc_sorted].
Qed.

Lemma last_item_spec {A : Type} (l : list A) :
  match PyMore.last_item l with
  | Some m => exists l', l = (l' ++ [m])%list
  | None => l = []
  end.
Proof.
  unfold PyMore.last_item.
  destruct (rev l) as [|m r] eqn:E;
    apply (f_equal (@rev A)) in E; rewrite rev_involutive in E.
  - exact E.
  - exists (rev r). exact E.
Qed.

(** The last item of a sorted list is above all of them. *)
Lemma sorted_last_bound (l : list string) (m : string) :
  Sorted name_le (l ++ [m])%list -> Forall (fun g => name_le g m) (l ++ [m])%list.
Proof.
  intros Hs. apply Sorted_StronglySorted in Hs;
    [|intros a b c; apply name_le_trans].
  induction l as [|x l IH]; simpl in *.
  - repeat constructor. apply name_le_refl.
  - inversion Hs as [|? ? Hs' Hall]; subst.
    constructor; [|now apply IH].
    rewrite Forall_forall in Hall. apply Hall.
    apply in_or_app. right. now left.
Qed.

Lemma prefix_append (p s : string) : String.prefix p (p ++ s) = true.
Proof.
  induction p as [|c p IH]; simpl; [now destruct s|].
  destruct (ascii_dec c c); [exact IH | congruence].
Qed.

Lemma append_assoc (a b c : string) : (a ++ (b ++ c) = (a ++ b) ++ c)%string.
Proof. induction a as [|x a IH]; simpl; [reflexivity | now rewrite IH]. Qed.

Lemma ascii_compare_refl (c : ascii) : Ascii.compare c c = Eq.
Proof. now apply OrderedTypeEx.Ascii_as_OT.cmp_eq. Qed.

Lemma compare_common_prefix (p a b : string) :
  String.compare (p ++ a) (p ++ b) = String.compare a b.
Proof.
  induction p as [|c p IH]; [reflexivity|].
  simpl. now rewrite ascii_compare_refl.
Qed.

Lemma compare_common_suffix (a b suf : string) :
  String.length a = String.length b ->
  String.compare (a ++ suf) (b ++ suf) = String.compare a b.
Proof.
  revert b. induction a as [|c a IH]; intros [|d b] Hl; try discriminate.
  - simpl. now apply OrderedTypeEx.String_as_OT.cmp_eq.
  - simpl in *. injection Hl as Hl. rewrite (IH b Hl). reflexivity.
Qed.

End Loader.

(** X23.  [load_dlc_analysis_data] (and the same lines of [app.py])
    finds no file exactly when no name of the directory both starts
    with [dlc_bank_analysis_] and ends with [.json]; otherwise the file
    it opens is such a name of the directory, and no other such name
    comes after it in the order of the code points. *)
Theorem X23_latest_file_is_the_greatest_name (listing : list string) :
  match DlcLoader.latest_file listing with
  | None => forall f, In f listing -> is_analysis_file f = false
  | Some f =>
      In f listing /\ is_analysis_file f = true /\
      forall g, In g listing -> is_analysis_file g = true -> name_le g f
  end.
Proof.
  unfold DlcLoader.latest_file.
  assert (Hfil : forall g, In g (DlcLoader.analysis_files listing)
                           <-> In g listing /\ is_analysis_file g = true).
  { intros g. unfold DlcLoader.analysis_files. apply filter_In. }
  destruct (DlcLoader.analysis_files listing) as [|f0 files] eqn:E.
  - intros f Hin. destruct (is_analysis_file f) eqn:Ef; [|reflexivity].
    exfalso. apply (Hfil f). now split.
  - pose proof (last_item_spec (PyMore.sorted_names (f0 :: files))) as Hl.
    destruct (PyMore.last_item (PyMore.sorted_names (f0 :: files))) as [m|].
    + destruct Hl as (l' & Hl).
      pose proof (sorted_names_sorted (f0 :: files)) as Hs. rewrite Hl in Hs.
      apply sorted_last_bound in Hs. rewrite <- Hl in Hs.
      assert (Hm : In m (f0 :: files)).
      { apply sorted_names_In. rewrite Hl. apply in_or_app. right. now left. }
      apply Hfil in Hm as [Hm1 Hm2]. split; [exact Hm1|]. split; [exact Hm2|].
      intros g Hg Hg2. rewrite Forall_forall in Hs. apply Hs.
      apply sorted_names_In. apply Hfil. now split.
    + exfalso. assert (Hin : In f0 (PyMore.sorted_names (f0 :: files)))
        by (apply sorted_names_In; now left).
      rewrite Hl in Hin. destruct Hin.
Qed.

(** X24.  Of the two files [save_dlc_analysis_data] writes, the loader
    takes the complete document and never the top-50 file; and the
    names of two complete documents whose timestamps have the same
    length compare as the timestamps do, so that the file chosen is the
    one written last. *)
Theorem X24_written_names (timestamp other : string) :
  is_analysis_file (DlcSave.complete_file_name timestamp) = true
  /\ is_analysis_file (DlcSave.top_file_name timestamp) = false
  /\ (String.length timestamp = String.length other ->
      String.compare (DlcSave.complete_file_name timestamp)
                     (DlcSave.complete_file_name other)
      = String.compare timestamp other).
Proof.
  unfold is_analysis_file, DlcSave.complete_file_name, DlcSave.top_file_name.
  split; [|split].
  - apply andb_true_iff. split.
    + apply prefix_append.
    + rewrite append_assoc. apply endswith_append.
  - unfold PyMore.startswith. simpl.
    now destruct (ascii_dec "d" "t").
  - intros Hl. rewrite compare_common_prefix. now apply compare_common_suffix.
Qed.

Lemma X24_witness :
  String.compare (DlcSave.complete_file_name "20250825_120946")
                 (DlcSave.complete_file_name "20250826_090000")
  = Lt.
Proof.
  destruct (X24_written_names "20250825_120946" "20250826_090000")
    as (_ & _ & H).
  rewrite H; reflexivity.
Defined.

(** ** The tables of [get_authentication_methods] *)

Section AuthTables.

Lemma aligned_get (acc : AppAuth.tables) (m : string) :
  tables_aligned acc ->
  (Dict.get m (fst acc) = None <-> Dict.get m (snd acc) = None).
Proof.
  unfold tables_aligned. intros H. rewrite !get_None_not_key, H. tauto.
Qed.

Lemma keys_set_present {V : Type} (d : Dict.t V) (k : string) (v : V) :
  Dict.get k d <> None -> Dict.keys (Dict.set k v d) = Dict.keys d.
Proof. intros H. rewrite keys_set. now destruct (Dict.get k d). Qed.

Lemma keys_set_absent {V : Type} (d : Dict.t V) (k : string) (v : V) :
  Dict.get k d = None -> Dict.keys (Dict.set k v d) = (Dict.keys d ++ [k])%list.
Proof. intros H. rewrite keys_set. now rewrite H. Qed.

Lemma add_row_aligned (acc : AppAuth.tables) (row : AppAuth.result_row) :
  tables_aligned acc -> tables_aligned (AppAuth.add_row acc row).
Proof.
  intros H. pose proof (aligned_get acc (fst (fst row)) H) as Hg.
  unfold tables_aligned, AppAuth.add_row in *. cbv zeta.
  destruct (Dict.get (fst (fst row)) (fst acc)) eqn:E; cbn [fst snd].
  - rewrite !keys_set_present; [exact H| |congruence].
    intros Hn. apply Hg in Hn. discriminate.
  - assert (E2 : Dict.get (fst (fst row)) (snd acc) = None) by now apply Hg.
    rewrite !keys_set, !get_set_same, E, E2. now rewrite H.
Qed.

Lemma add_row_reads (acc : AppAuth.tables) (row : AppAuth.result_row) (m : string) :
  Dict.get_default 0 m (fst (AppAuth.add_row acc row))
  = Dict.get_default 0 m (fst acc)
    + (if String.eqb (fst (fst row)) m then snd (fst row) else 0).
Proof.
  unfold AppAuth.add_row. cbv zeta.
  destruct (Dict.get (fst (fst row)) (fst acc)) eqn:E; cbn [fst snd];
    unfold Dict.get_default; key_cases (fst (fst row)) m.
  - subst m. now rewrite get_set_same.
  - rewrite get_set_other by assumption. lia.
  - subst m. now rewrite !get_set_same, E.
  - rewrite !get_set_other by assumption. lia.
Qed.

Lemma add_row_total (acc : AppAuth.tables) (row : AppAuth.result_row) :
  Dict.total (fst (AppAuth.add_row acc row))
  = Dict.total (fst acc) + snd (fst row).
Proof.
  unfold AppAuth.add_row. cbv zeta.
  destruct (Dict.get (fst (fst row)) (fst acc)) eqn:E; cbn [fst snd];
    rewrite !total_set; unfold Dict.get_default;
    rewrite ?get_set_same, ?E; lia.
Qed.

(** What the loop does to the breakdown of a method, for aligned
    tables. *)
Lemma add_row_breakdown (acc : AppAuth.tables) (row : AppAuth.result_row)
    (m : string) :
  tables_aligned acc ->
  Dict.get_default [] m (snd (AppAuth.add_row acc row))
  = if String.eqb (fst (fst row)) m
    then Dict.set (snd row) (snd (fst row)) (Dict.get_default [] m (snd acc))
    else Dict.get_default [] m (snd acc).
Proof.
  intros H. pose proof (aligned_get acc (fst (fst row)) H) as Hg.
  unfold AppAuth.add_row. cbv zeta.
  destruct (Dict.get (fst (fst row)) (fst acc)) eqn:E; cbn [fst snd];
    unfold Dict.get_default; key_cases (fst (fst row)) m.
  - subst m. now rewrite get_set_same.
  - now rewrite get_set_other by assumption.
  - subst m. rewrite !get_set_same.
    pose proof (proj1 Hg eq_refl) as E2.
    match goal with
    | |- context [match ?x with _ => _ end] =>
        replace x with (@None (list (string * Z))) by (symmetry; exact E2)
    end.
    reflexivity.
  - now rewrite !get_set_other by assumption.
Qed.

Lemma breakdown_snoc (l : list AppAuth.result_row) (r : AppAuth.result_row) :
  AppAuth.breakdown (l ++ [r]) = AppAuth.add_row (AppAuth.breakdown l) r.
Proof. unfold AppAuth.breakdown. now rewrite fold_left_app. Qed.

Lemma breakdown_aligned (results : list AppAuth.result_row) :
  tables_aligned (AppAuth.breakdown results).
Proof.
  induction results as [|r l IH] using rev_ind; [reflexivity|].
  rewrite breakdown_snoc. now apply add_row_aligned.
Qed.

Lemma fold_right_add_from (a : Z) (xs : list Z) :
  fold_right Z.add a xs = fold_right Z.add 0 xs + a.
Proof. induction xs as [|x xs IH]; simpl; lia. Qed.

Lemma counts_of_method_snoc (m : string) l (r : AppAuth.result_row) :
  counts_of_method m (l ++ [r])
  = counts_of_method m l
    + (if String.eqb (fst (fst r)) m then snd (fst r) else 0).
Proof.
  unfold counts_of_method. rewrite filter_app, map_app, fold_right_app.
  cbn [filter]. destruct (String.eqb (fst (fst r)) m); cbn [map fold_right].
  - rewrite (fold_right_add_from (_ + 0)), Z.add_0_r. reflexivity.
  - rewrite Z.add_0_r. reflexivity.
Qed.

Lemma keys_of_set_In {V : Type} (d : Dict.t V) (k k' : string) (v : V) :
  In k' (Dict.keys (Dict.set k v d)) -> k' = k \/ In k' (Dict.keys d).
Proof.
  rewrite keys_set. destruct (Dict.get k d); [now right|].
  intros H. apply in_app_or in H as [H|[H|[]]]; auto.
Qed.

End AuthTables.

(** X25.  After the loop of [get_authentication_methods] the two
    tables have the same keys in the same order (so the lookup
    [age_breakdown[auth_method]] never misses); the count of a method
    is the sum of the counts of its rows, and the counts of all methods
    add up to the counts of all rows. *)
Theorem X25_authentication_counts (results : list AppAuth.result_row) (m : string) :
  let auth_data := fst (AppAuth.breakdown results) in
  let age_breakdown := snd (AppAuth.breakdown results) in
  Dict.keys auth_data = Dict.keys age_breakdown
  /\ Dict.get_default 0 m auth_data = counts_of_method m results
  /\ Dict.total auth_data
     = fold_right Z.add 0 (map (fun r => snd (fst r)) results).
Proof.
  cbv zeta. split; [apply breakdown_aligned|]. split.
  - induction results as [|r l IH] using rev_ind; [reflexivity|].
    now rewrite breakdown_snoc, add_row_reads, counts_of_method_snoc, IH.
  - induction results as [|r l IH] using rev_ind; [reflexivity|].
    rewrite breakdown_snoc, add_row_total, IH, map_app, fold_right_app.
    cbn [map fold_right].
    rewrite (fold_right_add_from (_ + 0)), Z.add_0_r. reflexivity.
Qed.

(** X26.  When no two rows share method and age group, as the
    [GROUP BY] of the query gives them, the age breakdown of every
    method adds up to the count of the method, and each row can be read
    back from the breakdown. *)
Theorem X26_age_breakdown_adds_up (results : list AppAuth.result_row) :
  NoDup (group_keys results) ->
  let auth_data := fst (AppAuth.breakdown results) in
  let age_breakdown := snd (AppAuth.breakdown results) in
  (forall m, Dict.total (Dict.get_default [] m age_breakdown)
             = Dict.get_default 0 m auth_data)
  /\ (forall m c g, In (m, c, g) results ->
        Dict.get g (Dict.get_default [] m age_breakdown) = Some c).
Proof.
  cbv zeta.
  induction results as [|r l IH] using rev_ind; intros Hnd.
  - split; [reflexivity | intros m c g []].
  - unfold group_keys in Hnd. rewrite map_app in Hnd.
    apply NoDup_remove in Hnd as [Hnd Hnew]. rewrite app_nil_r in *.
    destruct (IH Hnd) as [IHsum IHget]. clear IH.
    assert (Hkeys : forall m g,
              In g (Dict.keys (Dict.get_default [] m (snd (AppAuth.breakdown l)))) ->
              In (m, g) (group_keys l)).
    { clear. induction l as [|r l IH] using rev_ind; intros m g.
      - intros [].
      - rewrite breakdown_snoc, add_row_breakdown by apply breakdown_aligned.
        unfold group_keys. rewrite map_app. intros H. apply in_or_app.
        key_cases (fst (fst r)) m.
        + apply keys_of_set_In in H as [->|H].
          * right. left. now rewrite E.
          * left. now apply IH.
        + left. now apply IH. }
    rewrite breakdown_snoc. split.
    + intros m. rewrite add_row_breakdown, add_row_reads by apply breakdown_aligned.
      key_cases (fst (fst r)) m; [|rewrite IHsum; lia].
      rewrite total_set, IHsum.
      replace (Dict.get_default 0 (snd r) (Dict.get_default [] m (snd (AppAuth.breakdown l))))
        with 0; [lia|].
      unfold Dict.get_default at 1.
      destruct (Dict.get (snd r) _) eqn:Eg; [|reflexivity].
      exfalso. apply Hnew. fold (group_keys l). apply Hkeys.
      rewrite E. apply get_In in Eg.
      unfold Dict.keys. apply in_map_iff. now exists (snd r, z).
    + intros m c g Hin. rewrite add_row_breakdown by apply breakdown_aligned.
      apply in_app_or in Hin as [Hin|[->|[]]].
      * key_cases (fst (fst r)) m; [|now apply IHget].
        rewrite get_set_other; [now apply IHget|].
        intros Eg. apply Hnew. fold (group_keys l).
        unfold group_keys. apply in_map_iff. exists (m, c, g).
        split; [cbn; now rewrite E, Eg | exact Hin].
      * cbn [fst snd]. rewrite String.eqb_refl. apply get_set_same.
Qed.

Lemma X26_witness :
  let results := [("Face", 5, "60-65"); ("Face", 7, "66-70"); ("Iris", 2, "60-65")] in
  Dict.total (Dict.get_default [] "Face" (snd (AppAuth.breakdown results)))
  = Dict.get_default 0 "Face" (fst (AppAuth.breakdown results)).
Proof.
  cbv zeta.
  apply (X26_age_breakdown_adds_up
           [("Face", 5, "60-65"); ("Face", 7, "66-70"); ("Iris", 2, "60-65")]).
  repeat constructor; simpl; intuition discriminate.
Defined.

(** ** The age summary of [get_excel_age_group_summary] *)

Section AgeSummary.

Lemma count_where_le {A : Type} (f : A -> bool) (l : list A) :
  0 <= count_where f l <= Z.of_nat (List.length l).
Proof.
  unfold count_where. pose proof (filter_length_le f l). lia.
Qed.

Lemma count_rows_reads (cy : Z) (g : string) (rows : list Excel.indexed_row)
    (acc : Dict.t Z) :
  Dict.get_default 0 g (fold_left (AppAgeSummary.count_row cy) rows acc)
  = Dict.get_default 0 g acc
    + count_where (fun r => String.eqb (summary_age_group cy r) g &&
                            year_counted r) rows.
Proof.
  unfold count_where. revert acc.
  induction rows as [|r rows IH]; intros acc; [simpl; lia|].
  cbn [fold_left filter]. rewrite IH. clear IH.
  unfold AppAgeSummary.count_row, summary_age_group, year_counted, year_of_row.
  destruct (Excel.YOB_at r) as [|yob_cell]; [rewrite andb_false_r; lia|].
  destruct (ExcelDataProcessor.birth_year_of yob_cell) as [y|].
  - rewrite andb_true_r, incr_reads.
    destruct (String.eqb _ g); cbn [List.length]; rewrite ?Nat2Z.inj_succ; lia.
  - rewrite andb_false_r. lia.
Qed.

Lemma count_rows_total (cy : Z) (rows : list Excel.indexed_row)
    (acc : Dict.t Z) :
  Dict.total (fold_left (AppAgeSummary.count_row cy) rows acc)
  = Dict.total acc + count_where year_counted rows.
Proof.
  unfold count_where. revert acc.
  induction rows as [|r rows IH]; intros acc; [simpl; lia|].
  cbn [fold_left filter]. rewrite IH. clear IH.
  unfold AppAgeSummary.count_row, year_counted, year_of_row.
  destruct (Excel.YOB_at r) as [|yob_cell]; [lia|].
  destruct (ExcelDataProcessor.birth_year_of yob_cell).
  - rewrite total_incr. cbn [List.length]. rewrite Nat2Z.inj_succ. lia.
  - lia.
Qed.

Lemma count_rows_keys (cy : Z) (rows : list Excel.indexed_row)
    (acc : Dict.t Z) :
  NoDup (Dict.keys acc) /\
  Forall (fun kv => In (fst kv) age_buckets /\ 1 <= snd kv) acc ->
  NoDup (Dict.keys (fold_left (AppAgeSummary.count_row cy) rows acc)) /\
  Forall (fun kv => In (fst kv) age_buckets /\ 1 <= snd kv)
         (fold_left (AppAgeSummary.count_row cy) rows acc).
Proof.
  revert acc. induction rows as [|r rows IH]; intros acc H; [exact H|].
  cbn [fold_left]. apply IH. clear IH. destruct H as [Hnd Hall].
  unfold AppAgeSummary.count_row.
  destruct (Excel.YOB_at r) as [|yob_cell]; [now split|].
  destruct (ExcelDataProcessor.birth_year_of yob_cell) as [y|];
    [|now split].
  split; [now apply NoDup_keys_set|].
  apply (Forall_update_keyed (fun k v => In k age_buckets /\ 1 <= v));
    [exact Hall| |].
  - intros v _ [Hk Hv]. split; [exact Hk | lia].
  - intros _. split; [apply age_group_known | lia].
Qed.

End AgeSummary.

(** X27.  With pandas available, [get_excel_age_group_summary] answers
    500 exactly when the folder cannot be listed or its first file
    cannot be read, and never 404.  Otherwise it reads the first file
    only, and at most 50000 rows of it: the count of an age group is
    the number of those rows whose year of birth is there (the sheet
    has the column), is blank or converts with [int], and falls in the
    group; the groups listed are distinct, among the six age groups,
    each with at least one row, and together hold at most 50000
    rows. *)
Theorem X27_age_summary_counts_first_file
    (cy : Z) (excel_folder : option (list Excel.indexed_file)) (g : string) :
  (AppAgeSummary.get_excel_age_group_summary cy excel_folder = ServerError <->
   excel_folder = None \/ exists rest, excel_folder = Some (None :: rest))
  /\ AppAgeSummary.get_excel_age_group_summary cy excel_folder <> NotFound
  /\ forall age_groups,
       AppAgeSummary.get_excel_age_group_summary cy excel_folder = Ok age_groups ->
       let rows := match excel_folder with
                   | Some (Some rows :: _) => firstn (Z.to_nat 50000) rows
                   | _ => []
                   end in
       Dict.get_default 0 g age_groups
       = count_where (fun r => String.eqb (summary_age_group cy r) g &&
                               year_counted r) rows
       /\ Dict.total age_groups = count_where year_counted rows
       /\ Dict.total age_groups <= 50000
       /\ NoDup (Dict.keys age_groups)
       /\ Forall (fun kv => In (fst kv) age_buckets /\ 1 <= snd kv) age_groups.
Proof.
  unfold AppAgeSummary.get_excel_age_group_summary.
  destruct excel_folder as [[|[rows|] rest]|].
  - split; [|split; [discriminate|]].
    + split; [discriminate|]. intros [H|(r & H)]; discriminate.
    + intros age_groups [= <-]. cbv zeta. unfold count_where, Dict.total. simpl.
      repeat split; try lia; constructor.
  - split; [|split; [discriminate|]].
    + split; [discriminate|]. intros [H|(r & H)]; discriminate.
    + generalize (Z2Nat.id 50000 ltac:(lia)).
      generalize (Z.to_nat 50000) as n. intros n Hn age_groups Heq.
      injection Heq as <-. cbv zeta.
      rewrite count_rows_reads, count_rows_total.
      destruct (count_rows_keys cy (firstn n rows) []) as [Hnd Hall];
        [split; constructor|].
      pose proof (count_where_le year_counted (firstn n rows)) as Hle.
      pose proof (firstn_le_length n rows) as Hlen.
      assert (H0 : Dict.total (@nil (string * Z)) = 0) by reflexivity.
      assert (H1 : Dict.get_default 0 g (@nil (string * Z)) = 0) by reflexivity.
      rewrite H0, H1.
      repeat split; try assumption; lia.
  - split; [|split; [discriminate|]].
    + split; [intros _; right; now exists rest | reflexivity].
    + discriminate.
  - split; [|split; [discriminate|]].
    + split; [intros _; now left | reflexivity].
    + discriminate.
Qed.

(** ** The list and the summary of [get_excel_pensioners] *)

Section Pensioners.

Import AppPensioners.

Lemma pensioner_rows_invariant (P : store -> Prop) (today : string) :
  (forall fi i acc r, P acc -> P (process_row today fi i acc r)) ->
  forall rows fi i acc, P acc -> P (process_rows today fi i rows acc).
Proof.
  intros Hstep rows. induction rows as [|r rows IH]; intros fi i acc H; simpl; auto.
Qed.

Lemma pensioner_files_invariant (P : store -> Prop) (today : string) :
  (forall fi i acc r, P acc -> P (process_row today fi i acc r)) ->
  forall files fi acc, P acc -> P (process_files today fi files acc).
Proof.
  intros Hstep files. induction files as [|f files IH]; intros fi acc H;
    simpl; [exact H|].
  apply IH. destruct f as [rows|]; [|exact H].
  now apply pensioner_rows_invariant.
Qed.

(** A quantity of the store that every row moves by its own weight is
    the sum of the weights of the rows read. *)
Lemma pensioner_rows_sum (q : store -> Z) (w : row -> Z) (today : string) :
  (forall fi i acc r, q (process_row today fi i acc r) = q acc + w r) ->
  forall rows fi i acc,
    q (process_rows today fi i rows acc)
    = q acc + fold_right Z.add 0 (map w rows).
Proof.
  intros Hstep rows. induction rows as [|r rows IH]; intros fi i acc; simpl.
  - lia.
  - rewrite IH, Hstep. lia.
Qed.

Lemma pensioner_files_sum (q : store -> Z) (w : row -> Z) (today : string) :
  (forall fi i acc r, q (process_row today fi i acc r) = q acc + w r) ->
  forall files fi acc,
    q (process_files today fi files acc)
    = q acc + fold_right Z.add 0 (map w (rows_read files)).
Proof.
  intros Hstep files. induction files as [|f files IH]; intros fi acc.
  - simpl. lia.
  - cbn [process_files rows_read flat_map]. rewrite IH.
    fold (rows_read files). rewrite map_app, fold_right_app.
    rewrite (fold_right_add_from (fold_right Z.add 0 (map w (rows_read files)))).
    destruct f as [rows|]; [|simpl; lia].
    rewrite (pensioner_rows_sum q w today Hstep). lia.
Qed.

Lemma sum_of_tests {A : Type} (f : A -> bool) (l : list A) :
  fold_right Z.add 0 (map (fun x => if f x then 1 else 0) l) = count_where f l.
Proof.
  unfold count_where. induction l as [|x l IH]; [reflexivity|].
  cbn [map fold_right filter]. rewrite IH.
  destruct (f x); cbn [List.length]; rewrite ?Nat2Z.inj_succ; lia.
Qed.

(** A row that misses a pincode column or fails one of the two tests
    changes nothing. *)
Lemma process_row_unlisted (today : string) (fi i : nat) (acc : store) (r : row) :
  listed r = false -> process_row today fi i acc r = acc.
Proof.
  unfold listed, process_row.
  destruct (PENSIONER_PINCODE r) as [|pc]; [reflexivity|].
  destruct (BRANCH_PINCODE r) as [|bc]; [reflexivity|].
  unfold pincode_listed, file_row. cbv zeta.
  destruct (Py.truthy (App.clean_pincode pc)); [|reflexivity].
  destruct (String.eqb (App.clean_pincode pc) "nan"); [reflexivity|].
  cbn [negb orb andb].
  destruct (String.eqb _ "Unknown"); [reflexivity|].
  destruct (String.eqb _ "Other States"); [reflexivity|].
  discriminate.
Qed.

Lemma process_row_listed (today : string) (fi i : nat) (acc : store) (r : row) :
  listed r = true ->
  exists pc bc,
    PENSIONER_PINCODE r = Excel.Present pc /\
    BRANCH_PINCODE r = Excel.Present bc /\
    let p := App.clean_pincode pc in
    let st := AppClassifiers.get_state_from_pincode p in
    p <> "" /\ p <> "nan" /\ st <> "Unknown" /\ st <> "Other States" /\
    snd (process_row today fi i acc r)
    = Dict.update new_summary st
        (note (AppClassifiers.get_district_from_pincode p) p (BANK_NAME r))
        (snd acc) /\
    match amount_of (PENSION_AMOUNT r) with
    | None => fst (process_row today fi i acc r) = fst acc
    | Some a =>
        exists rec,
          fst (process_row today fi i acc r) = (fst acc ++ [rec])%list /\
          record_sound today rec /\
          name rec = "Pensioner " ++ PyMore.str_of_nat (List.length (fst acc) + 1)
    end.
Proof.
  unfold listed, process_row.
  destruct (PENSIONER_PINCODE r) as [|pc]; [discriminate|].
  destruct (BRANCH_PINCODE r) as [|bc]; [discriminate|].
  intros Hl. exists pc, bc. split; [reflexivity|]. split; [reflexivity|].
  revert Hl. unfold pincode_listed, file_row. cbv zeta.
  destruct (Py.truthy (App.clean_pincode pc)) eqn:Et; [|discriminate].
  destruct (String.eqb (App.clean_pincode pc) "nan") eqn:En; [discriminate|].
  cbn [negb orb andb].
  destruct (String.eqb _ "Unknown") eqn:Eu; [discriminate|].
  destruct (String.eqb _ "Other States") eqn:Eo; [discriminate|].
  intros _. cbn [orb].
  apply String.eqb_neq in En, Eu, Eo.
  assert (Hne : App.clean_pincode pc <> "").
  { intros E. rewrite E in Et. discriminate. }
  repeat (split; [assumption|]).
  destruct (amount_of (PENSION_AMOUNT r)) as [a|]; cbn [fst snd].
  - split; [reflexivity|]. eexists. split; [reflexivity|].
    split; [|reflexivity].
    unfold record_sound. cbn. repeat split; assumption.
  - split; reflexivity.
Qed.

Lemma set_add_length (x : string) (l : list string) :
  (1 <= List.length (PyMore.set_add x l) <= S (List.length l))%nat /\
  (List.length l <= List.length (PyMore.set_add x l))%nat.
Proof.
  unfold PyMore.set_add. destruct (existsb (String.eqb x) l) eqn:E.
  - apply existsb_exists in E as (y & Hy & _).
    destruct l; [destruct Hy | simpl; lia].
  - rewrite length_app. simpl. lia.
Qed.

Lemma note_bounded (d p : string) (b : bank_cell) (e : summary) :
  0 <= total_pensioners e ->
  Z.of_nat (List.length (districts e)) <= total_pensioners e ->
  Z.of_nat (List.length (pincodes e)) <= total_pensioners e ->
  Z.of_nat (List.length (banks e)) <= total_pensioners e ->
  summary_bounded (note d p b e).
Proof.
  intros H0 Hd Hp Hb. unfold summary_bounded, note.
  cbn [total_pensioners districts pincodes banks].
  pose proof (set_add_length d (districts e)) as [Hd1 _].
  pose proof (set_add_length p (pincodes e)) as [Hp1 _].
  repeat split; try lia.
  destruct (bank_known b) as [s|]; [|lia].
  pose proof (set_add_length s (banks e)) as [Hb1 _]. lia.
Qed.

Lemma numbered_snoc (l : list pensioner) (rec : pensioner) :
  numbered l ->
  name rec = "Pensioner " ++ PyMore.str_of_nat (List.length l + 1) ->
  numbered (l ++ [rec]).
Proof.
  intros Hl Hn i p Hi.
  destruct (Nat.lt_ge_cases i (List.length l)) as [Hlt|Hge].
  - rewrite nth_error_app1 in Hi by assumption. now apply Hl.
  - rewrite nth_error_app2 in Hi by assumption.
    destruct (i - List.length l)%nat as [|k] eqn:Ek; simpl in Hi.
    + injection Hi as <-. rewrite Hn. repeat f_equal. lia.
    + now destruct k.
Qed.

End Pensioners.

(** X28.  With pandas available, [get_excel_pensioners] answers 500
    exactly when the folder cannot be listed, and never 404.  Otherwise
    every record of its list has a non-empty pincode other than ['nan']
    and a state other than ['Unknown'] and ['Other States']; its states
    and districts are those of its cleaned pincodes; the records are
    named ['Pensioner 1'], ['Pensioner 2'], ... in the order of the
    list; [total] is the number of rows read, 2000 at most of each
    readable file, that have both pincode columns, pass the two tests
    and whose amount converts: a sheet without one of the two columns
    contributes nothing. *)
Theorem X28_pensioner_records
    (today : string) (excel_folder : option (list AppPensioners.file)) :
  match AppPensioners.get_excel_pensioners today excel_folder with
  | Ok b =>
      exists excel_files,
        excel_folder = Some excel_files
        /\ Forall (record_sound today) (AppPensioners.pensioners b)
        /\ numbered (AppPensioners.pensioners b)
        /\ AppPensioners.total b
           = count_where (fun r => listed r && amount_converts r)
                         (rows_read excel_files)
        /\ AppPensioners.total b <= 2000 * AppPensioners.processed_files b
  | ServerError => excel_folder = None
  | NotFound => False
  end.
Proof.
  unfold AppPensioners.get_excel_pensioners.
  destruct excel_folder as [excel_files|]; [|reflexivity].
  cbv beta iota zeta. exists excel_files. split; [reflexivity|].
  cbn [AppPensioners.pensioners AppPensioners.total AppPensioners.processed_files].
  assert (Hinv : Forall (record_sound today)
                   (fst (AppPensioners.process_files today 0 excel_files ([], [])))
                 /\ numbered (fst (AppPensioners.process_files today 0 excel_files ([], [])))).
  { apply (pensioner_files_invariant
             (fun acc => Forall (record_sound today) (fst acc) /\ numbered (fst acc))).
    - intros fi i acc r [Hall Hnum].
      destruct (listed r) eqn:El;
        [|rewrite process_row_unlisted by assumption; now split].
      destruct (process_row_listed today fi i acc r El)
        as (pc & bc & _ & _ & _ & _ & _ & _ & _ & H).
      destruct (AppPensioners.amount_of (AppPensioners.PENSION_AMOUNT r));
        [|rewrite H; now split].
      destruct H as (rec & -> & Hs & Hn). split.
      + apply Forall_app. split; [exact Hall | now constructor].
      + now apply numbered_snoc.
    - split; [constructor|]. intros i p Hi. now destruct i. }
  assert (Hcount : Z.of_nat (List.length (fst (AppPensioners.process_files today 0
                                                  excel_files ([], []))))
                   = count_where (fun r => listed r && amount_converts r)
                                 (rows_read excel_files)).
  { rewrite (pensioner_files_sum
               (fun acc => Z.of_nat (List.length (fst acc)))
               (fun r => if listed r && amount_converts r then 1 else 0)).
    - rewrite sum_of_tests. simpl. lia.
    - intros fi i acc r. destruct (listed r) eqn:El;
        [|rewrite process_row_unlisted by assumption; simpl; lia].
      destruct (process_row_listed today fi i acc r El)
        as (pc & bc & _ & _ & _ & _ & _ & _ & _ & H).
      unfold amount_converts.
      destruct (AppPensioners.amount_of (AppPensioners.PENSION_AMOUNT r)).
      + destruct H as (rec & -> & _). rewrite length_app. simpl. lia.
      + rewrite H. simpl. lia. }
  destruct Hinv as [Hall Hnum].
  split; [exact Hall|]. split; [exact Hnum|]. split; [exact Hcount|].
  rewrite Hcount.
  pose proof (count_where_le (fun r => listed r && amount_converts r)
                (rows_read excel_files)) as [_ Hle].
  assert (Hlen : Z.of_nat (List.length (rows_read excel_files))
                 <= 2000 * Z.of_nat (List.length excel_files)).
  { clear. generalize (Z2Nat.id 2000 ltac:(lia)). unfold rows_read.
    generalize (Z.to_nat 2000) as n. intros n Hn.
    induction excel_files as [|f files IH]; [simpl; lia|].
    cbn [flat_map List.length]. rewrite length_app, Nat2Z.inj_add, Nat2Z.inj_succ.
    destruct f as [rows|]; [|cbn [List.length]; lia].
    pose proof (firstn_le_length n rows). lia. }
  lia.
Qed.

(** X29.  Whenever [get_excel_pensioners] answers with a body, its
    state summary was updated before the amount was converted and
    after both pincode cells were read: its counts add up to the
    number of rows read that have both pincode columns and pass the
    two tests, which is at least [total], and equal to it when every
    amount converts.  Its keys are distinct states, never ['Unknown']
    nor ['Other States'], and for each state the numbers of districts
    and of pincodes lie between 1 and the count of the state, and the
    number of banks does not exceed it. *)
Theorem X29_state_summary_counts
    (today : string) (excel_files : list AppPensioners.file) :
  exists b,
    AppPensioners.get_excel_pensioners today (Some excel_files) = Ok b
    /\ sum_over AppPensioners.report_total_pensioners
                (AppPensioners.state_summary b)
       = count_where listed (rows_read excel_files)
    /\ AppPensioners.total b
       <= sum_over AppPensioners.report_total_pensioners
                   (AppPensioners.state_summary b)
    /\ (forallb amount_converts (rows_read excel_files) = true ->
        AppPensioners.total b
        = sum_over AppPensioners.report_total_pensioners
                   (AppPensioners.state_summary b))
    /\ NoDup (Dict.keys (AppPensioners.state_summary b))
    /\ Forall (fun kv => fst kv <> "Unknown" /\ fst kv <> "Other States" /\
                         report_bounded (snd kv))
              (AppPensioners.state_summary b).
Proof.
  unfold AppPensioners.get_excel_pensioners. cbv beta iota zeta.
  eexists. split; [reflexivity|].
  cbn [AppPensioners.state_summary AppPensioners.total].
  set (result := AppPensioners.process_files today 0 excel_files ([], [])).
  assert (Hsum : sum_over AppPensioners.total_pensioners (snd result)
                 = count_where listed (rows_read excel_files)).
  { unfold result.
    rewrite (pensioner_files_sum
               (fun acc => sum_over AppPensioners.total_pensioners (snd acc))
               (fun r => if listed r then 1 else 0)).
    - rewrite sum_of_tests. unfold sum_over. simpl. lia.
    - intros fi i acc r. destruct (listed r) eqn:El;
        [|rewrite process_row_unlisted by assumption; simpl; lia].
      destruct (process_row_listed today fi i acc r El)
        as (pc & bc & _ & _ & _ & _ & _ & _ & -> & _).
      unfold Dict.update.
      rewrite (sum_over_set _ AppPensioners.new_summary) by reflexivity.
      cbn [AppPensioners.note AppPensioners.total_pensioners]. lia. }
  assert (Hlist : Z.of_nat (List.length (fst result))
                  = count_where (fun r => listed r && amount_converts r)
                                (rows_read excel_files)).
  { unfold result.
    rewrite (pensioner_files_sum
               (fun acc => Z.of_nat (List.length (fst acc)))
               (fun r => if listed r && amount_converts r then 1 else 0)).
    - rewrite sum_of_tests. simpl. lia.
    - intros fi i acc r. destruct (listed r) eqn:El;
        [|rewrite process_row_unlisted by assumption; simpl; lia].
      destruct (process_row_listed today fi i acc r El)
        as (pc & bc & _ & _ & _ & _ & _ & _ & _ & H).
      unfold amount_converts.
      destruct (AppPensioners.amount_of (AppPensioners.PENSION_AMOUNT r)).
      + destruct H as (rec & -> & _). rewrite length_app. simpl. lia.
      + rewrite H. simpl. lia. }
  assert (Hfin : sum_over AppPensioners.report_total_pensioners
                   (map (fun kv => (fst kv, AppPensioners.finish (snd kv))) (snd result))
                 = sum_over AppPensioners.total_pensioners (snd result)).
  { unfold sum_over. rewrite map_map. reflexivity. }
  assert (Hinv : NoDup (Dict.keys (snd result)) /\
                 Forall (fun kv => fst kv <> "Unknown" /\ fst kv <> "Other States" /\
                                   summary_bounded (snd kv)) (snd result)).
  { unfold result.
    apply (pensioner_files_invariant
             (fun acc => NoDup (Dict.keys (snd acc)) /\
                         Forall (fun kv => fst kv <> "Unknown" /\
                                           fst kv <> "Other States" /\
                                           summary_bounded (snd kv)) (snd acc)));
      [|split; constructor].
    intros fi i acc r [Hnd Hall].
    destruct (listed r) eqn:El;
      [|rewrite process_row_unlisted by assumption; now split].
    destruct (process_row_listed today fi i acc r El)
      as (pc & bc & _ & _ & _ & _ & Hu & Ho & -> & _).
    split; [now apply NoDup_keys_set|].
    apply (Forall_update_keyed
             (fun k e => k <> "Unknown" /\ k <> "Other States" /\ summary_bounded e));
      [exact Hall| |].
    - intros e _ (_ & _ & H1 & _ & Hd & _ & Hp & Hb).
      split; [exact Hu|]. split; [exact Ho|].
      apply note_bounded; lia.
    - intros _. split; [exact Hu|]. split; [exact Ho|].
      apply note_bounded; simpl; lia. }
  rewrite Hfin, Hsum, Hlist. split; [reflexivity|]. split; [|split; [|split]].
  - unfold count_where.
    assert (H : forall l : list AppPensioners.row,
              (List.length (filter (fun r => listed r && amount_converts r) l)
               <= List.length (filter listed l))%nat).
    { induction l as [|r l IH]; [simpl; lia|]. cbn [filter].
      destruct (listed r); cbn [andb]; [|exact IH].
      destruct (amount_converts r); simpl; lia. }
    specialize (H (rows_read excel_files)). lia.
  - intros Hall. unfold count_where. do 2 f_equal.
    apply filter_ext_in. intros r Hin.
    rewrite forallb_forall in Hall. rewrite (Hall r Hin). apply andb_true_r.
  - destruct Hinv as [Hnd _]. unfold Dict.keys in *.
    rewrite map_map. exact Hnd.
  - destruct Hinv as [_ Hall]. apply Forall_forall. intros kv Hin.
    apply in_map_iff in Hin as (kv0 & <- & Hin).
    rewrite Forall_forall in Hall.
    destruct (Hall kv0 Hin) as (Hu & Ho & H1 & Hd1 & Hd & Hp1 & Hp & Hb).
    cbn [fst snd]. split; [exact Hu|]. split; [exact Ho|].
    unfold report_bounded, AppPensioners.finish.
    cbn [AppPensioners.total_districts AppPensioners.report_total_pensioners
         AppPensioners.total_pincodes AppPensioners.total_banks].
    lia.
Qed.

(** ** The figures of [generate_dlc_analysis_report] *)

Section Report.

Import DlcBankAnalysis.

Lemma max_by_spec {A : Type} (key : A -> Z) (l : list A) :
  match PyMore.max_by key l with
  | Some x => In x l /\ Forall (fun y => key y <= key x) l
  | None => l = []
  end.
Proof.
  induction l as [|x l IH]; [reflexivity|]. cbn [PyMore.max_by].
  destruct (PyMore.max_by key l) as [y|].
  - destruct IH as [Hin Hall]. destruct (key x <? key y) eqn:E.
    + apply Z.ltb_lt in E. split; [now right|]. constructor; [lia | exact Hall].
    + apply Z.ltb_ge in E. split; [now left|]. constructor; [lia|].
      eapply Forall_impl; [|exact Hall]. simpl. intros; lia.
  - subst l. split; [now left|]. repeat constructor. lia.
Qed.

Lemma max_by_map {A : Type} (key : A -> Z) (l : list A) :
  PyMore.max_by (fun v => v) (map key l) = option_map key (PyMore.max_by key l).
Proof.
  induction l as [|x l IH]; [reflexivity|]. cbn [map PyMore.max_by].
  rewrite IH. destruct (PyMore.max_by key l) as [y|]; [|reflexivity].
  cbn [option_map]. now destruct (key x <? key y).
Qed.

Lemma incr_reads_by (d : Dict.t Z) (k g : string) (n : Z) :
  Dict.get_default 0 g (Dict.incr k n d)
  = Dict.get_default 0 g d + (if String.eqb k g then n else 0).
Proof.
  key_cases k g.
  - subst g. rewrite get_default_incr_same. lia.
  - rewrite get_default_incr_other by assumption. lia.
Qed.

Lemma add_histogram_reads (g : string) (l acc : Dict.t Z) :
  Dict.get_default 0 g
    (fold_left (fun a gc => Dict.incr (fst gc) (snd gc) a) l acc)
  = Dict.get_default 0 g acc + count_in g l.
Proof.
  unfold count_in. revert acc.
  induction l as [|gc l IH]; intros acc; [simpl; lia|].
  cbn [fold_left filter]. rewrite IH, incr_reads_by.
  destruct (String.eqb (fst gc) g); cbn [map fold_right]; lia.
Qed.

Lemma add_histogram_total (l acc : Dict.t Z) :
  Dict.total (fold_left (fun a gc => Dict.incr (fst gc) (snd gc) a) l acc)
  = Dict.total acc + Dict.total l.
Proof.
  revert acc. induction l as [|gc l IH]; intros acc.
  - change (Dict.total (@nil (string * Z))) with 0. simpl. lia.
  - cbn [fold_left]. rewrite IH, total_incr.
    change (Dict.total (gc :: l)) with (snd gc + Dict.total l). lia.
Qed.

End Report.

(** X30.  In the report, the top age group of a bucket is an entry of
    its histogram with the largest count, and the count printed beside
    it is that count (both fall back to 'Unknown' and 0 on an empty
    histogram); the overall count of an age group is the sum of the
    entries of that group over all buckets, and the overall counts add
    up to the histograms of all buckets; the average per bank is the
    floor of total over number of buckets. *)
Theorem X30_report_figures
    (bank_data : Dict.t DlcBankAnalysis.bucket)
    (b : DlcBankAnalysis.bucket) (g : string) :
  match DlcBankAnalysis.age_groups b with
  | [] => DlcReport.top_age_group b = "Unknown" /\ DlcReport.top_age_count b = 0
  | _ => In (DlcReport.top_age_group b, DlcReport.top_age_count b)
            (DlcBankAnalysis.age_groups b)
         /\ Forall (fun gc => snd gc <= DlcReport.top_age_count b)
                   (DlcBankAnalysis.age_groups b)
  end
  /\ Dict.get_default 0 g (DlcReport.overall_age_groups bank_data)
     = sum_over (fun d => count_in g (DlcBankAnalysis.age_groups d)) bank_data
  /\ Dict.total (DlcReport.overall_age_groups bank_data)
     = sum_over (fun d => Dict.total (DlcBankAnalysis.age_groups d)) bank_data
  /\ (bank_data <> [] ->
      let n := Z.of_nat (List.length bank_data) in
      n * DlcReport.average_per_bank bank_data
      <= DlcReport.total_dlc_completed bank_data
      < n * (DlcReport.average_per_bank bank_data + 1)).
Proof.
  split; [|split; [|split]].
  - unfold DlcReport.top_age_group, DlcReport.top_age_count, Dict.values.
    rewrite max_by_map.
    pose proof (max_by_spec (@snd string Z) (DlcBankAnalysis.age_groups b)) as H.
    destruct (PyMore.max_by snd (DlcBankAnalysis.age_groups b)) as [[k v]|].
    + destruct H as [Hin Hall]. cbn [option_map fst snd] in *.
      destruct (DlcBankAnalysis.age_groups b); [destruct Hin | now split].
    + rewrite H. now split.
  - unfold DlcReport.overall_age_groups, sum_over.
    assert (G : forall (data : Dict.t DlcBankAnalysis.bucket) acc,
              Dict.get_default 0 g
                (fold_left (fun acc kv =>
                              fold_left (fun a gc => Dict.incr (fst gc) (snd gc) a)
                                        (DlcBankAnalysis.age_groups (snd kv)) acc)
                           data acc)
              = Dict.get_default 0 g acc
                + fold_right Z.add 0
                    (map (fun kv => count_in g (DlcBankAnalysis.age_groups (snd kv)))
                         data)).
    { induction data as [|kv data IH]; intros acc; [simpl; lia|].
      cbn [fold_left map fold_right]. rewrite IH, add_histogram_reads. lia. }
    rewrite G. reflexivity.
  - unfold DlcReport.overall_age_groups, sum_over.
    assert (G : forall (data : Dict.t DlcBankAnalysis.bucket) acc,
              Dict.total
                (fold_left (fun acc kv =>
                              fold_left (fun a gc => Dict.incr (fst gc) (snd gc) a)
                                        (DlcBankAnalysis.age_groups (snd kv)) acc)
                           data acc)
              = Dict.total acc
                + fold_right Z.add 0
                    (map (fun kv => Dict.total (DlcBankAnalysis.age_groups (snd kv)))
                         data)).
    { induction data as [|kv data IH]; intros acc; [simpl; lia|].
      cbn [fold_left map fold_right]. rewrite IH, add_histogram_total. lia. }
    rewrite G. reflexivity.
  - intros Hne. cbv zeta. unfold DlcReport.average_per_bank, PyMore.floordiv.
    assert (Hn : 0 < Z.of_nat (List.length bank_data)).
    { destruct bank_data; [congruence | simpl; lia]. }
    replace (0 <? Z.of_nat (List.length bank_data)) with true
      by (symmetry; now apply Z.ltb_lt).
    pose proof (Z.mul_div_le (DlcReport.total_dlc_completed bank_data) _ Hn).
    pose proof (Z.mul_succ_div_gt (DlcReport.total_dlc_completed bank_data) _ Hn).
    lia.
Qed.
